(** * dumpyara: partition resolution and extraction pipeline

    A shallow embedding of [dumpyara/utils/partitions.py] and
    [dumpyara/dumpyara.py].  The Python functions act on the file system
    and on the log; they are embedded as computations in a small
    state-and-exception monad over a world made of

    - a file system: a finite map from paths to nodes (regular file with
      its content, or directory), and
    - a trace: the calls made to the file-system primitives, to the
      external collaborators and to the logger, in program order.

    File names are Python [str] values; they are embedded as [string]. *)

From Stdlib Require Import Ascii String.
From stdpp Require Import gmap strings list fin_maps.

(** ** Strings: the [str] methods used by the code *)

Module Str.

Definition dot : ascii := "."%char.

(** [s.endswith(suf)] *)
Fixpoint endswith (s suf : string) : bool :=
  if String.eqb s suf then true
  else match s with
       | EmptyString => false
       | String _ s' => endswith s' suf
       end.

(** [s[:-k]] for [0 < k] *)
Definition drop_last (k : nat) (s : string) : string :=
  substring 0 (String.length s - k) s.

(** [s[-k:]] for [0 < k] *)
Definition take_last (k : nat) (s : string) : string :=
  substring (String.length s - k) k s.

(** [removesuffix(string, suffix)] of sebaubuntu_libs.libstring, the
    backport of [str.removesuffix]: the suffix is removed when it is
    not empty and the string ends with it. *)
Definition removesuffix (s suffix : string) : string :=
  if negb (String.eqb suffix "") && endswith s suffix
  then drop_last (String.length suffix) s
  else s.

(** [s.lstrip('.')] *)
Fixpoint lstrip_dots (s : string) : string :=
  match s with
  | String c s' => if Ascii.eqb c dot then lstrip_dots s' else s
  | EmptyString => EmptyString
  end.

(** [s.split('.')]: never the empty list. *)
Fixpoint split_dots (s : string) : list string :=
  match s with
  | EmptyString => [EmptyString]
  | String c s' =>
      if Ascii.eqb c dot then EmptyString :: split_dots s'
      else match split_dots s' with
           | [] => [String c EmptyString]
           | h :: t => String c h :: t
           end
  end.

(** [''.join(l)] *)
Definition join (l : list string) : string := String.concat "" l.

(** No ['.'] occurs in [s]. *)
Fixpoint nodot (s : string) : bool :=
  match s with
  | EmptyString => true
  | String c s' => negb (Ascii.eqb c dot) && nodot s'
  end.

(** [s] is empty or starts with a dot: the shape of joined suffixes. *)
Definition dotted (s : string) : bool :=
  match s with
  | EmptyString => true
  | String c _ => Ascii.eqb c dot
  end.

(** The part of [s] from its first dot on (empty when there is none). *)
Fixpoint from_first_dot (s : string) : string :=
  match s with
  | EmptyString => EmptyString
  | String c s' => if Ascii.eqb c dot then s else from_first_dot s'
  end.

End Str.

(** ** Paths: the [pathlib] attributes used by the code

    A path is the list of its components; [p </> name] is [p / name]
    for a component [name] (non-empty, without separator).  The empty
    list is the root directory. *)

Abbreviation path := (list string).

Notation "p </> name" := (p ++ [name]) (at level 50, left associativity).

Module Pathlib.

(** [PurePath.name] *)
Definition name (p : path) : string := List.last p "".

(** [PurePath.parent] *)
Definition parent (p : path) : path := removelast p.

(** [str(p)] *)
Definition render (p : path) : string := String.concat "/" p.

(** [PurePath.suffixes], applied to the final component. *)
Definition suffixes (name : string) : list string :=
  if Str.endswith name "." then []
  else map (String.append ".") (tail (Str.split_dots (Str.lstrip_dots name))).

(** Index of the last dot: [name.rfind('.')]. *)
Fixpoint rfind_dot (s : string) : option nat :=
  match s with
  | EmptyString => None
  | String c s' =>
      match rfind_dot s' with
      | Some i => Some (S i)
      | None => if Ascii.eqb c Str.dot then Some 0 else None
      end
  end.

(** [PurePath.stem], applied to the final component. *)
Definition stem (name : string) : string :=
  match rfind_dot name with
  | Some i =>
      if (0 <? i) && (i <? String.length name - 1)
      then substring 0 i name else name
  | None => name
  end.

End Pathlib.

(** ** The world: file system and trace *)

Inductive node :=
  | File (data : string)
  | Dir.

Global Instance node_eq_dec : EqDecision node.
Proof. solve_decision. Defined.

Abbreviation filesystem := (gmap (list string) node).

Inductive exn_class :=
  | FileNotFoundError
  | FileExistsError
  | IsADirectoryError
  | NotADirectoryError
  | SameFileError
  | ShutilError
  | KeyError
  | CalledProcessError
  | OtherError.

Global Instance exn_class_eq_dec : EqDecision exn_class.
Proof. solve_decision. Defined.

(** An exception: its class and its text (for [CalledProcessError] the
    decoded [output] of the process). *)
Record exn := Exn { exn_cls : exn_class; exn_text : string }.

Global Instance exn_eq_dec : EqDecision exn.
Proof. solve_decision. Defined.

(** The 7z command line [x {archive} -y -o"{out_dir}"/]. *)
Record sevenz_command := SevenzX { sz_archive : path; sz_out_dir : path }.

Inductive event :=
  | LOGI (msg : string)
  | LOGE (msg : string)
  | Unlink (p : path)
  | Move (src dst : path)
  | CopyFile (src dst : path)
  | Mkdir (p : path)
  | Rmtree (p : path)
  | ListFiles (p : path)
  | WriteText (p : path) (text : string)
  | CallBootimg (image dest : path) (raised : option exn)
  | CallSevenz (cmd : sevenz_command) (raised : option exn)
  | CallStep (n : nat) (raised : option exn).

Global Instance sevenz_command_eq_dec : EqDecision sevenz_command.
Proof. solve_decision. Defined.

Global Instance event_eq_dec : EqDecision event.
Proof. solve_decision. Defined.

Record world := World { files : filesystem; trace : list event }.

Inductive result (A : Type) :=
  | Ret (a : A)
  | Raise (e : exn).
Arguments Ret {A} a.
Arguments Raise {A} e.

(** ** The monad of effectful code *)

Definition M (A : Type) : Type := world → result A * world.

Definition ret {A} (a : A) : M A := λ w, (Ret a, w).

Definition bind {A B} (m : M A) (k : A → M B) : M B :=
  λ w, match m w with
       | (Ret a, w') => k a w'
       | (Raise e, w') => (Raise e, w')
       end.

Definition raise {A} (e : exn) : M A := λ w, (Raise e, w).

Notation "'do' x <- m ; k" := (bind m (λ x, k))
  (at level 10, x name, m at level 100, k at level 200).
Notation "m >> k" := (bind m (λ _, k))
  (at level 190, right associativity).

(** [try: m except <classes>: handler] *)
Definition try_except {A} (m : M A) (catches : exn → bool) (handler : exn → M A)
  : M A :=
  λ w, match m w with
       | (Raise e, w') => if catches e then handler e w' else (Raise e, w')
       | r => r
       end.

(** [try: m finally: fin]: [fin] always runs; when it raises, its
    exception replaces the outcome of [m]. *)
Definition try_finally {A} (m : M A) (fin : M unit) : M A :=
  λ w, let '(r, w1) := m w in
       match fin w1 with
       | (Ret _, w2) => (r, w2)
       | (Raise e, w2) => (Raise e, w2)
       end.

(** [for x in xs: body] *)
Fixpoint for_each {X} (xs : list X) (body : X → M unit) : M unit :=
  match xs with
  | [] => ret tt
  | x :: xs' => body x >> for_each xs' body
  end.

Definition emit (ev : event) : M unit :=
  λ w, (Ret tt, World (files w) (trace w ++ [ev])).

Definition get_files : M filesystem := λ w, (Ret (files w), w).

Definition update (f : filesystem → filesystem) : M unit :=
  λ w, (Ret tt, World (f (files w)) (trace w)).

(** ** File-system primitives *)

Module FS.

Definition exists_ (m : filesystem) (p : path) : bool :=
  match m !! p with Some _ => true | None => false end.

Definition is_file (m : filesystem) (p : path) : bool :=
  match m !! p with Some (File _) => true | _ => false end.

Definition is_dir (m : filesystem) (p : path) : bool :=
  match m !! p with Some Dir => true | _ => false end.

(** The directory that would hold [p] exists. *)
Definition parent_ok (m : filesystem) (p : path) : bool :=
  is_dir m (Pathlib.parent p).

Definition under (p q : path) : bool := bool_decide (p `prefix_of` q).

Definition oserror (c : exn_class) (p : path) : exn := Exn c (Pathlib.render p).

(** [Path.exists()], [Path.is_file()] *)
Definition path_exists (p : path) : M bool :=
  do m <- get_files; ret (exists_ m p).
Definition path_is_file (p : path) : M bool :=
  do m <- get_files; ret (is_file m p).

(** [Path.unlink()] *)
Definition unlink (p : path) : M unit :=
  emit (Unlink p) >>
  do m <- get_files;
  match m !! p with
  | Some (File _) => update (delete p)
  | Some Dir => raise (oserror IsADirectoryError p)
  | None => raise (oserror FileNotFoundError p)
  end.

(** Everything at or below [src] moves to the same place below [dst]. *)
Definition subtree_move (src dst : path) (m : filesystem) : filesystem :=
  map_fold
    (λ q n acc,
      if under src q then <[dst ++ drop (length src) q := n]> acc else acc)
    (filter (λ kv, ¬ src `prefix_of` kv.1) m) m.

(** [os.rename(src, dst)] as [shutil.move] uses it, for a destination
    that is not an existing directory; when the rename fails the
    fallback of [shutil.move] (copy, then delete) fails in the same
    way. *)
Definition rename (src dst : path) : M unit :=
  do m <- get_files;
  match m !! src with
  | None => raise (oserror FileNotFoundError src)
  | Some (File c) =>
      if parent_ok m dst then update (λ m, <[dst := File c]> (delete src m))
      else raise (oserror FileNotFoundError dst)
  | Some Dir =>
      if under src dst then raise (oserror ShutilError src)
      else if exists_ m dst then raise (oserror FileExistsError dst)
      else if parent_ok m dst then update (subtree_move src dst)
      else raise (oserror FileNotFoundError dst)
  end.

(** [shutil.move(src, dst)]: into [dst] when [dst] is a directory
    (an error if the name is taken there), onto [dst] otherwise. *)
Definition move (src dst : path) : M unit :=
  emit (Move src dst) >>
  do m <- get_files;
  if is_dir m dst then
    if bool_decide (src = dst) then ret tt
    else
      let real_dst := dst </> Pathlib.name src in
      if exists_ m real_dst then raise (oserror ShutilError real_dst)
      else rename src real_dst
  else rename src dst.

(** [shutil.copyfile(src, dst, follow_symlinks=True)] *)
Definition copyfile (src dst : path) : M unit :=
  emit (CopyFile src dst) >>
  do m <- get_files;
  if bool_decide (src = dst) && exists_ m src
  then raise (oserror SameFileError src)
  else match m !! src with
       | None => raise (oserror FileNotFoundError src)
       | Some Dir => raise (oserror IsADirectoryError src)
       | Some (File c) =>
           match m !! dst with
           | Some Dir => raise (oserror IsADirectoryError dst)
           | _ =>
               if parent_ok m dst then update (insert dst (File c))
               else raise (oserror FileNotFoundError dst)
           end
       end.

End FS.

(** ** dumpyara/utils/partitions.py *)

Inductive partition_type :=
  | FILESYSTEM
  | BOOTIMAGE
  | RAW.

Global Instance partition_type_eq_dec : EqDecision partition_type.
Proof. solve_decision. Defined.

(** A [dict] whose iteration order matters: its items in insertion
    order. *)
Fixpoint dict_get {V} (d : list (string * V)) (k : string) : option V :=
  match d with
  | [] => None
  | (k', v) :: d' => if String.eqb k' k then Some v else dict_get d' k
  end.

Definition PARTITIONS : list (string * partition_type) :=
  [ ("boot", BOOTIMAGE);
    ("dtbo", RAW);
    ("recovery", BOOTIMAGE);
    ("vendor_boot", BOOTIMAGE);
    ("exaid", BOOTIMAGE);
    ("rescue", BOOTIMAGE);
    ("tz", RAW);
    ("odm", FILESYSTEM);
    ("odm_dlkm", FILESYSTEM);
    ("oem", FILESYSTEM);
    ("product", FILESYSTEM);
    ("system", FILESYSTEM);
    ("system_dlkm", FILESYSTEM);
    ("system_ext", FILESYSTEM);
    ("system_other", FILESYSTEM);
    ("vendor", FILESYSTEM);
    ("vendor_dlkm", FILESYSTEM);
    ("cust", FILESYSTEM);
    ("factory", FILESYSTEM);
    ("india", FILESYSTEM);
    ("modem", FILESYSTEM);
    ("my_bigball", FILESYSTEM);
    ("my_carrier", FILESYSTEM);
    ("my_company", FILESYSTEM);
    ("my_country", FILESYSTEM);
    ("my_custom", FILESYSTEM);
    ("my_engineering", FILESYSTEM);
    ("my_heytap", FILESYSTEM);
    ("my_manifest", FILESYSTEM);
    ("my_odm", FILESYSTEM);
    ("my_operator", FILESYSTEM);
    ("my_preload", FILESYSTEM);
    ("my_product", FILESYSTEM);
    ("my_region", FILESYSTEM);
    ("my_stock", FILESYSTEM);
    ("my_version", FILESYSTEM);
    ("odm_ext", FILESYSTEM);
    ("oppo_product", FILESYSTEM);
    ("opproduct", FILESYSTEM);
    ("preload_common", FILESYSTEM);
    ("reserve", FILESYSTEM);
    ("special_preload", FILESYSTEM);
    ("systemex", FILESYSTEM);
    ("xrom", FILESYSTEM) ].

(** alternative name: generic name *)
Definition ALTERNATIVE_PARTITION_NAMES : list (string * string) :=
  [ ("boot-verified", "boot");
    ("dtbo-verified", "dtbo");
    ("NON-HLOS", "modem") ].

(** Get the unaliased partition name. *)
Definition get_partition_name (partition_name : string) : string :=
  default partition_name (dict_get ALTERNATIVE_PARTITION_NAMES partition_name).

(** Get a list of partition names. *)
Definition get_partition_names : list string := map fst PARTITIONS.

(** Get a list of partition names with alias. *)
Definition get_partition_names_with_alias : list string :=
  get_partition_names ++ map fst ALTERNATIVE_PARTITION_NAMES.

(** Get a list of partition names with A/B variants. *)
Definition get_partition_names_with_ab : list string :=
  flat_map (λ partition, [partition; partition +:+ "_a"; partition +:+ "_b"])
           get_partition_names_with_alias.

Definition get_filename_suffixes (file_name : string) : string :=
  Str.join (Pathlib.suffixes file_name).

Definition get_filename_without_extensions (file_name : string) : string :=
  Str.removesuffix file_name (get_filename_suffixes file_name).

(** Move aliased partitions to their generic name. *)
Definition fix_aliases (images_path : path) : M unit :=
  for_each ALTERNATIVE_PARTITION_NAMES (λ '(alt_name, name),
    let alt_path := images_path </> (alt_name +:+ ".img") in
    let partition_path := images_path </> (name +:+ ".img") in
    do alt_exists <- FS.path_exists alt_path;
    if negb alt_exists then ret tt
    else
      do partition_exists <- FS.path_exists partition_path;
      (if partition_exists then
         emit (LOGI ("Ignoring " +:+ alt_name +:+ " (" +:+ name
                       +:+ " already extracted)")) >>
         FS.unlink alt_path
       else ret tt) >>
      emit (LOGI ("Fixing alias " +:+ alt_name +:+ " -> " +:+ name)) >>
      FS.move alt_path partition_path).

(** One turn of the loop of [correct_ab_filenames], for the directory
    entry [file_name]. *)
Definition correct_ab_filenames_entry
    (partitions : list string) (images_path : path) (file_name : string)
  : M unit :=
  let file := images_path </> file_name in
  do file_is_file <- FS.path_is_file file;
  if negb file_is_file then
    emit (LOGI ("correct_ab_filenames: " +:+ Pathlib.render file
                  +:+ " doesn't exist, skipping"))
  else
    let file_stem := get_filename_without_extensions file_name in
    emit (LOGI ("correct_ab_filenames: file: " +:+ Pathlib.render file
                  +:+ ", file_stem: " +:+ file_stem)) >>
    if negb (Str.endswith file_stem "_a") && negb (Str.endswith file_stem "_b")
    then
      emit (LOGI "correct_ab_filenames: file_stem doesn't end with a suffix, skipping")
    else
      let suffix := Str.take_last 2 file_stem in
      let file_stem_unslotted := Str.removesuffix file_stem suffix in
      if negb (bool_decide (file_stem_unslotted ∈ partitions)) then
        emit (LOGI ("correct_ab_filenames: file_stem_unslotted "
                      +:+ file_stem_unslotted
                      +:+ " not in the list of known partitions, skipping"))
      else
        let non_ab_partition_path :=
          images_path </> (file_stem_unslotted +:+ get_filename_suffixes file_name) in
        let a_partition_path :=
          images_path </> (file_stem_unslotted +:+ "_a" +:+ get_filename_suffixes file_name) in
        let b_partition_path :=
          images_path </> (file_stem_unslotted +:+ "_b" +:+ get_filename_suffixes file_name) in
        do non_ab_is_file <- FS.path_is_file non_ab_partition_path;
        if non_ab_is_file then
          emit (LOGI ("correct_ab_filenames: "
                        +:+ Pathlib.render non_ab_partition_path
                        +:+ " already exists, skipping")) >>
          FS.unlink file
        else
          do a_is_file <- FS.path_is_file a_partition_path;
          if a_is_file then FS.move a_partition_path non_ab_partition_path
          else
            do b_is_file <- FS.path_is_file b_partition_path;
            if b_is_file then FS.move b_partition_path non_ab_partition_path
            else ret tt.

(** [correct_ab_filenames(images_path)].  [entries] is what
    [images_path.iterdir()] yields: the names found in the directory when
    the loop starts, in the order the operating system lists them.
    Listing something that is not a directory raises. *)
Definition correct_ab_filenames (entries : list string) (images_path : path)
  : M unit :=
  let partitions := get_partition_names_with_alias in
  do m <- get_files;
  if negb (FS.is_dir m images_path) then
    raise (FS.oserror (if FS.exists_ m images_path then NotADirectoryError
                       else FileNotFoundError) images_path)
  else
    for_each entries (correct_ab_filenames_entry partitions images_path).

(** ** The extraction loop and the pipeline

    The collaborators are not part of the embedded files; they are
    parameters.  Each one is a function of the file system that either
    returns ([None]) or raises ([Some e]) and leaves a new file system;
    exceptions are instances of [Exception]. *)

Abbreviation collaborator := (filesystem → option exn * filesystem).

(** Running a collaborator: the call and its outcome enter the trace. *)
Definition call (f : collaborator) (ev : option exn → event) : M unit :=
  λ w, let '(raised, m') := f (files w) in
       (match raised with None => Ret tt | Some e => Raise e end,
        World m' (trace w ++ [ev raised])).

Definition newline : string := String (ascii_of_nat 10) EmptyString.

Module Files.

(** [os.mkdir(p)] *)
Definition os_mkdir (p : path) : M unit :=
  do m <- get_files;
  if FS.exists_ m p then raise (FS.oserror FileExistsError p)
  else if FS.is_dir m (Pathlib.parent p) then update (insert p Dir)
  else if FS.exists_ m (Pathlib.parent p)
       then raise (FS.oserror NotADirectoryError p)
       else raise (FS.oserror FileNotFoundError p).

(** [Path.mkdir()] *)
Definition mkdir (p : path) : M unit := emit (Mkdir p) >> os_mkdir p.

(** The recursion of [Path.mkdir(parents=True, exist_ok=...)]: a
    missing parent is created first, with [exist_ok=True]; [depth]
    bounds the recursion by the length of the path. *)
Fixpoint mkdir_parents_from (depth : nat) (exist_ok : bool) (p : path) : M unit :=
  do m <- get_files;
  if FS.exists_ m p then
    if exist_ok && FS.is_dir m p then ret tt
    else raise (FS.oserror FileExistsError p)
  else if FS.is_dir m (Pathlib.parent p) then update (insert p Dir)
  else if FS.exists_ m (Pathlib.parent p)
       then raise (FS.oserror NotADirectoryError p)
       else match depth with
            | 0 => raise (FS.oserror FileNotFoundError p)
            | S depth' =>
                mkdir_parents_from depth' true (Pathlib.parent p) >> os_mkdir p
            end.

(** [Path.mkdir(parents=True)] *)
Definition mkdir_parents (p : path) : M unit :=
  emit (Mkdir p) >> mkdir_parents_from (length p) false p.

(** [Path.write_text(text)] *)
Definition write_text (p : path) (text : string) : M unit :=
  emit (WriteText p text) >>
  do m <- get_files;
  match m !! p with
  | Some Dir => raise (FS.oserror IsADirectoryError p)
  | _ =>
      if FS.parent_ok m p then update (insert p (File text))
      else raise (FS.oserror FileNotFoundError p)
  end.

(** Modelled from the spec: [rmtree_recursive] of dumpyara.utils.files
    is not among the embedded files; the spec has it remove a
    temporary directory, that is the directory and all below it. *)
Definition rmtree_recursive (p : path) : M unit :=
  emit (Rmtree p) >>
  update (filter (λ kv, ¬ p `prefix_of` kv.1)).

End Files.

Section Pipeline.

(** dumpyara.utils.bootimg, dumpyara.lib.libsevenz and
    sebaubuntu_libs.libexception *)
Variable extract_bootimg : path → path → collaborator.
Variable sevenz : sevenz_command → collaborator.
Variable format_exception : exn → string.

(** One turn of the loop of [extract_partitions]. *)
Definition extract_partition (raw_images_path output_path : path)
    (partition : string) : M unit :=
  match dict_get PARTITIONS partition with
  | None => raise (Exn KeyError partition)
  | Some partition_type =>
      let image_path := raw_images_path </> (partition +:+ ".img") in
      do image_exists <- FS.path_exists image_path;
      if negb image_exists then ret tt
      else
        emit (LOGI ("Extracting " +:+ partition)) >>
        (if bool_decide (partition_type = BOOTIMAGE) then
           try_except
             (call (extract_bootimg image_path (output_path </> partition))
                   (CallBootimg image_path (output_path </> partition)))
             (λ _, true)
             (λ e,
               emit (LOGE ("Failed to extract " +:+ Pathlib.name image_path)) >>
               emit (LOGE (format_exception e)))
         else if bool_decide (partition_type = FILESYSTEM) then
           try_except
             (call (sevenz (SevenzX image_path (output_path </> partition)))
                   (CallSevenz (SevenzX image_path (output_path </> partition))))
             (λ e, bool_decide (exn_cls e = CalledProcessError))
             (λ e,
               emit (LOGE ("Error extracting " +:+ Pathlib.name image_path)) >>
               emit (LOGE (exn_text e)))
         else ret tt) >>
        if bool_decide (partition_type ∈ [RAW; BOOTIMAGE]) then
          FS.copyfile image_path (output_path </> (partition +:+ ".img"))
        else ret tt
  end.

(** Extract partition files from raw images. *)
Definition extract_partitions (raw_images_path output_path : path) : M unit :=
  for_each get_partition_names (extract_partition raw_images_path output_path).

(** dumpyara.steps and dumpyara.utils.files.get_recursive_files_list
    (with [relative=True]), and [sorted] with the key
    [strcoll_files_key] of sebaubuntu_libs.libreorder *)
Variable step_1 : path → path → collaborator.
Variable step_2 : path → path → collaborator.
Variable step_3 : path → path → collaborator.
Variable get_recursive_files_list : filesystem → path → list path.
Variable sorted_strcoll : list path → list path.

Definition output_dir (file output_path : path) : path :=
  output_path </> Pathlib.stem (Pathlib.name file).

Definition manifest (m : filesystem) (path_ : path) : string :=
  String.concat newline
    (map Pathlib.render (sorted_strcoll (get_recursive_files_list m path_)))
  +:+ newline.

(** The [try] block up to step 3. *)
Definition dumpyara_steps (file path_ : path) : M unit :=
  let extracted_archive_path := path_ </> "temp_extracted_archive" in
  let raw_images_path := path_ </> "temp_raw_images" in
  Files.mkdir_parents path_ >>
  Files.mkdir extracted_archive_path >>
  Files.mkdir raw_images_path >>
  emit (LOGI "Step 1 - Extracting archive") >>
  call (step_1 file extracted_archive_path) (CallStep 1) >>
  emit (LOGI "Step 2 - Preparing partition images") >>
  call (step_2 extracted_archive_path raw_images_path) (CallStep 2) >>
  emit (LOGI "Step 3 - Extracting partitions") >>
  call (step_3 raw_images_path path_) (CallStep 3).

(** Step 4 of the [try] block: the manifest. *)
Definition dumpyara_finalize (path_ : path) : M path :=
  emit (LOGI "Step 4 - Finalizing") >>
  emit (ListFiles path_) >>
  do m <- get_files;
  emit (LOGI "Creating all_files.txt") >>
  Files.write_text (path_ </> "all_files.txt") (manifest m path_) >>
  ret path_.

(** The [finally] block. *)
Definition dumpyara_cleanup (path_ : path) (debug : bool) : M unit :=
  let extracted_archive_path := path_ </> "temp_extracted_archive" in
  let raw_images_path := path_ </> "temp_raw_images" in
  if negb debug then
    (do archive_exists <- FS.path_exists extracted_archive_path;
     if archive_exists then Files.rmtree_recursive extracted_archive_path
     else ret tt) >>
    (do raw_exists <- FS.path_exists raw_images_path;
     if raw_exists then Files.rmtree_recursive raw_images_path
     else ret tt)
  else ret tt.

(** Dump an Android firmware. *)
Definition dumpyara (file output_path : path) (debug : bool) : M path :=
  let path_ := output_dir file output_path in
  try_finally
    (dumpyara_steps file path_ >> dumpyara_finalize path_)
    (dumpyara_cleanup path_ debug).

End Pipeline.

(** Running a collaborator that leaves no entry in the trace. *)
Definition run (f : collaborator) : M unit :=
  λ w, let '(raised, m') := f (files w) in
       (match raised with None => Ret tt | Some e => Raise e end,
        World m' (trace w)).

Section RawImages.

(** dumpyara.utils.raw_image *)
Variable get_raw_image : string → path → path → collaborator.

(** Prepare raw images for 7z extraction. *)
Definition prepare_raw_images (files_path raw_images_path : path) : M unit :=
  for_each get_partition_names_with_ab (λ partition_name,
    let partition_output := raw_images_path </> (partition_name +:+ ".img") in
    run (get_raw_image partition_name files_path partition_output)).

End RawImages.

(** [entries] lists the directory [d] of [m]: every name in it, once. *)
Definition listing (m : filesystem) (d : path) (entries : list string) : Prop :=
  NoDup entries ∧ ∀ name, name ∈ entries ↔ is_Some (m !! (d </> name)).

(** ** How [correct_ab_filenames] reads a file name *)

Inductive slot :=
  | Unslotted
  | SlotA
  | SlotB.

Global Instance slot_eq_dec : EqDecision slot.
Proof. solve_decision. Defined.

Definition slot_suffix (s : slot) : string :=
  match s with
  | Unslotted => ""
  | SlotA => "_a"
  | SlotB => "_b"
  end.

(** The name [f"{token}{slot}{suffixes}"]. *)
Definition slotted_name (token : string) (s : slot) (suffixes : string) : string :=
  token +:+ slot_suffix s +:+ suffixes.

(** The tests of lines 179 to 191 on a file name: the unslotted stem and
    the joined suffixes of a name whose stem ends with a slot suffix and
    is a known partition once unslotted. *)
Definition classify (file_name : string) : option (string * string) :=
  let file_stem := get_filename_without_extensions file_name in
  if negb (Str.endswith file_stem "_a") && negb (Str.endswith file_stem "_b")
  then None
  else
    let file_stem_unslotted :=
      Str.removesuffix file_stem (Str.take_last 2 file_stem) in
    if bool_decide (file_stem_unslotted ∈ get_partition_names_with_alias)
    then Some (file_stem_unslotted, get_filename_suffixes file_name)
    else None.

(** The partition token of a file name: its stem, without the slot suffix
    when it has one. *)
Definition token_of (file_name : string) : string :=
  let file_stem := get_filename_without_extensions file_name in
  if negb (Str.endswith file_stem "_a") && negb (Str.endswith file_stem "_b")
  then file_stem
  else Str.removesuffix file_stem (Str.take_last 2 file_stem).

(** The joined suffixes as a function of what follows a dot-free head. *)
Definition suffixes_of_tail (t : string) : string :=
  if Str.endswith t "." then "" else Str.from_first_dot t.

(** ** The vocabulary of the statements *)

Definition is_log (ev : event) : bool :=
  match ev with
  | LOGI _ | LOGE _ => true
  | _ => false
  end.

(** The world [w] after the events [evs] and with the files [m]. *)
Definition after (w : world) (evs : list event) (m : filesystem) : world :=
  World m (trace w ++ evs).

(** The paths an event names. *)
Definition event_paths (ev : event) : list path :=
  match ev with
  | LOGI _ | LOGE _ => []
  | Unlink p | Mkdir p | Rmtree p | ListFiles p | WriteText p _ => [p]
  | Move src dst | CopyFile src dst => [src; dst]
  | CallBootimg image dest _ => [image; dest]
  | CallSevenz cmd _ => [sz_archive cmd; sz_out_dir cmd]
  | CallStep _ _ => []
  end.

(** [listing], decided: for closed examples. *)
Definition listing_check (m : filesystem) (d : path) (entries : list string) : bool :=
  bool_decide (NoDup entries)
  && forallb (λ n, FS.exists_ m (d </> n)) entries
  && forallb (λ q, implb (bool_decide (q ≠ [] ∧ Pathlib.parent q = d))
                         (bool_decide (Pathlib.name q ∈ entries)))
             (map fst (map_to_list m)).

(** [x] comes before [y] in the listing [l]. *)
Fixpoint listed_before (x y : string) (l : list string) : bool :=
  match l with
  | [] => false
  | z :: l' =>
      if String.eqb z x then true
      else if String.eqb z y then false
      else listed_before x y l'
  end.

(** No token has both its slot files while its unslotted file is
    missing. *)
Definition dual_slot_free (m : filesystem) (d : path) : Prop :=
  ∀ token suffixes,
    token ∈ get_partition_names_with_alias → Str.dotted suffixes = true →
    FS.is_file m (d </> (token +:+ "_a" +:+ suffixes)) = true →
    FS.is_file m (d </> (token +:+ "_b" +:+ suffixes)) = true →
    FS.is_file m (d </> (token +:+ suffixes)) = true.

(** No regular file of the directory is a slot file of a known token. *)
Definition resolved (m : filesystem) (d : path) : Prop :=
  ∀ x, FS.is_file m (d </> x) = true → classify x = None.

Definition touches_only (may : path → Prop) (ok : event → Prop) (w w' : world)
  : Prop :=
  (∀ q, ¬ may q → files w' !! q = files w !! q) ∧
  ∃ evs, trace w' = trace w ++ evs ∧ Forall ok evs.

Definition confined {A} (may : path → Prop) (ok : event → Prop) (m : M A) : Prop :=
  ∀ w r w', m w = (r, w') → touches_only may ok w w'.

(** Paths at or below an entry of [d] whose token is known, and events
    that name such entries only. *)
Definition may_known (d : path) (q : path) : Prop :=
  ∃ n, token_of n ∈ get_partition_names_with_alias ∧ (d </> n) `prefix_of` q.

Definition names_known (d : path) (ev : event) : Prop :=
  ∀ p, p ∈ event_paths ev →
       ∃ n, token_of n ∈ get_partition_names_with_alias ∧ p = d </> n.

(** The entry [n] of [d], and all below it, is the same in [w'] as in
    [w], and no event added from [w] to [w'] names it. *)
Definition untouched (d : path) (n : string) (w w' : world) : Prop :=
  (∀ q, (d </> n) `prefix_of` q → files w' !! q = files w !! q) ∧
  ∃ evs, trace w' = trace w ++ evs ∧
         ∀ ev, ev ∈ evs → d </> n ∉ event_paths ev.

(** What [extract_partitions] may add to the trace: log entries, the
    call of the collaborator matching a partition's type, the copy of
    the raw image of a partition that is not a file system. *)
Definition extraction_event (raw out : path) (ev : event) : Prop :=
  is_log ev = true ∨
  ∃ p ty, dict_get PARTITIONS p = Some ty ∧
    ((∃ r, ev = CallBootimg (raw </> (p +:+ ".img")) (out </> p) r
           ∧ ty = BOOTIMAGE) ∨
     (∃ r, ev = CallSevenz (SevenzX (raw </> (p +:+ ".img")) (out </> p)) r
           ∧ ty = FILESYSTEM) ∨
     (ev = CopyFile (raw </> (p +:+ ".img")) (out </> (p +:+ ".img"))
      ∧ ty ≠ FILESYSTEM)).

(** Where [extract_partitions] writes: below the directory of a
    partition, and onto the copy of its raw image. *)
Definition extraction_may (partitions : list string) (out : path) (q : path)
  : Prop :=
  ∃ p, p ∈ partitions ∧
       ((out </> p) `prefix_of` q ∨ q = out </> (p +:+ ".img")).

(** A collaborator called with the destination [dest] writes at or below
    [dest] only. *)
Definition writes_below (f : path → collaborator) : Prop :=
  ∀ dest m q, ¬ dest `prefix_of` q → (f dest m).2 !! q = m !! q.

(** The image paths handed to the collaborators, in order. *)
Definition attempted (evs : list event) : list path :=
  omap (λ ev, match ev with
              | CallBootimg image _ _ => Some image
              | CallSevenz cmd _ => Some (sz_archive cmd)
              | _ => None
              end) evs.

Definition all_slots : list slot := [Unslotted; SlotA; SlotB].

(** No two (token, slot) pairs of known tokens spell the same stem:
    checked on the table. *)
Definition heads_distinct : bool :=
  forallb (λ t1, forallb (λ t2, forallb (λ s1, forallb (λ s2,
    implb (String.eqb (t1 +:+ slot_suffix s1) (t2 +:+ slot_suffix s2))
          (String.eqb t1 t2 && bool_decide (s1 = s2)))
    all_slots) all_slots) get_partition_names_with_alias)
    get_partition_names_with_alias.

(** Moving a regular file onto a name that is free, or into a
    directory of that name. *)
Inductive move_file_outcome (m : filesystem) (src dst : path) (c : string)
  : result unit → filesystem → Prop :=
  | move_onto :
      m !! dst = None →
      move_file_outcome m src dst c (Ret tt) (<[dst := File c]> (delete src m))
  | move_into :
      m !! dst = Some Dir →
      m !! (dst </> Pathlib.name src) = None →
      move_file_outcome m src dst c (Ret tt)
        (<[dst </> Pathlib.name src := File c]> (delete src m))
  | move_taken :
      m !! dst = Some Dir →
      is_Some (m !! (dst </> Pathlib.name src)) →
      move_file_outcome m src dst c
        (Raise (FS.oserror ShutilError (dst </> Pathlib.name src))) m.

(** A step that, when it returns, leaves the two temporary directories
    of [path_] in place. *)
Definition keeps_temp_dirs (path_ : path) (f : collaborator) : Prop :=
  ∀ m m', f m = (None, m') →
    (FS.is_dir m (path_ </> "temp_extracted_archive") = true →
     FS.is_dir m' (path_ </> "temp_extracted_archive") = true) ∧
    (FS.is_dir m (path_ </> "temp_raw_images") = true →
     FS.is_dir m' (path_ </> "temp_raw_images") = true).

Section SlotVocabulary.

Variable d : path.

Abbreviation at_ token s suffixes := (d </> slotted_name token s suffixes).

(** What [correct_ab_filenames_entry] does with the entry [x]:
    nothing but logging, the removal of [x], or the promotion of a
    slot file of the same token. *)
Inductive entry_outcome (x : string) (w : world) : result unit → world → Prop :=
  | entry_skip w' logs :
      FS.is_file (files w) (d </> x) = false ∨ classify x = None →
      files w' = files w →
      trace w' = trace w ++ logs →
      forallb is_log logs = true →
      entry_outcome x w (Ret tt) w'
  | entry_redundant w' token suffixes logs :
      FS.is_file (files w) (d </> x) = true →
      classify x = Some (token, suffixes) →
      FS.is_file (files w) (at_ token Unslotted suffixes) = true →
      files w' = delete (d </> x) (files w) →
      trace w' = trace w ++ logs ++ [Unlink (d </> x)] →
      forallb is_log logs = true →
      entry_outcome x w (Ret tt) w'
  | entry_promote w' token suffixes s c logs r :
      FS.is_file (files w) (d </> x) = true →
      classify x = Some (token, suffixes) →
      FS.is_file (files w) (at_ token Unslotted suffixes) = false →
      s ≠ Unslotted →
      files w !! at_ token s suffixes = Some (File c) →
      (s = SlotB → FS.is_file (files w) (at_ token SlotA suffixes) = false) →
      move_file_outcome (files w) (at_ token s suffixes)
        (at_ token Unslotted suffixes) c r (files w') →
      trace w' = trace w ++ logs
                   ++ [Move (at_ token s suffixes) (at_ token Unslotted suffixes)] →
      forallb is_log logs = true →
      entry_outcome x w r w'.

(** The events of a turn on [x] in the world [w]: logging, the removal
    of a slot file, or the move of a slot file onto an unslotted name
    that is not a regular file. *)
Definition entry_event (x : string) (w : world) (ev : event) : Prop :=
  is_log ev = true ∨
  ∃ token suffixes s,
    classify x = Some (token, suffixes) ∧ s ≠ Unslotted ∧
    (ev = Unlink (at_ token s suffixes) ∨
     (ev = Move (at_ token s suffixes) (at_ token Unslotted suffixes) ∧
      FS.is_file (files w) (at_ token Unslotted suffixes) = false)).

Definition pending (todo : list string) (w : world) : Prop :=
  FS.is_dir (files w) d = true ∧
  dual_slot_free (files w) d ∧
  ∀ x, FS.is_file (files w) (d </> x) = true → classify x ≠ None → x ∈ todo.

End SlotVocabulary.

Section DualSlotVocabulary.

Variable d : path.
Variable t : string.
Variables (ca cb : string) (keep : bool).

Abbreviation tn := (t +:+ ".img").
Abbreviation ta := (t +:+ "_a.img").
Abbreviation tb := (t +:+ "_b.img").

(** The three stages of the resolution of [t]: nothing done yet; the
    [_a] entry was visited first; the [_b] entry was visited first. *)
Definition dual_slot_stage (todo : list string) (w : world) : Prop :=
  NoDup todo ∧
  ((files w !! (d </> tn) = None ∧
    files w !! (d </> ta) = Some (File ca) ∧
    files w !! (d </> tb) = Some (File cb) ∧
    ta ∈ todo ∧ tb ∈ todo ∧ listed_before tb ta todo = keep)
   ∨ (files w !! (d </> tn) = Some (File ca) ∧
      files w !! (d </> ta) = None ∧ keep = false ∧
      (files w !! (d </> tb) = None
       ∨ (files w !! (d </> tb) = Some (File cb) ∧ tb ∈ todo)))
   ∨ (files w !! (d </> tn) = Some (File ca) ∧
      files w !! (d </> ta) = None ∧ keep = true ∧
      files w !! (d </> tb) = Some (File cb) ∧ tb ∉ todo)).

End DualSlotVocabulary.

Section ExtractionVocabulary.

Variable format_exception : exn → string.

Variables raw out : path.

Abbreviation image_of p := (raw </> (p +:+ ".img")).
Abbreviation copy_of p := (out </> (p +:+ ".img")).

(** The log entries of the two [except] clauses. *)
Definition bootimg_failure_logs (image : path) (raised : option exn) : list event :=
  match raised with
  | None => []
  | Some e => [LOGE ("Failed to extract " +:+ Pathlib.name image);
               LOGE (format_exception e)]
  end.

Definition sevenz_failure_logs (image : path) (raised : option exn) : list event :=
  match raised with
  | None => []
  | Some e => [LOGE ("Error extracting " +:+ Pathlib.name image);
               LOGE (exn_text e)]
  end.

(** Every failed call is followed by the two log entries of its
    [except] clause. *)
Fixpoint failures_logged (evs : list event) : Prop :=
  match evs with
  | [] => True
  | CallBootimg image _ (Some e) :: rest =>
      (∃ rest', rest = LOGE ("Failed to extract " +:+ Pathlib.name image)
                         :: LOGE (format_exception e) :: rest')
      ∧ failures_logged rest
  | CallSevenz cmd (Some e) :: rest =>
      (∃ rest', rest = LOGE ("Error extracting " +:+ Pathlib.name (sz_archive cmd))
                         :: LOGE (exn_text e) :: rest')
      ∧ failures_logged rest
  | _ :: rest => failures_logged rest
  end.

(** The images of the partitions that are present in [m] and are not
    raw: those the loop is to hand to a collaborator, in the order of
    [partitions]. *)
Definition expected_attempts (m : filesystem) (partitions : list string)
  : list path :=
  omap (λ p, match dict_get PARTITIONS p with
             | Some ty =>
                 if FS.exists_ m (raw </> (p +:+ ".img"))
                    && negb (bool_decide (ty = RAW))
                 then Some (raw </> (p +:+ ".img")) else None
             | None => None
             end) partitions.

(** The state the turns rely on: the output directory exists, and for
    the partitions still to visit neither the raw image nor the place of
    its copy is a directory. *)
Definition ready (partitions : list string) (m : filesystem) : Prop :=
  FS.is_dir m out = true ∧
  ∀ p, p ∈ partitions →
       m !! image_of p ≠ Some Dir ∧ m !! copy_of p ≠ Some Dir.

End ExtractionVocabulary.

(** What [fix_aliases] logs and moves when no alias collides with its
    generic name: for every alias image found, the announcement and the
    move. *)
Definition alias_moves (d : path) (m : filesystem) : list event :=
  flat_map
    (λ '(alt_name, name),
      if FS.exists_ m (d </> (alt_name +:+ ".img"))
      then [ LOGI ("Fixing alias " +:+ alt_name +:+ " -> " +:+ name);
             Move (d </> (alt_name +:+ ".img")) (d </> (name +:+ ".img")) ]
      else [])
    ALTERNATIVE_PARTITION_NAMES.

(** From [m] to [m'] no content was altered or invented and no
    directory was made or removed: a regular file of [m'] has the
    content of a regular file of [m], and the directories are the
    same. *)
Definition contents_kept (m m' : filesystem) : Prop :=
  (∀ q c, m' !! q = Some (File c) → ∃ q0, m !! q0 = Some (File c)) ∧
  (∀ q, m' !! q = Some Dir ↔ m !! q = Some Dir).




(** The order of the pipeline, read on the events [evs] of a run with
    the outcome [r]: a step is called only after the step before it
    returned, the manifest is written only after step 3 returned, an
    exception of a step is the outcome of the run, and a run that
    returns returns the output directory, after writing the manifest. *)
Definition steps_in_order (path_ : path) (evs : list event) (r : result path)
  : Prop :=
  (∀ raised, CallStep 1 raised ∈ evs →
     Mkdir path_ ∈ evs ∧ Mkdir (path_ </> "temp_extracted_archive") ∈ evs ∧
     Mkdir (path_ </> "temp_raw_images") ∈ evs) ∧
  (∀ raised, CallStep 2 raised ∈ evs → CallStep 1 None ∈ evs) ∧
  (∀ raised, CallStep 3 raised ∈ evs → CallStep 2 None ∈ evs) ∧
  (∀ p text, WriteText p text ∈ evs →
     CallStep 3 None ∈ evs ∧ p = path_ </> "all_files.txt") ∧
  (∀ n e, CallStep n (Some e) ∈ evs → r = Raise e) ∧
  (∀ p, r = Ret p →
     p = path_ ∧ ∃ text, WriteText (path_ </> "all_files.txt") text ∈ evs).

(** A step that returns, leaves the output directory [path_] a
    directory and puts no directory in the place of the manifest. *)
Definition step_returns (path_ : path) (f : collaborator) : Prop :=
  ∀ m, (f m).1 = None ∧
       (FS.is_dir m path_ = true → FS.is_dir (f m).2 path_ = true) ∧
       (m !! (path_ </> "all_files.txt") ≠ Some Dir →
        (f m).2 !! (path_ </> "all_files.txt") ≠ Some Dir).

(** ** The inputs of the closed runs *)

(** A firmware [fw.zip] dumped into [out]: the output directory and its
    staging directory, holding the given images. *)
Definition example_output : path := ["out"; "fw"].
Definition example_staging : path := ["out"; "fw"; "temp_raw_images"].

Definition staged (images : list (string * string)) : world :=
  World
    (foldr (λ '(n, c) m, <[example_staging </> n := File c]> m)
       (<[example_staging := Dir]>
          (<[example_output := Dir]> (<[["out"] := Dir]> {[ [] := Dir ]})))
       images)
    [].

(** The regular files and the directories of a file system, listed. *)
Definition regular_files (m : filesystem) : list path :=
  omap (λ kv, match kv.2 with File _ => Some kv.1 | Dir => None end)
       (map_to_list m).


Definition alias_collision : world :=
  staged [("boot-verified.img", "VERIFIED"); ("boot.img", "BOOT")].

Definition redundant_b : world :=
  staged [("system.img", "SYSTEM"); ("system_b.img", "SLOT B")].

Definition dual_slot : world :=
  staged [("boot_a.img", "SLOT A"); ("boot_b.img", "SLOT B")].

Definition single_slot : world := staged [("vendor_a.img", "VENDOR")].

(** A boot-image unpacker that fails on [recovery] and otherwise writes
    a kernel into its destination. *)
Definition example_bootimg (image dest : path) : collaborator :=
  λ m, if bool_decide (Pathlib.name dest = "recovery")
       then (Some (Exn OtherError "unknown boot image header"), m)
       else (None, <[dest </> "kernel" := File "KERNEL"]> (<[dest := Dir]> m)).

(** A 7z that exits with an error on [product] and otherwise extracts a
    file into its output directory. *)
Definition example_sevenz (cmd : sevenz_command) : collaborator :=
  λ m, if bool_decide (Pathlib.name (sz_out_dir cmd) = "product")
       then (Some (Exn CalledProcessError "ERROR: Cannot open the file as archive"),
             <[sz_out_dir cmd := Dir]> m)
       else (None, <[sz_out_dir cmd </> "build.prop" := File "ro.build=1"]>
                     (<[sz_out_dir cmd := Dir]> m)).


Definition example_format_exception (e : exn) : string := exn_text e.

Definition extraction_input : world :=
  staged [ ("boot.img", "BOOT"); ("recovery.img", "RECOVERY");
           ("dtbo.img", "DTBO"); ("product.img", "PRODUCT");
           ("system.img", "SYSTEM") ].

(** Steps that put one image where the next step expects it. *)
Definition example_step_1 (file extracted_archive_path : path) : collaborator :=
  λ m, (None, <[extracted_archive_path </> "boot.img" := File "BOOT"]> m).

Definition example_step_2 (extracted_archive_path raw_images_path : path)
  : collaborator :=
  λ m, (None, <[raw_images_path </> "boot.img" := File "BOOT"]> m).

Definition example_step_3 (raw_images_path path_ : path) : collaborator :=
  λ m, (None, <[path_ </> "boot.img" := File "BOOT"]> m).

(** The regular files below a directory, relative to it. *)
Definition example_files_list (m : filesystem) (d : path) : list path :=
  omap (λ p, if bool_decide (d `prefix_of` p) then Some (drop (length d) p) else None)
       (regular_files m).

Fixpoint example_insert (p : path) (l : list path) : list path :=
  match l with
  | [] => [p]
  | q :: l' =>
      if String.leb (Pathlib.render p) (Pathlib.render q)
      then p :: l else q :: example_insert p l'
  end.

Definition example_sorted (l : list path) : list path :=
  foldr example_insert [] l.

Definition example_firmware : path := ["fw.zip"].

Definition example_root : path := ["out"].

Definition empty_root : world := World (<[example_root := Dir]> {[ [] := Dir ]}) [].


(** A [get_raw_image] that finds an image for [system_a] only, and one
    that fails on [vendor]. *)
Definition example_get_raw_image (partition_name : string)
    (files_path output : path) : collaborator :=
  λ m, if String.eqb partition_name "system_a"
       then (None, <[output := File "SYSTEM A"]> m)
       else (None, m).

Definition failing_get_raw_image (partition_name : string)
    (files_path output : path) : collaborator :=
  λ m, if String.eqb partition_name "vendor"
       then (Some (Exn OtherError "vendor: unsupported image"), m)
       else (None, m).

Definition aliased_images : world :=
  staged [("boot-verified.img", "VERIFIED"); ("NON-HLOS.img", "MODEM");
          ("dtbo.img", "DTBO")].



(** A second step that finds nothing to prepare. *)
Definition failing_step_2 (extracted_archive_path raw_images_path : path)
  : collaborator :=
  λ m, (Some (Exn OtherError "no partition image found"), m).

(** The output holds a directory where the copy of [dtbo.img] goes. *)
Definition blocked_copy : world :=
  World (<[example_output </> "dtbo.img" := Dir]> (files extraction_input)) [].

(** ** Facts about strings and names *)

Module StrFacts.

Import Str.

Lemma append_cons c s t : String c s +:+ t = String c (s +:+ t).
Proof. reflexivity. Qed.

Lemma append_nil_l t : "" +:+ t = t.
Proof. reflexivity. Qed.

Ltac ssimpl := simpl in *; rewrite ?append_cons, ?append_nil_l in *; simpl in *.

Lemma append_nil_r s : s +:+ "" = s.
Proof. induction s as [|c s IH]; ssimpl; [done | by rewrite IH]. Qed.

Lemma append_assoc s1 s2 s3 : (s1 +:+ s2) +:+ s3 = s1 +:+ (s2 +:+ s3).
Proof. induction s1 as [|c s1 IH]; ssimpl; [done | by rewrite IH]. Qed.

Lemma length_append s1 s2 :
  String.length (s1 +:+ s2) = String.length s1 + String.length s2.
Proof. induction s1 as [|c s1 IH]; ssimpl; [done | by rewrite IH]. Qed.

Lemma append_inv_r s1 s2 t : s1 +:+ t = s2 +:+ t → s1 = s2.
Proof.
  revert s2. induction s1 as [|c s1 IH]; intros [|c2 s2] H.
  - done.
  - apply (f_equal String.length) in H. rewrite !length_append in H.
    simpl in H. lia.
  - apply (f_equal String.length) in H. rewrite !length_append in H.
    simpl in H. lia.
  - rewrite !append_cons in H. injection H as -> H. f_equal. by apply IH.
Qed.

Lemma endswith_unfold s suf :
  endswith s suf =
  if String.eqb s suf then true
  else match s with
       | EmptyString => false
       | String _ s' => endswith s' suf
       end.
Proof. by destruct s. Qed.

Lemma endswith_spec s suf :
  endswith s suf = true ↔ ∃ pre, s = pre +:+ suf.
Proof.
  split.
  - induction s as [|c s IH]; rewrite endswith_unfold.
    + destruct (String.eqb_spec "" suf) as [<-|]; [by exists ""|done].
    + destruct (String.eqb_spec (String c s) suf) as [<-|]; [by exists ""|].
      intros [pre ->]%IH. by exists (String c pre).
  - intros [pre ->]. induction pre as [|c pre IH]; rewrite endswith_unfold.
    + by rewrite append_nil_l, String.eqb_refl.
    + rewrite append_cons, IH. by destruct (String.eqb _ _).
Qed.

Lemma substring_prefix pre suf :
  substring 0 (String.length pre) (pre +:+ suf) = pre.
Proof.
  induction pre as [|c pre IH]; ssimpl.
  - by destruct suf.
  - by rewrite IH.
Qed.

Lemma substring_whole s : substring 0 (String.length s) s = s.
Proof. induction s as [|c s IH]; simpl; [done | by rewrite IH]. Qed.

Lemma substring_suffix pre suf :
  substring (String.length pre) (String.length suf) (pre +:+ suf) = suf.
Proof.
  induction pre as [|c pre IH]; ssimpl.
  - apply substring_whole.
  - apply IH.
Qed.

Lemma drop_last_app pre suf :
  drop_last (String.length suf) (pre +:+ suf) = pre.
Proof.
  unfold drop_last. rewrite length_append.
  replace (String.length pre + String.length suf - String.length suf)
    with (String.length pre) by lia.
  apply substring_prefix.
Qed.

Lemma take_last_app pre suf :
  take_last (String.length suf) (pre +:+ suf) = suf.
Proof.
  unfold take_last. rewrite length_append.
  replace (String.length pre + String.length suf - String.length suf)
    with (String.length pre) by lia.
  apply substring_suffix.
Qed.

Lemma removesuffix_app pre suf : removesuffix (pre +:+ suf) suf = pre.
Proof.
  unfold removesuffix.
  destruct (String.eqb_spec suf "") as [->|Hne]; simpl.
  - apply append_nil_r.
  - replace (endswith (pre +:+ suf) suf) with true
      by (symmetry; apply endswith_spec; eauto).
    apply drop_last_app.
Qed.

Lemma nodot_app s1 s2 : nodot (s1 +:+ s2) = nodot s1 && nodot s2.
Proof.
  induction s1 as [|c s1 IH]; ssimpl; [done|].
  rewrite IH. by destruct (Ascii.eqb c dot).
Qed.

(** A name splits in one way only into a dot-free head and a tail that
    is empty or starts with a dot. *)
Lemma head_tail_unique h1 t1 h2 t2 :
  nodot h1 = true → nodot h2 = true →
  dotted t1 = true → dotted t2 = true →
  h1 +:+ t1 = h2 +:+ t2 → h1 = h2 ∧ t1 = t2.
Proof.
  revert h2. induction h1 as [|c h1 IH]; intros [|c2 h2] N1 N2 D1 D2 H;
    ssimpl.
  - done.
  - subst t1. simpl in D1. rewrite D1 in N2. done.
  - subst t2. simpl in D2. rewrite D2 in N1. done.
  - injection H as -> H.
    apply andb_true_iff in N1 as [_ N1]. apply andb_true_iff in N2 as [_ N2].
    destruct (IH h2 N1 N2 D1 D2 H) as [-> ->]. done.
Qed.

Lemma from_first_dot_dotted s : dotted (from_first_dot s) = true.
Proof.
  induction s as [|c s IH]; simpl; [done|].
  destruct (Ascii.eqb c dot) eqn:E; [by simpl | done].
Qed.

Lemma from_first_dot_suffix s : ∃ pre, s = pre +:+ from_first_dot s.
Proof.
  induction s as [|c s [pre IH]]; simpl.
  - by exists "".
  - destruct (Ascii.eqb c dot).
    + by exists "".
    + exists (String c pre). rewrite append_cons. by rewrite <- IH.
Qed.

Lemma lstrip_dots_suffix s : ∃ pre, s = pre +:+ lstrip_dots s.
Proof.
  induction s as [|c s [pre IH]]; simpl.
  - by exists "".
  - destruct (Ascii.eqb c dot).
    + exists (String c pre). rewrite append_cons. by rewrite <- IH.
    + by exists "".
Qed.

(** Joining the dotted pieces of a split gives the string back. *)
Lemma join_cons h t : join (h :: t) = h +:+ join t.
Proof.
  unfold join. destruct t as [|h' t]; simpl; [by rewrite append_nil_r|].
  reflexivity.
Qed.

Lemma join_split_dots s :
  join (map (String.append ".") (split_dots s)) = String dot s.
Proof.
  induction s as [|c s IH]; [done|]. simpl.
  destruct (Ascii.eqb_spec c dot) as [->|Hc].
  - rewrite map_cons, join_cons, IH. reflexivity.
  - destruct (split_dots s) as [|h t] eqn:E.
    + simpl in IH. discriminate IH.
    + rewrite map_cons, join_cons in *.
      change ("." +:+ String c h) with (String dot (String c h)).
      change ("." +:+ h) with (String dot h) in IH.
      rewrite !append_cons in *. injection IH as IH. by rewrite IH.
Qed.

End StrFacts.

Module PathlibFacts.

Import Pathlib.

Lemma joined_suffixes name :
  Str.join (suffixes name) =
  if Str.endswith name "." then ""
  else Str.from_first_dot (Str.lstrip_dots name).
Proof.
  unfold suffixes. destruct (Str.endswith name "."); [done|].
  generalize (Str.lstrip_dots name) as s.
  induction s as [|c s IH]; [done|]. simpl.
  destruct (Ascii.eqb_spec c Str.dot) as [->|Hc].
  - simpl. apply StrFacts.join_split_dots.
  - destruct (Str.split_dots s) as [|h t]; [done|]. apply IH.
Qed.

End PathlibFacts.

Section Naming.

Import Str StrFacts.

Lemma stem_suffixes_split file_name :
  file_name =
  get_filename_without_extensions file_name +:+ get_filename_suffixes file_name.
Proof.
  assert (∃ pre, file_name = pre +:+ get_filename_suffixes file_name)
    as [pre Hpre].
  { unfold get_filename_suffixes. rewrite PathlibFacts.joined_suffixes.
    destruct (endswith file_name ".").
    - exists file_name. by rewrite append_nil_r.
    - destruct (lstrip_dots_suffix file_name) as [p1 H1].
      destruct (from_first_dot_suffix (lstrip_dots file_name)) as [p2 H2].
      exists (p1 +:+ p2). rewrite append_assoc, <- H2. exact H1. }
  unfold get_filename_without_extensions.
  rewrite Hpre at 2. rewrite removesuffix_app. exact Hpre.
Qed.

Lemma suffixes_dotted file_name : dotted (get_filename_suffixes file_name) = true.
Proof.
  unfold get_filename_suffixes. rewrite PathlibFacts.joined_suffixes.
  destruct (endswith file_name "."); [done|]. apply from_first_dot_dotted.
Qed.

Lemma endswith_nodot_head h t :
  nodot h = true → endswith (h +:+ t) "." = endswith t ".".
Proof.
  intros Hh. induction h as [|c h IH]; [done|].
  simpl in Hh. apply andb_true_iff in Hh as [Hc Hh].
  rewrite append_cons, endswith_unfold, IH by done.
  destruct (String.eqb_spec (String c (h +:+ t)) ".") as [E|]; [|done].
  injection E as -> _. done.
Qed.

Lemma from_first_dot_nodot_head h t :
  nodot h = true → from_first_dot (h +:+ t) = from_first_dot t.
Proof.
  intros Hh. induction h as [|c h IH]; [done|].
  simpl in Hh. apply andb_true_iff in Hh as [Hc Hh].
  rewrite append_cons. simpl.
  destruct (Ascii.eqb c dot); [done|]. by apply IH.
Qed.

(** Behind a dot-free, non-empty head the suffixes depend on the tail
    only. *)
Lemma suffixes_nodot_head h t :
  nodot h = true → h ≠ "" →
  get_filename_suffixes (h +:+ t) = suffixes_of_tail t.
Proof.
  intros Hh Hne. unfold get_filename_suffixes, suffixes_of_tail.
  rewrite PathlibFacts.joined_suffixes, endswith_nodot_head by done.
  destruct (endswith t "."); [done|].
  destruct h as [|c h]; [done|].
  pose proof Hh as Hh'. simpl in Hh'. apply andb_true_iff in Hh' as [Hc _].
  rewrite append_cons. cbn [lstrip_dots].
  destruct (Ascii.eqb c dot); [done|].
  rewrite <- append_cons. by apply from_first_dot_nodot_head.
Qed.

Lemma slot_suffix_nodot s : nodot (slot_suffix s) = true.
Proof. by destruct s. Qed.

Lemma partition_names_nodot token :
  token ∈ get_partition_names_with_alias → nodot token = true ∧ token ≠ "".
Proof.
  intros H.
  assert (Forall (λ t, nodot t = true ∧ t ≠ "") get_partition_names_with_alias)
    as HF by (repeat constructor; done).
  by eapply Forall_forall in HF.
Qed.

Lemma slotted_head_nodot token s :
  token ∈ get_partition_names_with_alias →
  nodot (token +:+ slot_suffix s) = true ∧ token +:+ slot_suffix s ≠ "".
Proof.
  intros [Hn Hne]%partition_names_nodot. split.
  - by rewrite nodot_app, Hn, slot_suffix_nodot.
  - destruct token; [done|]. by rewrite append_cons.
Qed.

Lemma slotted_name_head token s suffixes :
  slotted_name token s suffixes = (token +:+ slot_suffix s) +:+ suffixes.
Proof. unfold slotted_name. by rewrite append_assoc. Qed.

End Naming.

Section Slots.

Import Str StrFacts.

Lemma heads_distinct_true : heads_distinct = true.
Proof. vm_compute. reflexivity. Qed.

Lemma slot_in_all s : In s all_slots.
Proof. destruct s; simpl; tauto. Qed.

Lemma slotted_head_inj t1 s1 t2 s2 :
  t1 ∈ get_partition_names_with_alias →
  t2 ∈ get_partition_names_with_alias →
  t1 +:+ slot_suffix s1 = t2 +:+ slot_suffix s2 → t1 = t2 ∧ s1 = s2.
Proof.
  intros H1%list_elem_of_In H2%list_elem_of_In E.
  pose proof heads_distinct_true as H. unfold heads_distinct in H.
  rewrite forallb_forall in H. specialize (H _ H1).
  rewrite forallb_forall in H. specialize (H _ H2).
  rewrite forallb_forall in H. specialize (H _ (slot_in_all s1)).
  rewrite forallb_forall in H. specialize (H _ (slot_in_all s2)).
  rewrite E, String.eqb_refl in H. simpl in H.
  apply andb_true_iff in H as [Ht Hs].
  apply String.eqb_eq in Ht. apply bool_decide_eq_true in Hs. done.
Qed.

(** Names built from known tokens are equal only when token, slot and
    suffixes are. *)
Lemma slotted_name_inj t1 s1 x1 t2 s2 x2 :
  t1 ∈ get_partition_names_with_alias →
  t2 ∈ get_partition_names_with_alias →
  dotted x1 = true → dotted x2 = true →
  slotted_name t1 s1 x1 = slotted_name t2 s2 x2 →
  t1 = t2 ∧ s1 = s2 ∧ x1 = x2.
Proof.
  intros H1 H2 D1 D2 E. rewrite !slotted_name_head in E.
  destruct (slotted_head_nodot t1 s1 H1) as [N1 _].
  destruct (slotted_head_nodot t2 s2 H2) as [N2 _].
  destruct (head_tail_unique _ _ _ _ N1 N2 D1 D2 E) as [Eh Et].
  destruct (slotted_head_inj _ _ _ _ H1 H2 Eh) as [-> ->]. done.
Qed.

Lemma endswith_slot pre s :
  s ≠ Unslotted →
  Str.removesuffix (pre +:+ slot_suffix s) (Str.take_last 2 (pre +:+ slot_suffix s))
  = pre.
Proof.
  intros Hs.
  assert (String.length (slot_suffix s) = 2) as Hl by by destruct s.
  rewrite <- Hl at 1. rewrite take_last_app. apply removesuffix_app.
Qed.

Lemma stem_slot file_stem :
  (negb (endswith file_stem "_a") && negb (endswith file_stem "_b")) = false →
  ∃ s, s ≠ Unslotted ∧
       file_stem =
       Str.removesuffix file_stem (Str.take_last 2 file_stem) +:+ slot_suffix s.
Proof.
  intros H. apply andb_false_iff in H as [H|H];
    apply negb_false_iff, endswith_spec in H as [pre ->].
  - exists SlotA. split; [done|].
    change "_a" with (slot_suffix SlotA). by rewrite endswith_slot.
  - exists SlotB. split; [done|].
    change "_b" with (slot_suffix SlotB). by rewrite endswith_slot.
Qed.

(** What a successful [classify] says about the name. *)
Lemma classify_sound file_name token suffixes :
  classify file_name = Some (token, suffixes) →
  token ∈ get_partition_names_with_alias ∧
  suffixes = get_filename_suffixes file_name ∧
  dotted suffixes = true ∧
  suffixes_of_tail suffixes = suffixes ∧
  ∃ s, s ≠ Unslotted ∧ file_name = slotted_name token s suffixes.
Proof.
  unfold classify. intros H.
  destruct (negb _ && negb _) eqn:Hends; [done|].
  case_bool_decide as Hin; [|done]. injection H as <- <-.
  destruct (stem_slot _ Hends) as (s & Hs & Hstem).
  set (u := Str.removesuffix _ _) in *.
  assert (file_name = slotted_name u s (get_filename_suffixes file_name)) as E.
  { rewrite slotted_name_head, <- Hstem. apply stem_suffixes_split. }
  split_and!; [done|done|apply suffixes_dotted| |by exists s].
  destruct (slotted_head_nodot u s Hin) as [Hn Hne].
  rewrite E at 2. rewrite slotted_name_head.
  by rewrite suffixes_nodot_head.
Qed.

(** Reading back a name built from a known token. *)
Lemma suffixes_slotted_name token s suffixes :
  token ∈ get_partition_names_with_alias →
  suffixes_of_tail suffixes = suffixes →
  get_filename_suffixes (slotted_name token s suffixes) = suffixes.
Proof.
  intros Hin Hx. destruct (slotted_head_nodot token s Hin) as [Hn Hne].
  by rewrite slotted_name_head, suffixes_nodot_head.
Qed.

Lemma stem_slotted_name token s suffixes :
  token ∈ get_partition_names_with_alias →
  suffixes_of_tail suffixes = suffixes →
  get_filename_without_extensions (slotted_name token s suffixes)
  = token +:+ slot_suffix s.
Proof.
  intros Hin Hx. unfold get_filename_without_extensions.
  rewrite suffixes_slotted_name by done.
  rewrite slotted_name_head. apply removesuffix_app.
Qed.

(** No known token ends with a slot suffix: checked on the table. *)
Lemma partition_names_unslotted token :
  token ∈ get_partition_names_with_alias →
  (negb (endswith token "_a") && negb (endswith token "_b")) = true.
Proof.
  intros H.
  assert (Forall (λ t, (negb (endswith t "_a") && negb (endswith t "_b")) = true)
            get_partition_names_with_alias) as HF
    by (apply Forall_forall; intros t Ht%list_elem_of_In;
        revert t Ht; apply forallb_forall; vm_compute; reflexivity).
  by eapply Forall_forall in HF.
Qed.

Lemma token_of_slotted_name token s suffixes :
  token ∈ get_partition_names_with_alias →
  suffixes_of_tail suffixes = suffixes →
  token_of (slotted_name token s suffixes) = token.
Proof.
  intros Hin Hx. unfold token_of. rewrite stem_slotted_name by done.
  destruct (decide (s = Unslotted)) as [->|Hs].
  - simpl. rewrite append_nil_r, partition_names_unslotted by done. done.
  - assert ((negb (endswith (token +:+ slot_suffix s) "_a")
             && negb (endswith (token +:+ slot_suffix s) "_b")) = false) as ->.
    { destruct s; [done| |]; apply andb_false_iff; [left|right];
        apply negb_false_iff, endswith_spec; by eexists. }
    by apply endswith_slot.
Qed.

Lemma classify_slotted_name token s suffixes :
  token ∈ get_partition_names_with_alias →
  suffixes_of_tail suffixes = suffixes →
  classify (slotted_name token s suffixes) =
  if decide (s = Unslotted) then None else Some (token, suffixes).
Proof.
  intros Hin Hx. unfold classify.
  rewrite stem_slotted_name, suffixes_slotted_name by done.
  destruct (decide (s = Unslotted)) as [->|Hs].
  - simpl. rewrite append_nil_r, partition_names_unslotted by done. done.
  - assert ((negb (endswith (token +:+ slot_suffix s) "_a")
             && negb (endswith (token +:+ slot_suffix s) "_b")) = false) as ->.
    { destruct s; [done| |]; apply andb_false_iff; [left|right];
        apply negb_false_iff, endswith_spec; by eexists. }
    rewrite endswith_slot by done. by rewrite bool_decide_eq_true_2.
Qed.

Lemma classify_token_of file_name token suffixes :
  classify file_name = Some (token, suffixes) → token_of file_name = token.
Proof.
  unfold classify, token_of.
  destruct (negb _ && negb _); [done|].
  case_bool_decide; [|done]. by intros [= <- _].
Qed.

End Slots.

(** ** What the primitives do *)

Section Primitives.

Lemma parent_child (d : path) (n : string) : Pathlib.parent (d </> n) = d.
Proof. unfold Pathlib.parent. apply removelast_last. Qed.

Lemma name_child (d : path) (n : string) : Pathlib.name (d </> n) = n.
Proof. unfold Pathlib.name. apply last_last. Qed.

Lemma child_inj (d : path) (n1 n2 : string) : d </> n1 = d </> n2 → n1 = n2.
Proof. intros H. apply app_inv_head in H. by injection H. Qed.

Lemma child_ne_self (d : path) (n : string) : d </> n ≠ d.
Proof.
  intros H. apply (f_equal length) in H. rewrite length_app in H.
  simpl in H. lia.
Qed.

Lemma grandchild_ne_self (d : path) (n1 n2 : string) : d </> n1 </> n2 ≠ d.
Proof.
  intros H. apply (f_equal length) in H. rewrite !length_app in H.
  simpl in H. lia.
Qed.

Lemma grandchild_ne_child (d : path) (n1 n2 n3 : string) :
  d </> n1 </> n2 ≠ d </> n3.
Proof.
  intros H. apply (f_equal length) in H. rewrite !length_app in H.
  simpl in H. lia.
Qed.

Lemma is_file_lookup (m : filesystem) p :
  FS.is_file m p = true ↔ ∃ c, m !! p = Some (File c).
Proof.
  unfold FS.is_file. destruct (m !! p) as [[c|]|]; split;
    try done; try (intros [? ?]; done). by exists c.
Qed.

Lemma is_dir_lookup (m : filesystem) p :
  FS.is_dir m p = true ↔ m !! p = Some Dir.
Proof. unfold FS.is_dir. by destruct (m !! p) as [[c|]|]. Qed.

Lemma unlink_file p c w :
  files w !! p = Some (File c) →
  FS.unlink p w = (Ret tt, after w [Unlink p] (delete p (files w))).
Proof.
  intros H. unfold FS.unlink, bind, emit, get_files, update. simpl.
  by rewrite H.
Qed.

Lemma move_file src d n c w :
  files w !! src = Some (File c) →
  FS.is_dir (files w) d = true →
  FS.is_file (files w) (d </> n) = false →
  ∃ r m', FS.move src (d </> n) w = (r, after w [Move src (d </> n)] m') ∧
          move_file_outcome (files w) src (d </> n) c r m'.
Proof.
  intros Hsrc Hd Hdst.
  unfold FS.move, bind, emit, get_files. simpl.
  unfold FS.is_file in Hdst. unfold FS.is_dir at 1.
  destruct (files w !! (d </> n)) as [[c'|]|] eqn:En; [done| |].
  - rewrite bool_decide_eq_false_2 by (intros ->; congruence).
    unfold FS.exists_.
    destruct (files w !! (d </> n </> Pathlib.name src)) as [x|] eqn:Ec.
    + eexists _, _. split; [reflexivity|]. by apply move_taken.
    + unfold FS.rename, bind, get_files, update. simpl. rewrite Hsrc.
      unfold FS.parent_ok. rewrite parent_child.
      unfold FS.is_dir. rewrite En.
      eexists _, _. split; [reflexivity|]. by apply move_into.
  - unfold FS.rename, bind, get_files, update. simpl. rewrite Hsrc.
    unfold FS.parent_ok. rewrite parent_child, Hd.
    eexists _, _. split; [reflexivity|]. by apply move_onto.
Qed.

End Primitives.

(** ** One turn of the slot-resolution loop *)

Section SlotEntry.

Variable d : path.

Abbreviation at_ token s suffixes := (d </> slotted_name token s suffixes).

Ltac same_trace := simpl; rewrite <- ?app_assoc; reflexivity.

Lemma correct_ab_filenames_entry_outcome x w :
  FS.is_dir (files w) d = true →
  ∃ r w', correct_ab_filenames_entry get_partition_names_with_alias d x w = (r, w')
          ∧ entry_outcome d x w r w'.
Proof.
  intros Hd. unfold correct_ab_filenames_entry.
  unfold bind at 1. unfold FS.path_is_file at 1, bind at 1, get_files, ret.
  destruct (FS.is_file (files w) (d </> x)) eqn:Hx; simpl.
  2:{ eexists _, _. split; [reflexivity|].
      eapply (entry_skip _ _ _ _ [_]); [by left|done|same_trace|done]. }
  unfold bind at 1, emit at 1. simpl.
  destruct (classify x) as [[token suffixes]|] eqn:Hc; unfold classify in Hc.
  2:{ destruct (negb _ && negb _) eqn:Hends.
      - eexists _, _. split; [reflexivity|].
        eapply (entry_skip _ _ _ _ [_; _]); [right|done|same_trace|done].
        unfold classify. by rewrite Hends.
      - case_bool_decide as Hin; [done|]. simpl.
        eexists _, _. split; [reflexivity|].
        eapply (entry_skip _ _ _ _ [_; _]); [right|done|same_trace|done].
        unfold classify. rewrite Hends. by rewrite bool_decide_eq_false_2. }
  destruct (negb _ && negb _) eqn:Hends; [done|].
  case_bool_decide as Hin; [|done]. injection Hc as Ht Hs. simpl.
  rewrite Ht, Hs.
  assert (classify x = Some (token, suffixes)) as Hc.
  { unfold classify. rewrite Hends, Ht, Hs.
    rewrite bool_decide_eq_true_2; [done|]. by rewrite <- Ht. }
  destruct (classify_sound _ _ _ Hc) as (_ & _ & _ & _ & s & Hs0 & Hname).
  change (d </> (token +:+ suffixes)) with (at_ token Unslotted suffixes).
  change (d </> (token +:+ "_a" +:+ suffixes)) with (at_ token SlotA suffixes).
  change (d </> (token +:+ "_b" +:+ suffixes)) with (at_ token SlotB suffixes).
  unfold bind at 1. unfold FS.path_is_file at 1, bind at 1, get_files, ret. simpl.
  destruct (FS.is_file (files w) (at_ token Unslotted suffixes)) eqn:HN.
  { unfold bind, emit. simpl.
    pose proof Hx as Hx'. apply is_file_lookup in Hx' as [c Hx'].
    rewrite (unlink_file _ c) by done.
    eexists _, _. split; [reflexivity|].
    eapply (entry_redundant _ _ _ _ token suffixes [_; _]);
      [done|done|done|done|same_trace|done]. }
  unfold bind at 1. unfold FS.path_is_file at 1, bind at 1, get_files, ret. simpl.
  destruct (FS.is_file (files w) (at_ token SlotA suffixes)) eqn:HA.
  { apply is_file_lookup in HA as [c HA].
    destruct (move_file (at_ token SlotA suffixes) d
                (slotted_name token Unslotted suffixes) c
                (after w [LOGI ("correct_ab_filenames: file: "
                    +:+ Pathlib.render (d </> x) +:+ ", file_stem: "
                    +:+ get_filename_without_extensions x)] (files w)))
      as (r & m' & Hmv & Hout); try done.
    unfold after in Hmv at 1. simpl in Hmv. rewrite Hmv.
    eexists _, _. split; [reflexivity|].
    eapply (entry_promote _ _ _ _ token suffixes SlotA c [_]);
      [done|done|done|done|done|done|exact Hout|same_trace|done]. }
  unfold bind at 1. unfold FS.path_is_file at 1, bind at 1, get_files, ret. simpl.
  destruct (FS.is_file (files w) (at_ token SlotB suffixes)) eqn:HB.
  { apply is_file_lookup in HB as [c HB].
    destruct (move_file (at_ token SlotB suffixes) d
                (slotted_name token Unslotted suffixes) c
                (after w [LOGI ("correct_ab_filenames: file: "
                    +:+ Pathlib.render (d </> x) +:+ ", file_stem: "
                    +:+ get_filename_without_extensions x)] (files w)))
      as (r & m' & Hmv & Hout); try done.
    unfold after in Hmv at 1. simpl in Hmv. rewrite Hmv.
    eexists _, _. split; [reflexivity|].
    eapply (entry_promote _ _ _ _ token suffixes SlotB c [_]);
      [done|done|done|done|done|done|exact Hout|same_trace|done]. }
  exfalso. destruct s; [done| |]; rewrite <- Hname in *; congruence.
Qed.

End SlotEntry.

(** ** The slot-resolution loop *)

Lemma listing_check_sound m d entries :
  listing_check m d entries = true → listing m d entries.
Proof.
  unfold listing_check. intros [[H1 H2]%andb_true_iff H3]%andb_true_iff.
  apply bool_decide_eq_true in H1. rewrite forallb_forall in H2, H3.
  split; [done|]. intros n. split.
  - intros Hn%list_elem_of_In. specialize (H2 _ Hn). unfold FS.exists_ in H2.
    by destruct (m !! (d </> n)).
  - intros [v Hv]. apply elem_of_map_to_list in Hv.
    assert (In (d </> n) (map fst (map_to_list m))) as Hin.
    { apply in_map_iff. exists (d </> n, v). split; [done|].
      by apply list_elem_of_In. }
    specialize (H3 _ Hin).
    rewrite bool_decide_eq_true_2 in H3.
    + simpl in H3. apply bool_decide_eq_true in H3.
      by rewrite name_child in H3.
    + split; [by destruct d|apply parent_child].
Qed.

Section SlotLoop.

Variable d : path.

Abbreviation at_ token s suffixes := (d </> slotted_name token s suffixes).
Abbreviation turn := (correct_ab_filenames_entry get_partition_names_with_alias d).

Lemma entry_outcome_keeps_dir x w r w' :
  FS.is_dir (files w) d = true → entry_outcome d x w r w' →
  FS.is_dir (files w') d = true.
Proof.
  intros Hd H. apply is_dir_lookup. apply is_dir_lookup in Hd.
  destruct H as [w' logs _ Hf _ _|w' token suffixes logs _ _ _ Hf _ _
                |w' token suffixes s c logs r _ _ _ _ _ _ Hmv _ _].
  - by rewrite Hf.
  - rewrite Hf, lookup_delete_ne; [done|apply child_ne_self].
  - inversion Hmv as [Hn Hr Hm|Hn Hc Hr Hm|Hn Hc Hr Hm].
    + rewrite lookup_insert_ne, lookup_delete_ne;
        [done|apply child_ne_self..].
    + rewrite lookup_insert_ne, lookup_delete_ne;
        [done|apply child_ne_self|apply grandchild_ne_self].
    + done.
Qed.

(** Loop invariants: [I] holds of the entries still to visit and of the
    world, [J] of the world an exception leaves. *)
Lemma slot_loop_invariant (I : list string → world → Prop) (J : world → Prop)
    entries w r w' :
  (∀ x todo w1 r1 w2,
      FS.is_dir (files w1) d = true → I (x :: todo) w1 →
      entry_outcome d x w1 r1 w2 →
      match r1 with Ret _ => I todo w2 | Raise _ => J w2 end) →
  FS.is_dir (files w) d = true →
  I entries w →
  for_each entries turn w = (r, w') →
  match r with Ret _ => I [] w' | Raise _ => J w' end.
Proof.
  intros Hstep. revert w. induction entries as [|x todo IH]; intros w Hd HI Hrun.
  - injection Hrun as <- <-. done.
  - simpl in Hrun. unfold bind in Hrun.
    destruct (correct_ab_filenames_entry_outcome d x w Hd) as (r1 & w1 & E & Hout).
    rewrite E in Hrun. pose proof (Hstep _ _ _ _ _ Hd HI Hout) as H1.
    destruct r1 as [[]|e].
    + eapply IH; [|done|done]. by eapply entry_outcome_keeps_dir.
    + injection Hrun as <- <-. done.
Qed.

Lemma correct_ab_filenames_loop entries w :
  FS.is_dir (files w) d = true →
  correct_ab_filenames entries d w = for_each entries turn w.
Proof.
  intros Hd. unfold correct_ab_filenames, bind, get_files. by rewrite Hd.
Qed.

Lemma correct_ab_filenames_needs_dir entries w r w' :
  correct_ab_filenames entries d w = (r, w') → r = Ret tt →
  FS.is_dir (files w) d = true.
Proof.
  unfold correct_ab_filenames, bind, get_files.
  destruct (FS.is_dir (files w) d); [done|]. simpl.
  by intros [= <- _] ?.
Qed.

End SlotLoop.

Section SlotTurn.

Variable d : path.

Abbreviation at_ token s suffixes := (d </> slotted_name token s suffixes).

(** A turn changes nothing outside the three names of its token. *)
Lemma entry_outcome_frame x w r w' (q : path) :
  entry_outcome d x w r w' →
  (∀ token suffixes s,
      classify x = Some (token, suffixes) →
      ¬ at_ token s suffixes `prefix_of` q) →
  files w' !! q = files w !! q.
Proof.
  intros H Hq.
  destruct H as [w' logs _ Hf _ _|w' token suffixes logs _ Hc _ Hf _ _
                |w' token suffixes s c logs r _ Hc _ _ _ _ Hmv _ _].
  - by rewrite Hf.
  - rewrite Hf. apply lookup_delete_ne. intros <-.
    destruct (classify_sound _ _ _ Hc) as (_ & _ & _ & _ & s & _ & Hx).
    apply (Hq _ _ s Hc). by rewrite <- Hx.
  - inversion Hmv as [Hn Hr Hm|Hn Hn' Hr Hm|Hn Hn' Hr Hm]; [| |done].
    + rewrite lookup_insert_ne, lookup_delete_ne; [done|..];
        intros <-; by eapply Hq.
    + rewrite lookup_insert_ne, lookup_delete_ne; [done|..].
      * intros <-. by eapply Hq.
      * intros <-. eapply (Hq _ _ Unslotted Hc). by eexists.
Qed.

Lemma forallb_is_log logs P :
  forallb is_log logs = true → (∀ ev, is_log ev = true → P ev) → Forall P logs.
Proof.
  intros H HP. apply Forall_forall. intros ev Hev%list_elem_of_In.
  apply HP. rewrite forallb_forall in H. by apply H.
Qed.

Lemma entry_outcome_events x w r w' :
  entry_outcome d x w r w' →
  ∃ evs, trace w' = trace w ++ evs ∧ Forall (entry_event d x w) evs.
Proof.
  intros H.
  destruct H as [w' logs _ _ Ht Hl|w' token suffixes logs _ Hc _ _ Ht Hl
                |w' token suffixes s c logs r _ Hc HN Hs _ _ _ Ht Hl].
  - exists logs. split; [done|].
    apply (forallb_is_log _ _ Hl). by left.
  - eexists. split; [done|]. apply Forall_app. split.
    + apply (forallb_is_log _ _ Hl). by left.
    + apply Forall_singleton. right.
      destruct (classify_sound _ _ _ Hc) as (_ & _ & _ & _ & s & Hs & Hx).
      exists token, suffixes, s. split_and!; [done..|]. left. by rewrite Hx.
  - eexists. split; [done|]. apply Forall_app. split.
    + apply (forallb_is_log _ _ Hl). by left.
    + apply Forall_singleton. right.
      exists token, suffixes, s. split_and!; [done..|]. by right.
Qed.

(** A turn with nothing to resolve only logs. *)
Lemma entry_outcome_idle x w r w' :
  entry_outcome d x w r w' →
  FS.is_file (files w) (d </> x) = false ∨ classify x = None →
  r = Ret tt ∧ files w' = files w ∧
  ∃ logs, trace w' = trace w ++ logs ∧ forallb is_log logs = true.
Proof.
  intros H Hidle.
  destruct H as [w' logs _ Hf Ht Hl|w' token suffixes logs Hx Hc _ _ _ _
                |w' token suffixes s c logs r Hx Hc _ _ _ _ _ _ _].
  - split_and!; [done..|]. by exists logs.
  - destruct Hidle; congruence.
  - destruct Hidle; congruence.
Qed.

End SlotTurn.

(** Facts on the table used below. *)
Lemma system_known : "system" ∈ get_partition_names_with_alias.
Proof. apply (bool_decide_unpack _). vm_compute. exact I. Qed.

Lemma img_suffixes : suffixes_of_tail ".img" = ".img" ∧ Str.dotted ".img" = true.
Proof. done. Qed.

Section SlotFacts.

Variable d : path.

Abbreviation at_ token s suffixes := (d </> slotted_name token s suffixes).

Lemma at_inj t1 s1 x1 t2 s2 x2 :
  t1 ∈ get_partition_names_with_alias →
  t2 ∈ get_partition_names_with_alias →
  Str.dotted x1 = true → Str.dotted x2 = true →
  at_ t1 s1 x1 = at_ t2 s2 x2 → t1 = t2 ∧ s1 = s2 ∧ x1 = x2.
Proof. intros ???? E%child_inj. by apply slotted_name_inj. Qed.

(** The slot files of a classified entry, compared with those of a
    known token. *)
Lemma classified_at_inj x token suffixes s t2 s2 x2 :
  classify x = Some (token, suffixes) →
  t2 ∈ get_partition_names_with_alias → Str.dotted x2 = true →
  at_ token s suffixes = at_ t2 s2 x2 →
  token = t2 ∧ s = s2 ∧ suffixes = x2.
Proof.
  intros Hc H2 D2 E.
  destruct (classify_sound _ _ _ Hc) as (H1 & _ & D1 & _).
  by apply at_inj.
Qed.

Lemma classified_name x token suffixes :
  classify x = Some (token, suffixes) →
  ∃ s, s ≠ Unslotted ∧ d </> x = at_ token s suffixes.
Proof.
  intros Hc.
  destruct (classify_sound _ _ _ Hc) as (_ & _ & _ & _ & s & Hs & Hx).
  exists s. split; [done|]. by rewrite <- Hx.
Qed.

End SlotFacts.

(** ** C6: a redundant slot file next to the unslotted file *)

Section RedundantSlot.

Variable d : path.

Let sys : path := d </> "system.img".
Let sysb : path := d </> "system_b.img".

Local Lemma sys_at : sys = d </> slotted_name "system" Unslotted ".img".
Proof. reflexivity. Qed.

Local Lemma sysb_at : sysb = d </> slotted_name "system" SlotB ".img".
Proof. reflexivity. Qed.

Local Lemma sysb_classified : classify "system_b.img" = Some ("system", ".img").
Proof. vm_compute. reflexivity. Qed.

Local Lemma sys_not_named x w c ev :
  files w !! sys = Some (File c) →
  entry_event d x w ev → sys ∉ event_paths ev.
Proof.
  intros Hsys [Hlog|(token & suffixes & s & Hc & Hs & Hev)].
  - destruct ev; try done; simpl; apply not_elem_of_nil.
  - assert (sys ≠ d </> slotted_name token s suffixes) as Hne.
    { rewrite sys_at. intros E. symmetry in E.
      apply (classified_at_inj d _ _ _ _ _ _ _ Hc system_known) in E
        as (_ & -> & _); done. }
    destruct Hev as [->|[-> HN]]; simpl.
    + by intros ->%list_elem_of_singleton.
    + intros [->| ->%list_elem_of_singleton]%elem_of_cons; [done|].
      unfold FS.is_file in HN. by rewrite Hsys in HN.
Qed.

(** C6.  If [system.img] and [system_b.img] both exist in the staging
    directory when [correct_ab_filenames] runs on a listing of it and
    completes, then [system_b.img] has been deleted and [system.img]
    holds the content it had: no deletion or move names it. *)
Theorem redundant_slot_deleted_unslotted_kept
    (entries : list string) (w w' : world) (c : string) :
  listing (files w) d entries →
  files w !! (d </> "system.img") = Some (File c) →
  FS.is_file (files w) (d </> "system_b.img") = true →
  correct_ab_filenames entries d w = (Ret tt, w') →
  files w' !! (d </> "system_b.img") = None ∧
  files w' !! (d </> "system.img") = Some (File c) ∧
  ∃ evs, trace w' = trace w ++ evs ∧
         Unlink (d </> "system_b.img") ∈ evs ∧
         ∀ ev, ev ∈ evs → d </> "system.img" ∉ event_paths ev.
Proof.
  intros [_ Hlist] Hsys Hsysb Hrun.
  pose proof (correct_ab_filenames_needs_dir _ _ _ _ _ Hrun eq_refl) as Hd.
  rewrite correct_ab_filenames_loop in Hrun by done.
  set (I := λ (todo : list string) (w1 : world),
         ∃ evs, trace w1 = trace w ++ evs ∧
                files w1 !! sys = Some (File c) ∧
                Forall (λ ev, sys ∉ event_paths ev) evs ∧
                ((files w1 !! sysb = None ∧ Unlink sysb ∈ evs) ∨
                 (FS.is_file (files w1) sysb = true ∧ "system_b.img" ∈ todo))).
  assert (I [] w') as (evs & Ht & Hs' & Hev & [[Hb Hu]|[_ Hin]]).
  { apply (slot_loop_invariant d I (λ _, True) entries w (Ret tt) w');
      [|done| |done].
    2:{ exists []. rewrite app_nil_r. split_and!; [done..|].
        right. split; [done|]. apply Hlist.
        apply (proj1 (is_file_lookup _ _)) in Hsysb as [c' Hc']. by eexists. }
    clear Hrun Hd w'. intros x todo w1 r1 w2 Hd (evs & Ht & Hs1 & Hev & Hb) Hout.
    destruct r1 as [[]|e]; [|done].
    destruct (entry_outcome_events d _ _ _ _ Hout) as (evs1 & Ht1 & Hev1).
    exists (evs ++ evs1).
    assert (Forall (λ ev, sys ∉ event_paths ev) (evs ++ evs1)) as Hall.
    { apply Forall_app. split; [done|].
      eapply Forall_impl; [exact Hev1|]. intros ev. by apply (sys_not_named x w1 c). }
    rewrite Ht1, Ht, <- app_assoc. split; [done|].
    destruct Hout as [w2 logs Hidle Hf _ _|w2 token suffixes logs Hx Hc HN Hf Ht2 _
                     |w2 token suffixes s c0 logs r Hx Hc HN Hs Hsrc _ Hmv _ _].
    - (* nothing to resolve *)
      rewrite Hf. split_and!; [done..|].
      destruct Hb as [[Hb Hu]|[Hb Hin]].
      + left. split; [done|]. apply elem_of_app. by left.
      + right. split; [done|]. apply elem_of_cons in Hin as [<-|]; [|done].
        destruct Hidle as [Hnf|Hnc]; [|by rewrite sysb_classified in Hnc].
        unfold sysb in Hb. congruence.
    - (* the entry is redundant and is removed *)
      rewrite Hf.
      assert (d </> x ≠ sys) as Hne.
      { intros [= E%child_inj]. by rewrite E in Hc. }
      rewrite lookup_delete_ne by done. split_and!; [done..|].
      destruct (decide (x = "system_b.img")) as [->|Hxb].
      + left. split; [apply lookup_delete_eq|].
        assert (evs1 = logs ++ [Unlink (d </> "system_b.img")]) as ->
            by (apply (app_inv_head (trace w1)); congruence).
        rewrite !elem_of_app, list_elem_of_singleton. auto.
      + assert (d </> x ≠ sysb) as Hneb by (intros E%child_inj; done).
        destruct Hb as [[Hb Hu]|[Hb Hin]].
        * left. rewrite lookup_delete_ne by done.
          split; [done|]. apply elem_of_app. by left.
        * right. unfold FS.is_file in *. rewrite lookup_delete_ne by done.
          split; [done|]. by apply elem_of_cons in Hin as [?|].
    - (* a slot file of another token is promoted *)
      assert (d </> slotted_name token Unslotted suffixes ≠ sys) as HneN.
      { intros E. rewrite E in HN. unfold FS.is_file in HN.
        by rewrite Hs1 in HN. }
      assert (∀ s', d </> slotted_name token s' suffixes ≠ sysb) as Hneb.
      { intros s' E. rewrite sysb_at in E.
        apply (classified_at_inj d _ _ _ _ _ _ _ Hc system_known) in E
          as (-> & _ & ->); done. }
      assert (d </> slotted_name token s suffixes ≠ sys) as Hnes.
      { intros E. rewrite sys_at in E.
        apply (classified_at_inj d _ _ _ _ _ _ _ Hc system_known) in E
          as (_ & -> & _); done. }
      assert (x ≠ "system_b.img") as Hxb.
      { intros ->. destruct (classified_name d _ _ _ Hc) as (s' & _ & E).
        by apply (Hneb s'). }
      assert (files w2 !! sys = files w1 !! sys ∧ files w2 !! sysb = files w1 !! sysb)
        as [Es Eb].
      { inversion Hmv as [Hn Hr Hm|Hn Hn' Hr Hm|Hn Hn' Hr Hm];
          rewrite ?lookup_insert_ne, ?lookup_delete_ne; try done;
          try (by intros E; eapply grandchild_ne_child). }
      rewrite Es. split_and!; [done..|].
      destruct Hb as [[Hb Hu]|[Hb Hin]].
      + left. rewrite Eb. split; [done|]. apply elem_of_app. by left.
      + right. unfold FS.is_file in *. rewrite Eb.
        split; [done|]. by apply elem_of_cons in Hin as [?|]. }
  - split_and!; [done..|]. exists evs. split_and!; [done..|].
    intros ev Hin. by eapply Forall_forall in Hev.
  - by apply not_elem_of_nil in Hin.
Qed.

End RedundantSlot.

(** ** C3: both slot files present, no unslotted file *)

Section DualSlot.

Variable d : path.

Abbreviation at_ token s suffixes := (d </> slotted_name token s suffixes).

(** The outcome of a turn on a regular file that is classified. *)
Lemma entry_outcome_classified x w r w' token suffixes :
  entry_outcome d x w r w' →
  classify x = Some (token, suffixes) →
  FS.is_file (files w) (d </> x) = true →
  (FS.is_file (files w) (at_ token Unslotted suffixes) = true ∧
   r = Ret tt ∧ files w' = delete (d </> x) (files w))
  ∨ (FS.is_file (files w) (at_ token Unslotted suffixes) = false ∧
     ∃ s c, s ≠ Unslotted ∧
            files w !! at_ token s suffixes = Some (File c) ∧
            (s = SlotB → FS.is_file (files w) (at_ token SlotA suffixes) = false) ∧
            move_file_outcome (files w) (at_ token s suffixes)
              (at_ token Unslotted suffixes) c r (files w')).
Proof.
  intros H Hc Hx.
  destruct H as [w' logs Hidle _ _ _|w' token' suffixes' logs _ Hc' HN Hf _ _
                |w' token' suffixes' s c logs r _ Hc' HN Hs Hsrc HA Hmv _ _].
  - destruct Hidle; congruence.
  - rewrite Hc in Hc'. injection Hc' as <- <-. by left.
  - rewrite Hc in Hc'. injection Hc' as <- <-. right. split; [done|].
    by exists s, c.
Qed.

Variable t : string.
Hypothesis t_known : t ∈ get_partition_names_with_alias.

Abbreviation tn := (t +:+ ".img").
Abbreviation ta := (t +:+ "_a.img").
Abbreviation tb := (t +:+ "_b.img").

Local Lemma tn_at : d </> tn = at_ t Unslotted ".img".
Proof. reflexivity. Qed.
Local Lemma ta_at : d </> ta = at_ t SlotA ".img".
Proof. reflexivity. Qed.
Local Lemma tb_at : d </> tb = at_ t SlotB ".img".
Proof. reflexivity. Qed.

Local Lemma ta_classified : classify ta = Some (t, ".img").
Proof. apply (classify_slotted_name t SlotA ".img"); done. Qed.
Local Lemma tb_classified : classify tb = Some (t, ".img").
Proof. apply (classify_slotted_name t SlotB ".img"); done. Qed.

Local Lemma ta_ne_tb : ta ≠ tb.
Proof.
  intros E. apply (f_equal (λ n, d </> n)) in E. rewrite ta_at, tb_at in E.
  by apply at_inj in E as (_ & ? & _).
Qed.

Local Lemma slots_distinct s1 s2 : s1 ≠ s2 → at_ t s1 ".img" ≠ at_ t s2 ".img".
Proof. intros Hne E. by apply at_inj in E as (_ & ? & _). Qed.

(** A turn on another entry leaves the three names of [t] alone. *)
Local Lemma other_turn_frame x w r w' s :
  x ≠ ta → x ≠ tb → entry_outcome d x w r w' →
  files w' !! at_ t s ".img" = files w !! at_ t s ".img".
Proof.
  intros Ha Hb Hout. apply (entry_outcome_frame d _ _ _ _ _ Hout).
  intros token suffixes s' Hc Hpre.
  assert (at_ token s' suffixes = at_ t s ".img") as E.
  { apply prefix_length_eq; [done|]. by rewrite !length_app. }
  apply (classified_at_inj d _ _ _ _ _ _ _ Hc t_known) in E as (-> & _ & ->);
    [|done].
  destruct (classify_sound _ _ _ Hc) as (_ & _ & _ & _ & s0 & Hs0 & Hx).
  destruct s0; [done| |]; [apply Ha|apply Hb]; exact Hx.
Qed.

Variables (ca cb : string) (keep : bool).

Local Lemma is_file_of (m : filesystem) p c :
  m !! p = Some (File c) → FS.is_file m p = true.
Proof. intros H. unfold FS.is_file. by rewrite H. Qed.

Local Lemma not_file_of (m : filesystem) p :
  m !! p = None → FS.is_file m p = false.
Proof. intros H. unfold FS.is_file. by rewrite H. Qed.

Lemma dual_slot_turn x todo w r w' :
  FS.is_dir (files w) d = true →
  dual_slot_stage d t ca cb keep (x :: todo) w →
  entry_outcome d x w r w' →
  match r with Ret _ => dual_slot_stage d t ca cb keep todo w' | Raise _ => True end.
Proof.
  intros Hd [Hnd Hst] Hout. destruct r as [[]|e]; [|done].
  apply NoDup_cons in Hnd as [Hx Hnd]. split; [done|].
  destruct (decide (x = ta)) as [->|Hxa]; [|destruct (decide (x = tb)) as [->|Hxb]].
  - (* the turn of [_a] *)
    destruct Hst as [(HN & HA & HB & _ & Hb & Hk)|[(HN & HA & Hk & HB)|(HN & HA & Hk & HB & Hb)]].
    + destruct (entry_outcome_classified _ _ _ _ _ _ Hout ta_classified
                  (is_file_of _ _ _ HA)) as [(HN' & _)|(_ & s & c & Hs & Hsrc & HsA & Hmv)].
      { rewrite <- tn_at, (not_file_of _ _ HN) in HN'. done. }
      assert (s = SlotA) as ->.
      { destruct s; [done|done|]. rewrite <- ta_at, (is_file_of _ _ _ HA) in HsA.
        by discriminate HsA. }
      rewrite <- ta_at, HA in Hsrc. injection Hsrc as <-.
      rewrite <- ta_at, <- tn_at in Hmv.
      inversion Hmv as [Hn0 Hr0 Hm|Hn0 Hn1 Hr0 Hm|Hn0 Hn1 Hr0 Hm];
        [|congruence..].
      right. left.
      rewrite lookup_insert_eq, lookup_insert_ne, lookup_delete_eq
        by (rewrite tn_at, ta_at; by apply slots_distinct).
      rewrite lookup_insert_ne, lookup_delete_ne
        by (rewrite ?tn_at, ?ta_at, ?tb_at; by apply slots_distinct).
      split_and!; [done|done| |].
      * simpl in Hk. rewrite String.eqb_refl in Hk.
        destruct (String.eqb_spec ta tb) as [E|_]; [by apply ta_ne_tb in E|done].
      * right. split; [done|].
        apply elem_of_cons in Hb as [E|]; [by apply symmetry, ta_ne_tb in E|done].
    + destruct (entry_outcome_idle _ _ _ _ _ Hout) as (_ & Hf & _);
        [left; by apply not_file_of|].
      rewrite Hf. right. left. split_and!; [done..|].
      destruct HB as [HB|[HB Hb]]; [by left|right]. split; [done|].
      apply elem_of_cons in Hb as [E|]; [by apply symmetry, ta_ne_tb in E|done].
    + destruct (entry_outcome_idle _ _ _ _ _ Hout) as (_ & Hf & _);
        [left; by apply not_file_of|].
      rewrite Hf. right. right. split_and!; [done..|].
      by apply not_elem_of_cons in Hb as [_ ?].
  - (* the turn of [_b] *)
    destruct Hst as [(HN & HA & HB & Ha & _ & Hk)|[(HN & HA & Hk & HB)|(HN & HA & Hk & HB & Hb)]].
    + destruct (entry_outcome_classified _ _ _ _ _ _ Hout tb_classified
                  (is_file_of _ _ _ HB)) as [(HN' & _)|(_ & s & c & Hs & Hsrc & HsA & Hmv)].
      { rewrite <- tn_at, (not_file_of _ _ HN) in HN'. done. }
      assert (s = SlotA) as ->.
      { destruct s; [done|done|]. rewrite <- ta_at, (is_file_of _ _ _ HA) in HsA.
        by discriminate HsA. }
      rewrite <- ta_at, HA in Hsrc. injection Hsrc as <-.
      rewrite <- ta_at, <- tn_at in Hmv.
      inversion Hmv as [Hn0 Hr0 Hm|Hn0 Hn1 Hr0 Hm|Hn0 Hn1 Hr0 Hm];
        [|congruence..].
      right. right.
      rewrite lookup_insert_eq, lookup_insert_ne, lookup_delete_eq
        by (rewrite tn_at, ta_at; by apply slots_distinct).
      rewrite lookup_insert_ne, lookup_delete_ne
        by (rewrite ?tn_at, ?ta_at, ?tb_at; by apply slots_distinct).
      split_and!; [done|done| |done|done].
      simpl in Hk. by rewrite String.eqb_refl in Hk.
    + destruct HB as [HB|[HB Hb]].
      * destruct (entry_outcome_idle _ _ _ _ _ Hout) as (_ & Hf & _);
          [left; by apply not_file_of|].
        rewrite Hf. right. left. split_and!; [done..|]. by left.
      * destruct (entry_outcome_classified _ _ _ _ _ _ Hout tb_classified
                    (is_file_of _ _ _ HB)) as [(_ & _ & Hf)|(HN' & _)].
        2:{ rewrite <- tn_at, (is_file_of _ _ _ HN) in HN'. done. }
        rewrite Hf. right. left.
        rewrite lookup_delete_eq, !lookup_delete_ne
          by (rewrite ?tn_at, ?ta_at, ?tb_at; by apply slots_distinct).
        split_and!; [done..|]. by left.
    + by apply not_elem_of_cons in Hb as [? _].
  - (* the turn of another entry *)
    pose proof (other_turn_frame x w _ w' Unslotted Hxa Hxb Hout) as EN.
    pose proof (other_turn_frame x w _ w' SlotA Hxa Hxb Hout) as EA.
    pose proof (other_turn_frame x w _ w' SlotB Hxa Hxb Hout) as EB.
    rewrite <- tn_at in EN. rewrite <- ta_at in EA. rewrite <- tb_at in EB.
    rewrite EN, EA, EB.
    destruct Hst as [(HN & HA & HB & Ha & Hb & Hk)|[(HN & HA & Hk & HB)|(HN & HA & Hk & HB & Hb)]].
    + left. split_and!; [done..| | |].
      * by apply elem_of_cons in Ha as [?|].
      * by apply elem_of_cons in Hb as [?|].
      * simpl in Hk.
        destruct (String.eqb_spec x tb) as [?|_]; [done|].
        by destruct (String.eqb_spec x ta) as [?|_].
    + right. left. split_and!; [done..|].
      destruct HB as [HB|[HB Hb]]; [by left|right]. split; [done|].
      by apply elem_of_cons in Hb as [?|].
    + right. right. split_and!; [done..|].
      by apply not_elem_of_cons in Hb as [_ ?].
Qed.

End DualSlot.

(** C3 (amended).  For a known token [t] with [t_a.img] and [t_b.img]
    regular files and no [t.img] in the staging directory, a completed
    run of [correct_ab_filenames] on a listing of the directory has
    renamed [t_a.img] to [t.img]; [t_b.img] is left in place when the
    listing yields it before [t_a.img], and is deleted when the listing
    yields [t_a.img] first. *)
Theorem dual_slot_promotes_a
    (d : path) (t : string) (entries : list string) (w w' : world)
    (ca cb : string) :
  t ∈ get_partition_names_with_alias →
  listing (files w) d entries →
  files w !! (d </> (t +:+ "_a.img")) = Some (File ca) →
  files w !! (d </> (t +:+ "_b.img")) = Some (File cb) →
  files w !! (d </> (t +:+ ".img")) = None →
  correct_ab_filenames entries d w = (Ret tt, w') →
  files w' !! (d </> (t +:+ ".img")) = Some (File ca) ∧
  files w' !! (d </> (t +:+ "_a.img")) = None ∧
  files w' !! (d </> (t +:+ "_b.img")) =
    if listed_before (t +:+ "_b.img") (t +:+ "_a.img") entries
    then Some (File cb) else None.
Proof.
  intros Ht [Hnd Hlist] HA HB HN Hrun.
  pose proof (correct_ab_filenames_needs_dir _ _ _ _ _ Hrun eq_refl) as Hd.
  rewrite correct_ab_filenames_loop in Hrun by done.
  set (keep := listed_before (t +:+ "_b.img") (t +:+ "_a.img") entries).
  assert (dual_slot_stage d t ca cb keep [] w') as [_ Hst].
  { apply (slot_loop_invariant d (dual_slot_stage d t ca cb keep) (λ _, True)
             entries w (Ret tt) w'); [|done| |done].
    - intros x todo w1 r1 w2 Hd1 Hst Hout. by eapply dual_slot_turn.
    - split; [done|]. left. split_and!; [done..| | |done];
        apply Hlist; by eexists. }
  destruct Hst as [(_ & _ & _ & Ha & _)|[(HN' & HA' & Hk & HB')|(HN' & HA' & Hk & HB' & _)]].
  - by apply not_elem_of_nil in Ha.
  - rewrite Hk. split_and!; [done..|].
    destruct HB' as [?|[_ Hb]]; [done|]. by apply not_elem_of_nil in Hb.
  - by rewrite Hk.
Qed.

(** ** C7: running the slot resolution twice *)

Section Idempotence.

Variable d : path.

Abbreviation at_ token s suffixes := (d </> slotted_name token s suffixes).
Abbreviation turn := (correct_ab_filenames_entry get_partition_names_with_alias d).

Local Lemma is_file_delete (m : filesystem) p q :
  FS.is_file (delete p m) q = true → q ≠ p ∧ FS.is_file m q = true.
Proof.
  unfold FS.is_file. destruct (decide (q = p)) as [->|Hne].
  - by rewrite lookup_delete_eq.
  - by rewrite lookup_delete_ne.
Qed.

Local Lemma is_file_insert (m : filesystem) p c q :
  FS.is_file (<[p := File c]> m) q = true → q = p ∨ (q ≠ p ∧ FS.is_file m q = true).
Proof.
  unfold FS.is_file. destruct (decide (q = p)) as [->|Hne]; [by left|].
  rewrite lookup_insert_ne by done. by right.
Qed.

Local Lemma is_file_keep_delete (m : filesystem) p q :
  q ≠ p → FS.is_file m q = true → FS.is_file (delete p m) q = true.
Proof. intros. unfold FS.is_file in *. by rewrite lookup_delete_ne. Qed.

Local Lemma is_file_keep_insert (m : filesystem) p c q :
  FS.is_file m q = true → FS.is_file (<[p := File c]> m) q = true.
Proof.
  intros. unfold FS.is_file in *. destruct (decide (p = q)) as [->|Hne].
  - by rewrite lookup_insert_eq.
  - by rewrite lookup_insert_ne.
Qed.

Local Lemma slot_ne_unslotted_known x token suffixes s t2 x2 :
  classify x = Some (token, suffixes) → s ≠ Unslotted →
  t2 ∈ get_partition_names_with_alias → Str.dotted x2 = true →
  at_ t2 Unslotted x2 ≠ at_ token s suffixes.
Proof.
  intros Hc Hs H2 D2 E. symmetry in E.
  by apply (classified_at_inj d _ _ _ _ _ _ _ Hc H2 D2) in E as (_ & ? & _).
Qed.

Lemma pending_turn x todo w w' :
  pending d (x :: todo) w → entry_outcome d x w (Ret tt) w' → pending d todo w'.
Proof.
  intros (Hd & Hfree & Hpend) Hout.
  split; [by eapply entry_outcome_keeps_dir|].
  remember (Ret tt) as r0 eqn:Hr0 in Hout.
  destruct Hout as [w' logs Hidle Hf _ _|w' token suffixes logs Hx Hc HN Hf _ _
                   |w' token suffixes s c logs r Hx Hc HN Hs Hsrc HsA Hmv _ _];
    subst.
  - (* nothing to resolve *)
    rewrite Hf. split; [done|]. intros y Hy Hcy.
    specialize (Hpend y Hy Hcy). apply elem_of_cons in Hpend as [->|]; [|done].
    destruct Hidle; congruence.
  - (* the entry is removed *)
    rewrite Hf. destruct (classified_name d _ _ _ Hc) as (s & Hs & Ex). split.
    + intros t2 x2 H2 D2 HA HB.
      apply is_file_delete in HA as [_ HA]. apply is_file_delete in HB as [_ HB].
      apply is_file_keep_delete; [|by apply Hfree].
      rewrite Ex. by apply (slot_ne_unslotted_known x).
    + intros y [Hne Hy]%is_file_delete Hcy.
      specialize (Hpend y Hy Hcy). apply elem_of_cons in Hpend as [->|]; done.
  - (* a slot file is promoted *)
    destruct (classify_sound _ _ _ Hc) as (Hin & _ & Hdot & Htail & s0 & Hs0 & Ex).
    assert (d </> x = at_ token s suffixes) as Ex'.
    { rewrite Ex. destruct (decide (s0 = s)) as [->|Hne]; [done|]. exfalso.
      rewrite Ex in Hx.
      assert (FS.is_file (files w) (at_ token s suffixes) = true) as Hsrc'
          by (unfold FS.is_file; by rewrite Hsrc).
      assert (FS.is_file (files w) (at_ token Unslotted suffixes) = true) as HN'.
      { apply Hfree; [done|done|..]. all: destruct s0, s; try done. }
      congruence. }
    assert (∀ t2 s2 x2,
               t2 ∈ get_partition_names_with_alias → Str.dotted x2 = true →
               s2 ≠ Unslotted →
               FS.is_file (files w') (at_ t2 s2 x2) = true →
               at_ t2 s2 x2 ≠ at_ token s suffixes ∧
               FS.is_file (files w) (at_ t2 s2 x2) = true) as Hslot.
    { intros t2 s2 x2 H2 D2 Hs2 Hf.
      inversion Hmv as [Hn Hr Hm|Hn Hn' Hr Hm|Hn Hn' Hr Hm]; rewrite <- Hm in Hf.
      - apply is_file_insert in Hf as [E|[_ Hf]].
        + by apply at_inj in E as (_ & ? & _).
        + by apply is_file_delete in Hf.
      - apply is_file_insert in Hf as [E|[_ Hf]].
        + symmetry in E. by apply grandchild_ne_child in E.
        + by apply is_file_delete in Hf. }
    split.
    + intros t2 x2 H2 D2 HA HB.
      apply (Hslot t2 SlotA x2) in HA as [_ HA]; [|done..].
      apply (Hslot t2 SlotB x2) in HB as [_ HB]; [|done..].
      pose proof (Hfree t2 x2 H2 D2 HA HB) as HN2.
      assert (at_ t2 Unslotted x2 ≠ at_ token s suffixes) as Hne
          by by apply (slot_ne_unslotted_known x).
      inversion Hmv as [Hn Hr Hm|Hn Hn' Hr Hm|Hn Hn' Hr Hm];
        by apply is_file_keep_insert, is_file_keep_delete.
    + intros y Hy Hcy.
      destruct (classify y) as [[t2 x2]|] eqn:Hc2; [|done].
      destruct (classify_sound _ _ _ Hc2) as (H2 & _ & D2 & _ & s2 & Hs2 & Ey).
      assert (d </> y = at_ t2 s2 x2) as Ey' by by rewrite Ey.
      rewrite Ey' in Hy. apply Hslot in Hy as [Hne Hy]; [|done..].
      rewrite <- Ey' in Hy, Hne.
      assert (y ∈ x :: todo) as Hyin by (apply Hpend; [done|by rewrite Hc2]).
      apply elem_of_cons in Hyin as [->|]; [|done].
      by rewrite Ex' in Hne.
Qed.

Lemma first_run_resolves entries w w' :
  listing (files w) d entries →
  dual_slot_free (files w) d →
  for_each entries turn w = (Ret tt, w') →
  FS.is_dir (files w) d = true →
  FS.is_dir (files w') d = true ∧ resolved (files w') d.
Proof.
  intros [_ Hlist] Hfree Hrun Hd.
  assert (pending d [] w') as (Hd' & _ & Hres).
  { apply (slot_loop_invariant d (pending d) (λ _, True) entries w (Ret tt) w');
      [|done| |done].
    - intros x todo w1 r1 w2 _ Hp Hout. destruct r1 as [[]|]; [|done].
      by eapply pending_turn.
    - split_and!; [done..|]. intros x Hx _. apply Hlist.
      apply is_file_lookup in Hx as [c ->]. by eexists. }
  split; [done|]. intros x Hx.
  destruct (classify x) eqn:Hc; [|done].
  exfalso. eapply not_elem_of_nil, (Hres x Hx). by rewrite Hc.
Qed.

(** On a resolved directory every turn is idle. *)
Lemma resolved_run_idle entries w :
  FS.is_dir (files w) d = true →
  resolved (files w) d →
  ∃ logs, for_each entries turn w = (Ret tt, after w logs (files w)) ∧
          forallb is_log logs = true.
Proof.
  intros Hd Hres. revert w Hd Hres.
  induction entries as [|x todo IH]; intros w Hd Hres.
  - exists []. split; [|done]. simpl. unfold ret, after.
    rewrite app_nil_r. by destruct w.
  - destruct (correct_ab_filenames_entry_outcome d x w Hd) as (r1 & w1 & E & Hout).
    destruct (entry_outcome_idle d _ _ _ _ Hout) as (-> & Hf & logs1 & Ht & Hl1).
    { destruct (FS.is_file (files w) (d </> x)) eqn:Hx; [right|by left].
      by apply Hres. }
    destruct (IH w1) as (logs2 & Hrun & Hl2); [by rewrite Hf..|].
    exists (logs1 ++ logs2). split.
    + simpl. unfold bind. rewrite E, Hrun. f_equal.
      unfold after. rewrite Hf, Ht, <- app_assoc. done.
    + rewrite forallb_app. by rewrite Hl1, Hl2.
Qed.

End Idempotence.

(** C7 (amended).  On a staging directory in which no known token has
    both its [_a] and its [_b] file while its unslotted file is missing,
    running [correct_ab_filenames] on the outcome of a completed first
    run, whatever the second listing, completes, leaves every file as it
    is and calls neither [unlink] nor [move]: it only logs. *)
Theorem slot_resolver_idempotent_without_dual_slots
    (d : path) (entries entries2 : list string) (w w1 : world) :
  listing (files w) d entries →
  dual_slot_free (files w) d →
  correct_ab_filenames entries d w = (Ret tt, w1) →
  ∃ logs,
    correct_ab_filenames entries2 d w1 = (Ret tt, after w1 logs (files w1)) ∧
    forallb is_log logs = true.
Proof.
  intros Hlist Hfree Hrun.
  pose proof (correct_ab_filenames_needs_dir _ _ _ _ _ Hrun eq_refl) as Hd.
  rewrite correct_ab_filenames_loop in Hrun by done.
  destruct (first_run_resolves d _ _ _ Hlist Hfree Hrun Hd) as [Hd1 Hres].
  rewrite correct_ab_filenames_loop by done.
  by apply resolved_run_idle.
Qed.

(** ** Confinement: what a computation may change and name

    [touches_only may ok w w']: from [w] to [w'] only paths in [may]
    changed, and every event added satisfies [ok]. *)

Section Confinement.

Context (may : path → Prop) (ok : event → Prop).

Lemma touches_only_refl w : touches_only may ok w w.
Proof. split; [done|]. exists []. by rewrite app_nil_r. Qed.

Lemma touches_only_trans w1 w2 w3 :
  touches_only may ok w1 w2 → touches_only may ok w2 w3 →
  touches_only may ok w1 w3.
Proof.
  intros [Hf1 (e1 & Ht1 & Ho1)] [Hf2 (e2 & Ht2 & Ho2)]. split.
  - intros q Hq. by rewrite Hf2, Hf1.
  - exists (e1 ++ e2). rewrite Ht2, Ht1, <- app_assoc. split; [done|].
    by apply Forall_app.
Qed.

Lemma confined_ret {A} (a : A) : confined may ok (ret a).
Proof. intros w r w' [= <- <-]. apply touches_only_refl. Qed.

Lemma confined_raise {A} e : confined may ok (@raise A e).
Proof. intros w r w' [= <- <-]. apply touches_only_refl. Qed.

Lemma confined_get_files : confined may ok get_files.
Proof. intros w r w' [= <- <-]. apply touches_only_refl. Qed.

Lemma confined_bind {A B} (m : M A) (k : A → M B) :
  confined may ok m → (∀ a, confined may ok (k a)) → confined may ok (bind m k).
Proof.
  intros Hm Hk w r w' H. unfold bind in H.
  destruct (m w) as [[a|e] w1] eqn:E.
  - eapply touches_only_trans; [by eapply Hm|by eapply Hk].
  - injection H as <- <-. by eapply Hm.
Qed.

Lemma confined_emit ev : ok ev → confined may ok (emit ev).
Proof.
  intros Hev w r w' [= <- <-]. split; [done|]. exists [ev].
  split; [done|]. by apply Forall_singleton.
Qed.

Lemma confined_update f :
  (∀ m q, ¬ may q → f m !! q = m !! q) → confined may ok (update f).
Proof.
  intros Hf w r w' [= <- <-]. split; [intros q Hq; by apply Hf|].
  exists []. by rewrite app_nil_r.
Qed.

Lemma confined_for_each {X} (xs : list X) (body : X → M unit) :
  (∀ x, x ∈ xs → confined may ok (body x)) →
  confined may ok (for_each xs body).
Proof.
  induction xs as [|x xs IH]; intros Hbody; simpl.
  - apply confined_ret.
  - apply confined_bind; [apply Hbody; by left|]. intros _.
    apply IH. intros y Hy. apply Hbody. by right.
Qed.

Lemma confined_try_except {A} (m : M A) catches handler :
  confined may ok m → (∀ e, confined may ok (handler e)) →
  confined may ok (try_except m catches handler).
Proof.
  intros Hm Hh w r w' H. unfold try_except in H.
  destruct (m w) as [[a|e] w1] eqn:E.
  - injection H as <- <-. by eapply Hm.
  - destruct (catches e).
    + eapply touches_only_trans; [by eapply Hm|by eapply Hh].
    + injection H as <- <-. by eapply Hm.
Qed.

Lemma confined_path_exists p : confined may ok (FS.path_exists p).
Proof.
  apply confined_bind; [apply confined_get_files|]. intros m. apply confined_ret.
Qed.

Lemma confined_path_is_file p : confined may ok (FS.path_is_file p).
Proof.
  apply confined_bind; [apply confined_get_files|]. intros m. apply confined_ret.
Qed.

Lemma confined_unlink (p : path) :
  may p → ok (Unlink p) → confined may ok (FS.unlink p).
Proof.
  intros Hp Hev. apply confined_bind; [by apply confined_emit|]. intros _.
  apply confined_bind; [apply confined_get_files|]. intros m.
  destruct (m !! p) as [[c|]|]; try apply confined_raise.
  apply confined_update. intros m' q Hq. apply lookup_delete_ne. by intros <-.
Qed.

Lemma subtree_move_frame (src dst : path) (m : filesystem) (q : path) :
  ¬ src `prefix_of` q → ¬ dst `prefix_of` q →
  FS.subtree_move src dst m !! q = m !! q.
Proof.
  intros Hs Hd. unfold FS.subtree_move.
  transitivity (filter (λ kv, ¬ src `prefix_of` kv.1) m !! q).
  - generalize (filter (λ kv : path * node, ¬ src `prefix_of` kv.1) m) as b.
    intros b. apply (map_fold_weak_ind (λ r _, r !! q = b !! q)); [done|].
    intros i x m' r _ IH. destruct (FS.under src i); [|done].
    rewrite lookup_insert_ne; [done|]. intros <-. apply Hd. by eexists.
  - destruct (m !! q) as [x|] eqn:E.
    + by apply map_lookup_filter_Some.
    + apply map_lookup_filter_None. by left.
Qed.

Lemma confined_rename (src dst : path) :
  (∀ q, src `prefix_of` q → may q) → (∀ q, dst `prefix_of` q → may q) →
  confined may ok (FS.rename src dst).
Proof.
  intros Hsrc Hdst.
  apply confined_bind; [apply confined_get_files|]. intros m.
  destruct (m !! src) as [[c|]|]; try apply confined_raise.
  - destruct (FS.parent_ok m dst); [|apply confined_raise].
    apply confined_update. intros m' q Hq.
    rewrite lookup_insert_ne, lookup_delete_ne; [done|..];
      intros <-; apply Hq; [apply Hsrc|apply Hdst]; done.
  - destruct (FS.under src dst); [apply confined_raise|].
    destruct (FS.exists_ m dst); [apply confined_raise|].
    destruct (FS.parent_ok m dst); [|apply confined_raise].
    apply confined_update. intros m' q Hq. apply subtree_move_frame.
    + intros H. by apply Hq, Hsrc.
    + intros H. by apply Hq, Hdst.
Qed.

Lemma confined_move (src dst : path) :
  (∀ q, src `prefix_of` q → may q) → (∀ q, dst `prefix_of` q → may q) →
  ok (Move src dst) → confined may ok (FS.move src dst).
Proof.
  intros Hsrc Hdst Hev. apply confined_bind; [by apply confined_emit|]. intros _.
  apply confined_bind; [apply confined_get_files|]. intros m.
  destruct (FS.is_dir m dst); [|by apply confined_rename].
  case_bool_decide; [apply confined_ret|].
  cbv zeta.
  destruct (FS.exists_ m (dst </> Pathlib.name src)); [apply confined_raise|].
  apply confined_rename; [done|]. intros q [k ->]. apply Hdst.
  exists ([Pathlib.name src] ++ k). by rewrite <- !app_assoc.
Qed.

Lemma confined_copyfile (src dst : path) :
  may dst → ok (CopyFile src dst) → confined may ok (FS.copyfile src dst).
Proof.
  intros Hdst Hev. apply confined_bind; [by apply confined_emit|]. intros _.
  apply confined_bind; [apply confined_get_files|]. intros m.
  destruct (_ && _); [apply confined_raise|].
  destruct (m !! src) as [[c|]|]; try apply confined_raise.
  destruct (m !! dst) as [[c'|]|]; try apply confined_raise;
    (destruct (FS.parent_ok m dst); [|apply confined_raise]);
    apply confined_update; intros m' q Hq; apply lookup_insert_ne; by intros <-.
Qed.

End Confinement.

Lemma confined_weaken {A} (may1 may2 : path → Prop) (ok1 ok2 : event → Prop)
    (m : M A) :
  (∀ q, may1 q → may2 q) → (∀ ev, ok1 ev → ok2 ev) →
  confined may1 ok1 m → confined may2 ok2 m.
Proof.
  intros Hm Ho H w r w' E. destruct (H w r w' E) as [Hf (evs & Ht & Hev)]. split.
  - intros q Hq. apply Hf. intros ?. by apply Hq, Hm.
  - exists evs. split; [done|]. by eapply Forall_impl.
Qed.



(** ** C1: an alias next to its canonical image *)

(** C1.  When [boot-verified.img] and [boot.img] both exist as regular
    files, [fix_aliases] logs that the alias is ignored, deletes the
    alias, and then goes on to move the file it just deleted: the run
    ends with [FileNotFoundError] instead of returning, and the aliases
    that follow in the table are never looked at. *)
Theorem fix_aliases_collision_raises (d : path) (w : world) (cv cb : string) :
  files w !! (d </> "boot-verified.img") = Some (File cv) →
  files w !! (d </> "boot.img") = Some (File cb) →
  fix_aliases d w =
  (Raise (FS.oserror FileNotFoundError (d </> "boot-verified.img")),
   after w
     [ LOGI "Ignoring boot-verified (boot already extracted)";
       Unlink (d </> "boot-verified.img");
       LOGI "Fixing alias boot-verified -> boot";
       Move (d </> "boot-verified.img") (d </> "boot.img") ]
     (delete (d </> "boot-verified.img") (files w))).
Proof.
  intros Hv Hb.
  assert (d </> "boot.img" ≠ d </> "boot-verified.img") as Hne
      by (intros E%child_inj; done).
  unfold fix_aliases, ALTERNATIVE_PARTITION_NAMES. cbn [for_each].
  unfold bind at 1. unfold bind at 1.
  change ("boot-verified" +:+ ".img") with "boot-verified.img".
  change ("boot" +:+ ".img") with "boot.img".
  unfold FS.path_exists at 1, bind at 1, get_files at 1, ret at 1.
  unfold FS.exists_ at 1. rewrite Hv. cbn [negb].
  unfold bind at 1.
  unfold FS.path_exists at 1, bind at 1, get_files at 1, ret at 1.
  unfold FS.exists_ at 1. rewrite Hb.
  unfold bind at 1. unfold bind at 1. unfold emit at 1. cbn [files trace].
  rewrite (unlink_file _ cv) by done.
  unfold bind at 1. unfold emit at 1. cbn [files trace after].
  unfold FS.move, bind, emit, get_files. cbn [files trace].
  unfold FS.is_dir. rewrite lookup_delete_ne, Hb by done.
  unfold FS.rename, bind, get_files. cbn [files trace].
  rewrite lookup_delete_eq. unfold raise, after. f_equal. f_equal.
  by rewrite <- !app_assoc.
Qed.

(** ** C8: names whose token is not in the tables *)

Section UnknownTokens.

Variable d : path.

Lemma children_prefix_eq (n1 n2 : string) (q : path) :
  (d </> n1) `prefix_of` q → (d </> n2) `prefix_of` q → n1 = n2.
Proof.
  intros H1 H2. apply (child_inj d).
  destruct (prefix_weak_total _ _ _ H1 H2) as [H|H].
  - apply prefix_length_eq; [done|]. by rewrite !length_app.
  - symmetry. apply prefix_length_eq; [done|]. by rewrite !length_app.
Qed.

Lemma known_untouched n w w' :
  token_of n ∉ get_partition_names_with_alias →
  touches_only (may_known d) (names_known d) w w' → untouched d n w w'.
Proof.
  intros Hn [Hf (evs & Ht & Hev)]. split.
  - intros q Hq. apply Hf. intros (n' & Hn' & Hq').
    rewrite (children_prefix_eq _ _ _ Hq Hq') in Hn. done.
  - exists evs. split; [done|]. intros ev Hin Hp.
    eapply Forall_forall in Hev; [|done].
    destruct (Hev _ Hp) as (n' & Hn' & E). apply child_inj in E. by subst.
Qed.

Lemma log_names_known msg : names_known d (LOGI msg).
Proof. intros p Hp. by apply not_elem_of_nil in Hp. Qed.

Lemma known_child n :
  token_of n ∈ get_partition_names_with_alias →
  ∀ q, (d </> n) `prefix_of` q → may_known d q.
Proof. intros Hn q Hq. by exists n. Qed.

Lemma unlink_names_known n :
  token_of n ∈ get_partition_names_with_alias → names_known d (Unlink (d </> n)).
Proof. intros Hn p ->%list_elem_of_singleton. by exists n. Qed.

Lemma move_names_known n1 n2 :
  token_of n1 ∈ get_partition_names_with_alias →
  token_of n2 ∈ get_partition_names_with_alias →
  names_known d (Move (d </> n1) (d </> n2)).
Proof.
  intros H1 H2 p [->| ->%list_elem_of_singleton]%elem_of_cons;
    [by exists n1|by exists n2].
Qed.

Lemma correct_ab_filenames_entry_confined x :
  confined (may_known d) (names_known d)
    (correct_ab_filenames_entry get_partition_names_with_alias d x).
Proof.
  unfold correct_ab_filenames_entry.
  apply confined_bind; [apply confined_path_is_file|]. intros file_is_file.
  destruct file_is_file; cbn [negb];
    [|apply confined_emit, log_names_known].
  apply confined_bind; [apply confined_emit, log_names_known|]. intros _.
  destruct (classify x) as [[token suffixes]|] eqn:Hc; unfold classify in Hc;
    destruct (negb _ && negb _) eqn:Hends;
    try apply confined_emit, log_names_known;
    case_bool_decide as Hin; try done; cbn [negb];
    try apply confined_emit, log_names_known.
  injection Hc as Ht Hs. rewrite Ht, Hs.
  assert (classify x = Some (token, suffixes)) as Hc.
  { unfold classify. rewrite Hends, Ht, Hs.
    rewrite bool_decide_eq_true_2; [done|]. by rewrite <- Ht. }
  destruct (classify_sound _ _ _ Hc) as (Hk & _ & _ & Htail & _).
  pose proof (classify_token_of _ _ _ Hc) as Hx.
  assert (∀ s, token_of (slotted_name token s suffixes)
               ∈ get_partition_names_with_alias) as Hslot
      by (intros s; by rewrite token_of_slotted_name).
  assert (token_of x ∈ get_partition_names_with_alias) as Hx' by by rewrite Hx.
  change (token +:+ suffixes) with (slotted_name token Unslotted suffixes).
  change (token +:+ "_a" +:+ suffixes) with (slotted_name token SlotA suffixes).
  change (token +:+ "_b" +:+ suffixes) with (slotted_name token SlotB suffixes).
  apply confined_bind; [apply confined_path_is_file|]. intros [].
  { apply confined_bind; [apply confined_emit, log_names_known|]. intros _.
    apply confined_unlink; [|by apply unlink_names_known].
    exists x. split; [done|reflexivity]. }
  apply confined_bind; [apply confined_path_is_file|]. intros [].
  { apply confined_move; [by apply known_child..|by apply move_names_known]. }
  apply confined_bind; [apply confined_path_is_file|]. intros [].
  { apply confined_move; [by apply known_child..|by apply move_names_known]. }
  apply confined_ret.
Qed.

Lemma correct_ab_filenames_confined entries :
  confined (may_known d) (names_known d) (correct_ab_filenames entries d).
Proof.
  unfold correct_ab_filenames.
  apply confined_bind; [apply confined_get_files|]. intros m.
  destruct (negb _); [apply confined_raise|].
  apply confined_for_each. intros x _. apply correct_ab_filenames_entry_confined.
Qed.

(** The images named by the alias table have known tokens. *)
Lemma alias_images_known alt_name name :
  (alt_name, name) ∈ ALTERNATIVE_PARTITION_NAMES →
  token_of (alt_name +:+ ".img") ∈ get_partition_names_with_alias ∧
  token_of (name +:+ ".img") ∈ get_partition_names_with_alias.
Proof.
  intros H.
  assert (Forall (λ '(a, n),
            token_of (a +:+ ".img") ∈ get_partition_names_with_alias ∧
            token_of (n +:+ ".img") ∈ get_partition_names_with_alias)
            ALTERNATIVE_PARTITION_NAMES) as HF.
  { repeat constructor; apply (bool_decide_unpack _); vm_compute; exact I. }
  rewrite Forall_forall in HF. exact (HF (alt_name, name) H).
Qed.

Lemma fix_aliases_confined :
  confined (may_known d) (names_known d) (fix_aliases d).
Proof.
  unfold fix_aliases. apply confined_for_each. intros [alt_name name] Hin.
  destruct (alias_images_known _ _ Hin) as [Ha Hn].
  apply confined_bind; [apply confined_path_exists|]. intros [];
    cbn [negb]; [|apply confined_ret].
  apply confined_bind; [apply confined_path_exists|]. intros partition_exists.
  apply confined_bind.
  { destruct partition_exists; [|apply confined_ret].
    apply confined_bind; [apply confined_emit, log_names_known|]. intros _.
    apply confined_unlink; [|by apply unlink_names_known].
    eexists. split; [exact Ha|reflexivity]. }
  intros _. apply confined_bind; [apply confined_emit, log_names_known|].
  intros _. apply confined_move; [by apply known_child..|by apply move_names_known].
Qed.

End UnknownTokens.

(** ** The events and the writes of the extraction loop *)

Lemma dict_get_Some_in {V} (dict : list (string * V)) k v :
  dict_get dict k = Some v → k ∈ map fst dict.
Proof.
  induction dict as [|[k' v'] dict IH]; [done|]. simpl.
  destruct (String.eqb_spec k' k) as [->|_]; [intros _; by left|].
  intros H. right. by apply IH.
Qed.

Lemma confined_call (may : path → Prop) (ok : event → Prop)
    (f : collaborator) (ev : option exn → event) :
  (∀ m q, ¬ may q → (f m).2 !! q = m !! q) → (∀ r, ok (ev r)) →
  confined may ok (call f ev).
Proof.
  intros Hf Hev w r w' H. unfold call in H.
  destruct (f (files w)) as [raised m'] eqn:E. injection H as <- <-. split.
  - intros q Hq. specialize (Hf (files w) q Hq). by rewrite E in Hf.
  - exists [ev raised]. split; [done|]. by apply Forall_singleton.
Qed.

Section Extraction.

Variable extract_bootimg : path → path → collaborator.
Variable sevenz : sevenz_command → collaborator.
Variable format_exception : exn → string.

Variables raw out : path.

Abbreviation turn_of := (extract_partition extract_bootimg sevenz format_exception raw out).

Lemma extract_partition_confined (may : path → Prop) p :
  (∀ image m q, ¬ may q → (extract_bootimg image (out </> p) m).2 !! q = m !! q) →
  (∀ image m q,
      ¬ may q → (sevenz (SevenzX image (out </> p)) m).2 !! q = m !! q) →
  may (out </> (p +:+ ".img")) →
  confined may (extraction_event raw out) (turn_of p).
Proof.
  intros Hboot Hsz Hcopy. unfold extract_partition.
  destruct (dict_get PARTITIONS p) as [ty|] eqn:Hty; [|apply confined_raise].
  assert (∀ msg, extraction_event raw out (LOGI msg)) as Hlogi by by left.
  assert (∀ msg, extraction_event raw out (LOGE msg)) as Hloge by by left.
  apply confined_bind; [apply confined_path_exists|]. intros [];
    cbn [negb]; [|apply confined_ret].
  apply confined_bind; [by apply confined_emit|]. intros _.
  apply confined_bind.
  - case_bool_decide as Hb; [|case_bool_decide as Hf; [|apply confined_ret]].
    + apply confined_try_except.
      * apply confined_call; [apply Hboot|]. intros r. right.
        exists p, ty. split; [done|]. left. by exists r.
      * intros e. apply confined_bind; [by apply confined_emit|]. intros _.
        by apply confined_emit.
    + apply confined_try_except.
      * apply confined_call; [apply Hsz|]. intros r. right.
        exists p, ty. split; [done|]. right. left. by exists r.
      * intros e. apply confined_bind; [by apply confined_emit|]. intros _.
        by apply confined_emit.
  - intros _. case_bool_decide as Hc; [|apply confined_ret].
    apply confined_copyfile; [done|]. right. exists p, ty. split; [done|].
    right. right. split; [done|]. intros ->.
    apply elem_of_cons in Hc as [?|Hc]; [done|].
    by apply list_elem_of_singleton in Hc.
Qed.

(** Whatever the collaborators do, the loop adds extraction events
    only. *)
Lemma extract_partitions_events :
  confined (λ _, True) (extraction_event raw out)
    (extract_partitions extract_bootimg sevenz format_exception raw out).
Proof.
  apply confined_for_each. intros p _.
  by apply extract_partition_confined; [intros ??? []..|].
Qed.

(** With collaborators that write below their destination, the turns of
    [partitions] write below the directories of these partitions and
    onto their image copies. *)
Lemma extract_turns_confined (partitions : list string) :
  (∀ image, writes_below (extract_bootimg image)) →
  (∀ image, writes_below (λ dest, sevenz (SevenzX image dest))) →
  confined (extraction_may partitions out) (extraction_event raw out)
    (for_each partitions turn_of).
Proof.
  intros Hboot Hsz. apply confined_for_each. intros p Hp.
  apply extract_partition_confined.
  - intros image m q Hq. apply Hboot. intros H. apply Hq. exists p. auto.
  - intros image m q Hq. apply (Hsz image). intros H. apply Hq. exists p. auto.
  - exists p. auto.
Qed.

End Extraction.

(** File names of the extraction output have the token of their
    partition. *)
Lemma partition_outputs_known p :
  p ∈ get_partition_names →
  token_of p = p ∧ token_of (p +:+ ".img") = p ∧
  p ∈ get_partition_names_with_alias.
Proof.
  intros Hp.
  assert (p ∈ get_partition_names_with_alias) as Hk
      by (apply elem_of_app; by left).
  split_and!; [| |done].
  - rewrite <- (token_of_slotted_name p Unslotted "") at 2 by done.
    unfold slotted_name. simpl. by rewrite !StrFacts.append_nil_r.
  - by rewrite <- (token_of_slotted_name p Unslotted ".img") at 2.
Qed.

(** C8.  For a file name [n] whose partition token is neither a
    registry name nor an alias: [correct_ab_filenames] and [fix_aliases]
    leave the entry [n] of the staging directory as it is and never name
    it in a deletion or a move, whether they return or raise; and
    [extract_partitions] never hands [n] in the output directory to a
    collaborator or to [copyfile], and, when the collaborators write
    below their destination only, leaves it as it is. *)
Theorem unknown_token_untouched (n : string) :
  token_of n ∉ get_partition_names_with_alias →
  (∀ d entries w r w',
      correct_ab_filenames entries d w = (r, w') → untouched d n w w') ∧
  (∀ d w r w', fix_aliases d w = (r, w') → untouched d n w w') ∧
  (∀ extract_bootimg sevenz format_exception raw out w r w',
      extract_partitions extract_bootimg sevenz format_exception raw out w
      = (r, w') →
      (∃ evs, trace w' = trace w ++ evs ∧
              ∀ ev, ev ∈ evs → out </> n ∉ event_paths ev) ∧
      ((∀ image, writes_below (extract_bootimg image)) →
       (∀ image, writes_below (λ dest, sevenz (SevenzX image dest))) →
       ∀ q, (out </> n) `prefix_of` q → files w' !! q = files w !! q)).
Proof.
  intros Hn. split_and!.
  - intros d entries w r w' Hrun. apply known_untouched; [done|].
    by eapply correct_ab_filenames_confined.
  - intros d w r w' Hrun. apply known_untouched; [done|].
    by eapply fix_aliases_confined.
  - intros extract_bootimg sevenz format_exception raw out w r w' Hrun. split.
    + destruct (extract_partitions_events _ _ _ _ _ _ _ _ Hrun)
        as [_ (evs & Ht & Hev)].
      exists evs. split; [done|]. intros ev Hin Hp.
      eapply Forall_forall in Hev; [|done].
      destruct Hev as [Hlog|(p & ty & Hty & Hev)].
      { destruct ev; try done; by apply not_elem_of_nil in Hp. }
      apply dict_get_Some_in in Hty.
      destruct (partition_outputs_known p Hty) as (H1 & H2 & Hk).
      assert (n ≠ p) as Hnp by (intros ->; by rewrite H1 in Hn).
      assert (n ≠ p +:+ ".img") as Hni by (intros ->; by rewrite H2 in Hn).
      destruct Hev as [(r0 & -> & _)|[(r0 & -> & _)|[-> _]]]; simpl in Hp;
        apply elem_of_cons in Hp as [E|Hp];
        try apply list_elem_of_singleton in Hp;
        repeat match goal with
               | H : _ </> _ = _ </> _ |- _ =>
                   apply app_inj_tail in H as [? ?]
               end; subst; done.
    + intros Hboot Hsz q Hq.
      destruct (extract_turns_confined _ _ _ _ _ _ Hboot Hsz _ _ _ Hrun)
        as [Hf _].
      apply Hf. intros (p & Hp & Hmay).
      destruct (partition_outputs_known p Hp) as (H1 & H2 & Hk).
      destruct Hmay as [Hpre| ->].
      * rewrite <- (children_prefix_eq out _ _ _ Hpre Hq) in Hn.
        by rewrite H1 in Hn.
      * apply prefix_length_eq in Hq; [|by rewrite !length_app].
        apply child_inj in Hq. subst n. by rewrite H2 in Hn.
Qed.

(** ** The turns of the extraction loop *)

Lemma for_each_app {X} (xs ys : list X) (body : X → M unit) w :
  for_each (xs ++ ys) body w =
  match for_each xs body w with
  | (Ret _, w1) => for_each ys body w1
  | (Raise e, w1) => (Raise e, w1)
  end.
Proof.
  revert w. induction xs as [|x xs IH]; intros w; [done|].
  simpl. unfold bind. destruct (body x w) as [[[]|e] w1]; [apply IH|done].
Qed.

Lemma prefix_snoc_cases (l k : path) (x : string) :
  l `prefix_of` (k </> x) → l `prefix_of` k ∨ l = k </> x.
Proof.
  intros [s Hs]. destruct (decide (s = [])) as [->|Hne].
  - right. by rewrite app_nil_r in Hs.
  - left. destruct (exists_last Hne) as (s' & y & ->).
    rewrite app_assoc in Hs. apply app_inj_tail in Hs as [-> _]. by eexists.
Qed.

Lemma copyfile_file (src dst : path) c w :
  files w !! src = Some (File c) → src ≠ dst →
  files w !! dst ≠ Some Dir → FS.parent_ok (files w) dst = true →
  FS.copyfile src dst w =
  (Ret tt, after w [CopyFile src dst] (<[dst := File c]> (files w))).
Proof.
  intros Hsrc Hne Hdst Hpar. unfold FS.copyfile, bind, emit, get_files.
  cbn [files trace]. rewrite bool_decide_eq_false_2 by done. cbn [andb].
  rewrite Hsrc, Hpar. by destruct (files w !! dst) as [[c'|]|].
Qed.

Section ExtractionRun.

Variable extract_bootimg : path → path → collaborator.
Variable sevenz : sevenz_command → collaborator.
Variable format_exception : exn → string.

Variables raw out : path.

Abbreviation turn_of := (extract_partition extract_bootimg sevenz format_exception raw out).
Abbreviation image_of p := (raw </> (p +:+ ".img")).
Abbreviation copy_of p := (out </> (p +:+ ".img")).

Lemma turn_absent p ty w :
  dict_get PARTITIONS p = Some ty →
  FS.exists_ (files w) (image_of p) = false →
  turn_of p w = (Ret tt, w).
Proof.
  intros Hty Hex. unfold extract_partition. rewrite Hty.
  unfold FS.path_exists, bind, get_files, ret. cbn [files]. by rewrite Hex.
Qed.

Lemma turn_bootimage p w :
  dict_get PARTITIONS p = Some BOOTIMAGE →
  FS.exists_ (files w) (image_of p) = true →
  turn_of p w =
  let '(raised, m1) := extract_bootimg (image_of p) (out </> p) (files w) in
  FS.copyfile (image_of p) (copy_of p)
    (after w ([LOGI ("Extracting " +:+ p);
               CallBootimg (image_of p) (out </> p) raised]
              ++ bootimg_failure_logs format_exception (image_of p) raised) m1).
Proof.
  intros Hty Hex. unfold extract_partition. rewrite Hty.
  unfold bind at 1. unfold FS.path_exists, bind at 1, get_files, ret.
  cbn [files]. rewrite Hex. cbn [negb].
  unfold bind at 1. unfold bind at 1. unfold emit at 1. cbn [files trace].
  rewrite bool_decide_eq_true_2 by done.
  unfold try_except, call. cbn [files trace].
  destruct (extract_bootimg _ _ (files w)) as [[e|] m1]; unfold bind, emit;
    cbn [files trace]; rewrite bool_decide_eq_true_2
      by (apply elem_of_cons; right; by apply list_elem_of_singleton);
    f_equal; unfold after; cbn; by rewrite <- !app_assoc.
Qed.

Lemma turn_raw p w :
  dict_get PARTITIONS p = Some RAW →
  FS.exists_ (files w) (image_of p) = true →
  turn_of p w =
  FS.copyfile (image_of p) (copy_of p)
    (after w [LOGI ("Extracting " +:+ p)] (files w)).
Proof.
  intros Hty Hex. unfold extract_partition. rewrite Hty.
  unfold bind at 1. unfold FS.path_exists, bind at 1, get_files, ret.
  cbn [files]. rewrite Hex. cbn [negb].
  unfold bind at 1. unfold bind at 1. unfold emit at 1. cbn [files trace].
  rewrite !bool_decide_eq_false_2 by done.
  unfold ret. rewrite bool_decide_eq_true_2 by by left. done.
Qed.

Lemma turn_filesystem p w :
  dict_get PARTITIONS p = Some FILESYSTEM →
  FS.exists_ (files w) (image_of p) = true →
  turn_of p w =
  let cmd := SevenzX (image_of p) (out </> p) in
  let '(raised, m1) := sevenz cmd (files w) in
  let w1 := after w [LOGI ("Extracting " +:+ p); CallSevenz cmd raised] m1 in
  match raised with
  | Some e =>
      if bool_decide (exn_cls e = CalledProcessError)
      then (Ret tt, after w1 (sevenz_failure_logs (image_of p) raised) m1)
      else (Raise e, w1)
  | None => (Ret tt, w1)
  end.
Proof.
  intros Hty Hex. unfold extract_partition. rewrite Hty.
  unfold bind at 1. unfold FS.path_exists, bind at 1, get_files, ret.
  cbn [files]. rewrite Hex. cbn [negb].
  unfold bind at 1. unfold bind at 1. unfold emit at 1. cbn [files trace].
  rewrite bool_decide_eq_false_2 by done.
  rewrite bool_decide_eq_true_2 by done.
  unfold try_except, call. cbn [files trace]. cbv zeta.
  destruct (sevenz _ (files w)) as [[e|] m1].
  - case_bool_decide.
    + unfold bind, emit; cbn [files trace].
      rewrite bool_decide_eq_false_2.
      2:{ intros [?|[?|?]%elem_of_cons]%elem_of_cons; try done.
          by eapply not_elem_of_nil. }
      unfold ret, after. cbn. by rewrite <- !app_assoc.
    + unfold after. cbn. by rewrite <- !app_assoc.
  - rewrite bool_decide_eq_false_2.
    2:{ intros [?|[?|?]%elem_of_cons]%elem_of_cons; try done.
        by eapply not_elem_of_nil. }
    unfold ret, after. cbn. by rewrite <- !app_assoc.
Qed.

End ExtractionRun.

(** ** C5 and C2: the extraction loop as a whole *)

Lemma partition_names_NoDup : NoDup get_partition_names.
Proof. apply (bool_decide_unpack _). vm_compute. exact I. Qed.

Lemma copyfile_ret (src dst : path) w w' :
  FS.copyfile src dst w = (Ret tt, w') →
  ∃ c, files w !! src = Some (File c) ∧
       files w' = <[dst := File c]> (files w) ∧
       trace w' = trace w ++ [CopyFile src dst].
Proof.
  unfold FS.copyfile, bind, emit, get_files. cbn [files trace].
  destruct (_ && _); [done|].
  destruct (files w !! src) as [[c|]|]; [|done..].
  intros H. exists c. split; [done|].
  destruct (files w !! dst) as [[c'|]|]; [|done|];
    (destruct (FS.parent_ok _ _); [|done]); by injection H as <-.
Qed.

Section ExtractionLoop.

Variable extract_bootimg : path → path → collaborator.
Variable sevenz : sevenz_command → collaborator.
Variable format_exception : exn → string.

Variables raw out : path.

Hypothesis bootimg_below : ∀ image, writes_below (extract_bootimg image).
Hypothesis sevenz_below :
  ∀ image, writes_below (λ dest, sevenz (SevenzX image dest)).
Hypothesis raw_not_out : raw ≠ out.
Hypothesis raw_apart :
  ∀ p, p ∈ get_partition_names → ¬ (out </> p) `prefix_of` raw.

Abbreviation turn_of := (extract_partition extract_bootimg sevenz format_exception raw out).
Abbreviation image_of p := (raw </> (p +:+ ".img")).
Abbreviation copy_of p := (out </> (p +:+ ".img")).

Lemma image_not_written partitions x :
  (∀ p, p ∈ partitions → p ∈ get_partition_names) →
  ¬ extraction_may partitions out (raw </> x).
Proof.
  intros Hsub (p & Hp & [Hpre|E]).
  - apply prefix_snoc_cases in Hpre as [Hpre|E].
    + by apply (raw_apart p (Hsub p Hp)).
    + by apply app_inj_tail in E as [? _].
  - by apply app_inj_tail in E as [? _].
Qed.

Lemma out_not_written partitions : ¬ extraction_may partitions out out.
Proof.
  intros (p & _ & [Hpre|E]).
  - apply prefix_length in Hpre. rewrite length_app in Hpre. simpl in Hpre. lia.
  - symmetry in E. by apply child_ne_self in E.
Qed.

Lemma copy_not_written partitions p :
  p ∈ get_partition_names →
  (∀ p', p' ∈ partitions → p' ∈ get_partition_names ∧ p' ≠ p) →
  ¬ extraction_may partitions out (copy_of p).
Proof.
  intros Hp Hsub (p' & Hp' & Hmay). destruct (Hsub p' Hp') as [Hn Hne].
  destruct (partition_outputs_known p Hp) as (_ & H2 & _).
  destruct (partition_outputs_known p' Hn) as (H1' & _ & _).
  destruct Hmay as [Hpre|E].
  - apply prefix_length_eq in Hpre; [|by rewrite !length_app].
    apply child_inj in Hpre. apply Hne. by rewrite <- H1', Hpre, H2.
  - apply child_inj, StrFacts.append_inv_r in E. by apply Hne.
Qed.

(** C5.  With collaborators that write below their destination only and
    a staging directory apart from the output, a completed run of
    [extract_partitions] has, for every [BOOTIMAGE] partition whose raw
    image is a regular file of the staging directory, called the
    boot-image unpacker, logged its failure if it raised, and then
    copied the raw image, content unchanged, to [<partition>.img] in the
    output root; for a [FILESYSTEM] partition no copy is made. *)
Theorem bootimage_raw_image_copied (w w' : world) :
  extract_partitions extract_bootimg sevenz format_exception raw out w
  = (Ret tt, w') →
  (∀ p c,
      dict_get PARTITIONS p = Some BOOTIMAGE →
      files w !! (raw </> (p +:+ ".img")) = Some (File c) →
      files w' !! (out </> (p +:+ ".img")) = Some (File c) ∧
      ∃ before raised after_,
        trace w' = trace w ++ before
          ++ [CallBootimg (raw </> (p +:+ ".img")) (out </> p) raised]
          ++ bootimg_failure_logs format_exception (raw </> (p +:+ ".img")) raised
          ++ [CopyFile (raw </> (p +:+ ".img")) (out </> (p +:+ ".img"))]
          ++ after_) ∧
  (∀ p, dict_get PARTITIONS p = Some FILESYSTEM →
        ∃ evs, trace w' = trace w ++ evs ∧
               ∀ src, CopyFile src (out </> (p +:+ ".img")) ∉ evs).
Proof.
  intros Hrun. split.
  - intros p c Hty Himg.
    pose proof (dict_get_Some_in _ _ _ Hty) as Hp. fold get_partition_names in Hp.
    destruct (list_elem_of_split _ _ Hp) as (l1 & l2 & Hsplit).
    pose proof partition_names_NoDup as Hnd. rewrite Hsplit in Hnd.
    apply NoDup_app in Hnd as (_ & Hl1 & [Hl2 _]%NoDup_cons).
    assert (∀ p', p' ∈ l1 → p' ∈ get_partition_names) as Hsub1
        by (intros p' Hp'; rewrite Hsplit; apply elem_of_app; by left).
    assert (∀ p', p' ∈ l2 → p' ∈ get_partition_names ∧ p' ≠ p) as Hsub2.
    { intros p' Hp'. split; [|by intros ->].
      rewrite Hsplit. apply elem_of_app. right. by right. }
    unfold extract_partitions in Hrun. rewrite Hsplit, for_each_app in Hrun.
    destruct (for_each l1 turn_of w) as [[[]|e] w1] eqn:Hrun1; [|done].
    cbn [for_each] in Hrun. unfold bind in Hrun.
    destruct (turn_of p w1) as [[[]|e] w2] eqn:Hturn; [|done].
    destruct (extract_turns_confined _ _ _ raw out l1 bootimg_below sevenz_below
                _ _ _ Hrun1) as [Hf1 (e1 & Ht1 & _)].
    destruct (extract_turns_confined _ _ _ raw out l2 bootimg_below sevenz_below
                _ _ _ Hrun) as [Hf2 (e2 & Ht2 & _)].
    assert (files w1 !! image_of p = Some (File c)) as Himg1
        by (rewrite Hf1; [done|by apply image_not_written]).
    rewrite turn_bootimage in Hturn;
      [|done|unfold FS.exists_; by rewrite Himg1].
    destruct (extract_bootimg (image_of p) (out </> p) (files w1))
      as [raised m1] eqn:Hcall.
    apply copyfile_ret in Hturn as (c' & Hsrc & Hf & Ht). cbn in Hsrc, Hf, Ht.
    assert (m1 !! image_of p = Some (File c)) as Himg2.
    { pose proof (bootimg_below (image_of p) (out </> p) (files w1) (image_of p))
        as Hb. rewrite Hcall in Hb. cbn [snd] in Hb. rewrite Hb; [done|].
      intros Hpre. apply (image_not_written [p] (p +:+ ".img")).
      - by intros ? ->%list_elem_of_singleton.
      - exists p. split; [by left|by left]. }
    rewrite Himg2 in Hsrc. injection Hsrc as <-. split.
    + rewrite Hf2; [|apply copy_not_written; done].
      rewrite Hf. apply lookup_insert_eq.
    + exists (e1 ++ [LOGI ("Extracting " +:+ p)]), raised, e2.
      rewrite Ht2, Ht, Ht1. by rewrite <- !app_assoc.
  - intros p Hty.
    destruct (extract_partitions_events _ _ _ _ _ _ _ _ Hrun)
      as [_ (evs & Ht & Hev)].
    exists evs. split; [done|]. intros src Hin.
    eapply Forall_forall in Hev; [|done].
    destruct Hev as [?|(p' & ty & Hty' & [(? & ? & _)|[(? & ? & _)|[E Hne]]])];
      try done.
    injection E as _ E. apply child_inj, StrFacts.append_inv_r in E. subst p'.
    congruence.
Qed.

Lemma failures_logged_app evs1 evs2 :
  failures_logged format_exception evs1 →
  failures_logged format_exception evs2 →
  failures_logged format_exception (evs1 ++ evs2).
Proof.
  intros H1 H2. induction evs1 as [|ev evs1 IH]; [done|].
  destruct ev as [| | | | | | | | |image dest [e|]|cmd [e|]|]; cbn in *;
    try (by apply IH).
  - destruct H1 as [[rest' ->] H1]. split; [by eexists|by apply IH].
  - destruct H1 as [[rest' ->] H1]. split; [by eexists|by apply IH].
Qed.

Lemma attempted_app evs1 evs2 :
  attempted (evs1 ++ evs2) = attempted evs1 ++ attempted evs2.
Proof. apply omap_app. Qed.

Hypothesis sevenz_exit_only :
  ∀ cmd m e, (sevenz cmd m).1 = Some e → exn_cls e = CalledProcessError.

Lemma turn_returns p w :
  p ∈ get_partition_names → ready raw out [p] (files w) →
  ∃ w' evs,
    turn_of p w = (Ret tt, w') ∧ trace w' = trace w ++ evs ∧
    attempted evs = expected_attempts raw (files w) [p] ∧
    failures_logged format_exception evs.
Proof.
  intros Hp [Hout Hready]. destruct (Hready p) as [Himg Hcopy]; [by left|].
  assert (∃ ty, dict_get PARTITIONS p = Some ty) as [ty Hty].
  { unfold get_partition_names in Hp. apply list_elem_of_fmap in Hp as ([k v] & -> & Hin).
    clear -Hin. induction PARTITIONS as [|[k' v'] l IH]; [by apply not_elem_of_nil in Hin|].
    simpl. destruct (String.eqb_spec k' k) as [->|Hne]; [by eexists|].
    apply elem_of_cons in Hin as [[= -> ->]|Hin]; [done|by apply IH]. }
  unfold expected_attempts. cbn [omap list_omap]. rewrite Hty.
  destruct (FS.exists_ (files w) (image_of p)) eqn:Hex.
  2:{ exists w, []. rewrite (turn_absent _ _ _ _ _ _ ty) by done.
      rewrite app_nil_r. by split_and!. }
  assert (∃ c, files w !! image_of p = Some (File c)) as [c Hc].
  { unfold FS.exists_ in Hex. destruct (files w !! image_of p) as [[c|]|]; [by eexists|done..]. }
  assert (image_of p ≠ copy_of p) as Hne
      by (intros E; by apply app_inj_tail in E as [? _]).
  assert (¬ (out </> p) `prefix_of` image_of p) as Himg_apart.
  { intros Hpre. apply (image_not_written [p] (p +:+ ".img")).
    - by intros ? ->%list_elem_of_singleton.
    - exists p. split; [by left|by left]. }
  assert (¬ (out </> p) `prefix_of` copy_of p) as Hcopy_apart.
  { intros Hpre. apply prefix_length_eq in Hpre; [|by rewrite !length_app].
    apply child_inj in Hpre. apply (f_equal String.length) in Hpre.
    rewrite StrFacts.length_append in Hpre. simpl in Hpre. lia. }
  assert (¬ (out </> p) `prefix_of` out) as Hout_apart.
  { intros Hpre%prefix_length. rewrite length_app in Hpre. simpl in Hpre. lia. }
  destruct ty.
  - (* a file system: 7z *)
    rewrite turn_filesystem by done. cbv zeta.
    destruct (sevenz (SevenzX (image_of p) (out </> p)) (files w))
      as [[e|] m1] eqn:Hcall.
    + rewrite bool_decide_eq_true_2
        by (apply (sevenz_exit_only (SevenzX (image_of p) (out </> p)) (files w));
            by rewrite Hcall).
      eexists _, _. split; [reflexivity|]. unfold after. cbn.
      split_and!; [by rewrite <- !app_assoc|done|].
      split; [by eexists|done].
    + eexists _, _. split; [reflexivity|]. unfold after. cbn.
      by split_and!.
  - (* a boot image: the unpacker, then the copy *)
    rewrite turn_bootimage by done.
    destruct (extract_bootimg (image_of p) (out </> p) (files w))
      as [raised m1] eqn:Hcall.
    pose proof (bootimg_below (image_of p) (out </> p) (files w)) as Hb.
    rewrite Hcall in Hb. cbn [snd] in Hb.
    rewrite (copyfile_file _ _ c); cbn [after files trace].
    2:{ by rewrite Hb. } 2:{ done. } 2:{ by rewrite Hb. }
    2:{ unfold FS.parent_ok, FS.is_dir. rewrite parent_child, Hb by done.
        unfold FS.is_dir in Hout. done. }
    eexists _, _. split; [reflexivity|]. unfold after. cbn.
    split_and!; [by rewrite <- !app_assoc| |].
    + rewrite attempted_app, app_nil_r.
      destruct raised; reflexivity.
    + destruct raised as [e|]; [|done]. split; [by eexists|done].
  - (* a raw image: the copy *)
    rewrite turn_raw by done.
    rewrite (copyfile_file _ _ c); cbn [after files trace]; [|done..|].
    2:{ unfold FS.parent_ok. by rewrite parent_child. }
    eexists _, _. split; [reflexivity|]. unfold after. cbn.
    split_and!; [by rewrite <- !app_assoc|done..].
Qed.

Lemma turns_return partitions w :
  NoDup partitions → (∀ p, p ∈ partitions → p ∈ get_partition_names) →
  ready raw out partitions (files w) →
  ∃ w' evs,
    for_each partitions turn_of w = (Ret tt, w') ∧ trace w' = trace w ++ evs ∧
    attempted evs = expected_attempts raw (files w) partitions ∧
    failures_logged format_exception evs.
Proof.
  revert w. induction partitions as [|p l IH]; intros w Hnd Hsub [Hout Hready].
  { exists w, []. rewrite app_nil_r. by split_and!. }
  apply NoDup_cons in Hnd as [Hp Hnd].
  destruct (turn_returns p w) as (w1 & evs1 & Hturn & Ht1 & Ha1 & Hl1).
  { apply Hsub. by left. }
  { split; [done|]. intros ? ->%list_elem_of_singleton. apply Hready. by left. }
  assert (touches_only (extraction_may [p] out) (extraction_event raw out) w w1)
    as [Hf1 _].
  { eapply (extract_turns_confined _ _ _ raw out [p] bootimg_below sevenz_below).
    cbn [for_each]. unfold bind. rewrite Hturn. reflexivity. }
  assert (∀ x, files w1 !! (raw </> x) = files w !! (raw </> x)) as Himgs.
  { intros x. apply Hf1, image_not_written.
    intros ? ->%list_elem_of_singleton. apply Hsub. by left. }
  destruct (IH w1) as (w2 & evs2 & Hrun & Ht2 & Ha2 & Hl2); [done|..].
  { intros p' Hp'. apply Hsub. by right. }
  { split.
    - unfold FS.is_dir in *. rewrite Hf1; [done|apply out_not_written].
    - intros p' Hp'. destruct (Hready p') as [Hi Hc]; [by right|].
      rewrite Himgs. split; [done|]. rewrite Hf1; [done|].
      apply copy_not_written; [apply Hsub; by right|].
      intros ? ->%list_elem_of_singleton. split; [apply Hsub; by left|].
      by intros ->. }
  exists w2, (evs1 ++ evs2). cbn [for_each]. unfold bind. rewrite Hturn.
  split_and!; [done| | |by apply failures_logged_app].
  - by rewrite Ht2, Ht1, <- app_assoc.
  - rewrite attempted_app, Ha1, Ha2. unfold expected_attempts.
    cbn [omap list_omap]. unfold FS.exists_.
    assert (∀ l', omap (λ p0, match dict_get PARTITIONS p0 with
            | Some ty => if match files w1 !! image_of p0 with Some _ => true | None => false end
                            && negb (bool_decide (ty = RAW))
                         then Some (image_of p0) else None
            | None => None end) l'
         = omap (λ p0, match dict_get PARTITIONS p0 with
            | Some ty => if match files w !! image_of p0 with Some _ => true | None => false end
                            && negb (bool_decide (ty = RAW))
                         then Some (image_of p0) else None
            | None => None end) l') as ->.
    { intros l'. apply list_omap_ext, Forall2_same_length_lookup.
      split; [done|]. intros i x y Hx Hy. rewrite Hx in Hy. injection Hy as <-.
      by rewrite Himgs. }
    by destruct (dict_get PARTITIONS p) as [ty|];
      [destruct (_ && _)|].
Qed.


End ExtractionLoop.

(** ** C9 and C10: the orchestrator *)

Lemma bind_ret_inv {A B} (m : M A) (k : A → M B) w b w' :
  bind m k w = (Ret b, w') → ∃ a w1, m w = (Ret a, w1) ∧ k a w1 = (Ret b, w').
Proof.
  unfold bind. destruct (m w) as [[a|e] w1]; [|done]. intros H. by exists a, w1.
Qed.

Lemma emit_ret_inv ev w a w' :
  emit ev w = (Ret a, w') → files w' = files w ∧ trace w' = trace w ++ [ev].
Proof. by intros [= _ <-]. Qed.

Lemma call_ret_inv (f : collaborator) ev w a w' :
  call f ev w = (Ret a, w') →
  ∃ m', f (files w) = (None, m') ∧ files w' = m' ∧
        trace w' = trace w ++ [ev None].
Proof.
  unfold call. destruct (f (files w)) as [[e|] m']; [done|].
  intros [= _ <-]. by exists m'.
Qed.

Lemma os_mkdir_ret_inv p w a w' :
  Files.os_mkdir p w = (Ret a, w') →
  files w' = <[p := Dir]> (files w) ∧ trace w' = trace w.
Proof.
  unfold Files.os_mkdir, bind, get_files.
  destruct (FS.exists_ _ _); [done|].
  destruct (FS.is_dir _ _); [by intros [= _ <-]|].
  by destruct (FS.exists_ _ _).
Qed.

Lemma mkdir_ret_inv p w a w' :
  Files.mkdir p w = (Ret a, w') →
  files w' = <[p := Dir]> (files w) ∧ trace w' = trace w ++ [Mkdir p].
Proof.
  unfold Files.mkdir. intros (a0 & w1 & [Hf Ht]%emit_ret_inv & H)%bind_ret_inv.
  apply os_mkdir_ret_inv in H as [Hf' Ht']. by rewrite Hf', Ht', Hf, Ht.
Qed.

Lemma mkdir_parents_from_trace depth exist_ok p w r w' :
  Files.mkdir_parents_from depth exist_ok p w = (r, w') → trace w' = trace w.
Proof.
  revert exist_ok p w r w'. induction depth as [|depth IH];
    intros exist_ok p w r w'; cbn [Files.mkdir_parents_from];
    unfold bind at 1; unfold get_files at 1;
    (destruct (FS.exists_ _ _);
     [destruct (_ && _); by intros [= _ <-]|]);
    (destruct (FS.is_dir _ _); [by intros [= _ <-]|]);
    (destruct (FS.exists_ _ _); [by intros [= _ <-]|]);
    [by intros [= _ <-]|].
  unfold bind.
  destruct (Files.mkdir_parents_from depth true (Pathlib.parent p) w)
    as [[[]|e] w1] eqn:E; apply IH in E.
  - unfold Files.os_mkdir, bind, get_files.
    destruct (FS.exists_ _ _); [by intros [= _ <-]|].
    destruct (FS.is_dir _ _); [by intros [= _ <-]|].
    destruct (FS.exists_ _ _); by intros [= _ <-].
  - by intros [= _ <-].
Qed.

Lemma mkdir_parents_existing p w :
  FS.exists_ (files w) p = true →
  Files.mkdir_parents p w =
  (Raise (FS.oserror FileExistsError p), after w [Mkdir p] (files w)).
Proof.
  intros Hex. unfold Files.mkdir_parents, bind, emit.
  destruct (length p); cbn [Files.mkdir_parents_from files trace];
    unfold bind, get_files; cbn [files trace]; by rewrite Hex.
Qed.

Lemma write_text_ret_inv p text w a w' :
  Files.write_text p text w = (Ret a, w') →
  files w' = <[p := File text]> (files w) ∧
  trace w' = trace w ++ [WriteText p text].
Proof.
  unfold Files.write_text, bind, emit, get_files. cbn [files trace].
  destruct (files w !! p) as [[c|]|]; [|done|];
    (destruct (FS.parent_ok _ _); [|done]); by intros [= _ <-].
Qed.

Lemma rmtree_recursive_run p w :
  Files.rmtree_recursive p w =
  (Ret tt, after w [Rmtree p] (filter (λ kv, ¬ p `prefix_of` kv.1) (files w))).
Proof. reflexivity. Qed.

Lemma lookup_rmtree (p q : path) (m : filesystem) :
  filter (λ kv : path * node, ¬ p `prefix_of` kv.1) m !! q =
  if bool_decide (p `prefix_of` q) then None else m !! q.
Proof.
  case_bool_decide as H.
  - apply map_lookup_filter_None. right. intros x _ Hn. by apply Hn.
  - destruct (m !! q) as [x|] eqn:E.
    + by apply map_lookup_filter_Some.
    + apply map_lookup_filter_None. by left.
Qed.

Lemma temp_dirs_apart (path_ : path) :
  ¬ (path_ </> "temp_extracted_archive") `prefix_of` (path_ </> "temp_raw_images")
  ∧ ¬ (path_ </> "temp_raw_images") `prefix_of` (path_ </> "temp_extracted_archive").
Proof.
  split; intros H; apply prefix_length_eq in H; try (by rewrite !length_app);
    by apply child_inj in H.
Qed.

Section Orchestrator.

Variable step_1 : path → path → collaborator.
Variable step_2 : path → path → collaborator.
Variable step_3 : path → path → collaborator.
Variable get_recursive_files_list : filesystem → path → list path.
Variable sorted_strcoll : list path → list path.

Abbreviation run_dumpyara :=
  (dumpyara step_1 step_2 step_3 get_recursive_files_list sorted_strcoll).
Abbreviation run_steps := (dumpyara_steps step_1 step_2 step_3).
Abbreviation manifest_of := (manifest get_recursive_files_list sorted_strcoll).

(** The [finally] block: what it leaves and what it adds to the trace. *)
Lemma dumpyara_cleanup_run path_ debug w :
  ∃ w', dumpyara_cleanup path_ debug w = (Ret tt, w') ∧
    (debug = true → w' = w) ∧
    (∀ q, ¬ (path_ </> "temp_extracted_archive") `prefix_of` q →
          ¬ (path_ </> "temp_raw_images") `prefix_of` q →
          files w' !! q = files w !! q) ∧
    (debug = false →
       files w' !! (path_ </> "temp_extracted_archive") = None ∧
       files w' !! (path_ </> "temp_raw_images") = None) ∧
    trace w' = trace w
      ++ (if debug then []
          else (if FS.exists_ (files w) (path_ </> "temp_extracted_archive")
                then [Rmtree (path_ </> "temp_extracted_archive")] else [])
               ++ (if FS.exists_ (files w) (path_ </> "temp_raw_images")
                   then [Rmtree (path_ </> "temp_raw_images")] else [])).
Proof.
  destruct (temp_dirs_apart path_) as [Hea Hae].
  unfold dumpyara_cleanup. destruct debug; cbn [negb].
  { exists w. rewrite app_nil_r. by split_and!. }
  unfold bind at 1. unfold bind at 1. unfold FS.path_exists at 1.
  unfold bind at 1, get_files at 1, ret at 1.
  destruct (FS.exists_ (files w) (path_ </> "temp_extracted_archive")) eqn:He.
  - rewrite rmtree_recursive_run.
    unfold FS.path_exists, bind, get_files, ret. cbn [files trace after].
    unfold FS.exists_ at 1. rewrite lookup_rmtree.
    rewrite bool_decide_eq_false_2 by done. fold (FS.exists_ (files w) (path_ </> "temp_raw_images")).
    destruct (FS.exists_ (files w) (path_ </> "temp_raw_images")) eqn:Hr.
    + rewrite rmtree_recursive_run. eexists. split; [reflexivity|].
      cbn [files trace after]. split_and!; [done| | |by rewrite <- app_assoc].
      * intros q H1 H2. rewrite !lookup_rmtree.
        by rewrite !bool_decide_eq_false_2.
      * intros _. rewrite !lookup_rmtree.
        rewrite (bool_decide_eq_false_2 _ Hae).
        rewrite !bool_decide_eq_true_2 by done. done.
    + eexists. split; [reflexivity|].
      cbn [files trace after]. split_and!; [done| | |by rewrite app_nil_r].
      * intros q H1 H2. rewrite lookup_rmtree.
        by rewrite bool_decide_eq_false_2.
      * intros _. rewrite !lookup_rmtree.
        rewrite bool_decide_eq_true_2 by done.
        rewrite bool_decide_eq_false_2 by done.
        unfold FS.exists_ in Hr. by destruct (files w !! _).
  - unfold FS.path_exists, bind, get_files, ret.
    destruct (FS.exists_ (files w) (path_ </> "temp_raw_images")) eqn:Hr.
    + rewrite rmtree_recursive_run. eexists. split; [reflexivity|].
      cbn [files trace after]. split_and!; [done| | |done].
      * intros q H1 H2. rewrite lookup_rmtree.
        by rewrite bool_decide_eq_false_2.
      * intros _. rewrite !lookup_rmtree.
        rewrite bool_decide_eq_false_2 by done.
        rewrite bool_decide_eq_true_2 by done.
        unfold FS.exists_ in He. by destruct (files w !! _).
    + exists w. split_and!; [done..| |by rewrite app_nil_r].
      intros _. unfold FS.exists_ in He, Hr.
      by destruct (files w !! _), (files w !! _).
Qed.

(** C9 (amended).  When the output directory exists already, [dumpyara]
    raises [FileExistsError] at the first [mkdir]; no step runs and
    nothing is written; with [debug] the file system is left as it was,
    and without [debug] the [finally] block still removes the
    directories [temp_extracted_archive] and [temp_raw_images] that the
    existing output directory may hold, leaving all the rest as it
    was. *)
Theorem existing_output_directory_raises
    (file output_path : path) (debug : bool) (w : world) :
  FS.exists_ (files w) (output_dir file output_path) = true →
  ∃ w' evs,
    run_dumpyara file output_path debug w =
      (Raise (FS.oserror FileExistsError (output_dir file output_path)), w') ∧
    trace w' = trace w ++ Mkdir (output_dir file output_path) :: evs ∧
    Forall (λ ev, ∃ p, ev = Rmtree p) evs ∧
    (debug = true → files w' = files w) ∧
    (∀ q, ¬ (output_dir file output_path </> "temp_extracted_archive") `prefix_of` q →
          ¬ (output_dir file output_path </> "temp_raw_images") `prefix_of` q →
          files w' !! q = files w !! q) ∧
    (debug = false →
       files w' !! (output_dir file output_path </> "temp_extracted_archive") = None ∧
       files w' !! (output_dir file output_path </> "temp_raw_images") = None).
Proof.
  intros Hex. set (path_ := output_dir file output_path) in *.
  unfold dumpyara, try_finally. fold path_.
  unfold bind at 1. unfold dumpyara_steps at 1. unfold bind at 1.
  rewrite mkdir_parents_existing by done.
  destruct (dumpyara_cleanup_run path_ debug (after w [Mkdir path_] (files w)))
    as (w' & Hrun & Hdebug & Hframe & Hgone & Ht).
  rewrite Hrun. eexists w', _. split; [reflexivity|].
  cbn [files trace after] in *. split_and!; [|  |  |done|done].
  - rewrite Ht, <- app_assoc. reflexivity.
  - destruct debug; [done|]. apply Forall_app_2;
      [destruct (FS.exists_ (files w) (path_ </> "temp_extracted_archive"))
      |destruct (FS.exists_ (files w) (path_ </> "temp_raw_images"))];
      repeat constructor; by eexists.
  - intros Hd. by rewrite (Hdebug Hd).
Qed.

Lemma is_dir_insert_other (m : filesystem) (p q : path) x :
  FS.is_dir m q = true → p ≠ q → FS.is_dir (<[p := x]> m) q = true.
Proof. intros H Hne. unfold FS.is_dir in *. by rewrite lookup_insert_ne. Qed.

(** The [try] block up to step 3, when it returns: both temporary
    directories exist, and nothing was removed. *)
Lemma dumpyara_steps_ret file path_ w w3 :
  keeps_temp_dirs path_ (step_1 file (path_ </> "temp_extracted_archive")) →
  keeps_temp_dirs path_
    (step_2 (path_ </> "temp_extracted_archive") (path_ </> "temp_raw_images")) →
  keeps_temp_dirs path_ (step_3 (path_ </> "temp_raw_images") path_) →
  run_steps file path_ w = (Ret tt, w3) →
  FS.is_dir (files w3) (path_ </> "temp_extracted_archive") = true ∧
  FS.is_dir (files w3) (path_ </> "temp_raw_images") = true ∧
  ∃ evs, trace w3 = trace w ++ evs ∧ ∀ ev q, ev ∈ evs → ev ≠ Rmtree q.
Proof.
  intros K1 K2 K3 Hrun. unfold dumpyara_steps in Hrun.
  apply bind_ret_inv in Hrun as ([] & wa & Ha & Hrun).
  apply bind_ret_inv in Hrun as ([] & wb & Hb & Hrun).
  apply bind_ret_inv in Hrun as ([] & wc & Hc & Hrun).
  apply bind_ret_inv in Hrun as ([] & wd & Hd & Hrun).
  apply bind_ret_inv in Hrun as ([] & we & He & Hrun).
  apply bind_ret_inv in Hrun as ([] & wf & Hf & Hrun).
  apply bind_ret_inv in Hrun as ([] & wg & Hg & Hrun).
  apply bind_ret_inv in Hrun as ([] & wh & Hh & Hrun).
  unfold Files.mkdir_parents in Ha.
  apply bind_ret_inv in Ha as ([] & wa0 & [_ Hta0]%emit_ret_inv & Ha).
  apply mkdir_parents_from_trace in Ha.
  apply mkdir_ret_inv in Hb as [Hfb Htb].
  apply mkdir_ret_inv in Hc as [Hfc Htc].
  apply emit_ret_inv in Hd as [Hfd Htd].
  apply call_ret_inv in He as (m1 & Hs1 & Hfe & Hte).
  apply emit_ret_inv in Hf as [Hff Htf].
  apply call_ret_inv in Hg as (m2 & Hs2 & Hfg & Htg).
  apply emit_ret_inv in Hh as [Hfh Hth].
  apply call_ret_inv in Hrun as (m3 & Hs3 & Hf3 & Ht3).
  assert (FS.is_dir (files wd) (path_ </> "temp_extracted_archive") = true
          ∧ FS.is_dir (files wd) (path_ </> "temp_raw_images") = true) as [D1 D2].
  { rewrite Hfd, Hfc, Hfb. split.
    - apply is_dir_insert_other; [|by intros ?%child_inj].
      unfold FS.is_dir. by rewrite lookup_insert_eq.
    - unfold FS.is_dir. by rewrite lookup_insert_eq. }
  destruct (K1 _ _ Hs1) as [E1 E2].
  destruct (K2 _ _ Hs2) as [F1 F2].
  destruct (K3 _ _ Hs3) as [G1 G2].
  rewrite <- Hfe in E1, E2. rewrite <- Hff in E1, E2.
  rewrite <- Hfg in F1, F2. rewrite <- Hfh in F1, F2.
  rewrite <- Hf3 in G1, G2.
  split_and!; [by auto|by auto|].
  eexists. split.
  - rewrite Ht3, Hth, Htg, Htf, Hte, Htd, Htc, Htb, Ha, Hta0.
    rewrite <- !app_assoc. reflexivity.
  - intros ev q Hin. cbn in Hin.
    repeat (apply elem_of_cons in Hin as [->|Hin]; [done|]).
    by apply not_elem_of_nil in Hin.
Qed.

(** C10.  With steps that leave the temporary directories in place, a
    run of [dumpyara] that returns has gone through the [try] block up
    to step 3 into a world [w3] in which both temporary directories
    exist and nothing was removed; the listing of the output directory
    and the manifest [all_files.txt] are computed from the files of
    [w3], and the temporary directories are removed only after the
    manifest was written, by the [finally] block, unless [debug] is
    set. *)
Theorem manifest_before_cleanup
    (file output_path : path) (debug : bool) (w w' : world) (p : path) :
  let path_ := output_dir file output_path in
  keeps_temp_dirs path_ (step_1 file (path_ </> "temp_extracted_archive")) →
  keeps_temp_dirs path_
    (step_2 (path_ </> "temp_extracted_archive") (path_ </> "temp_raw_images")) →
  keeps_temp_dirs path_ (step_3 (path_ </> "temp_raw_images") path_) →
  run_dumpyara file output_path debug w = (Ret p, w') →
  p = path_ ∧
  ∃ w3 evs,
    run_steps file path_ w = (Ret tt, w3) ∧
    trace w3 = trace w ++ evs ∧ (∀ ev q, ev ∈ evs → ev ≠ Rmtree q) ∧
    FS.is_dir (files w3) (path_ </> "temp_extracted_archive") = true ∧
    FS.is_dir (files w3) (path_ </> "temp_raw_images") = true ∧
    trace w' = trace w3
      ++ [ LOGI "Step 4 - Finalizing";
           ListFiles path_;
           LOGI "Creating all_files.txt";
           WriteText (path_ </> "all_files.txt") (manifest_of (files w3) path_) ]
      ++ (if debug then []
          else [ Rmtree (path_ </> "temp_extracted_archive");
                 Rmtree (path_ </> "temp_raw_images") ]).
Proof.
  intros path_ K1 K2 K3 Hrun. unfold dumpyara, try_finally in Hrun.
  fold path_ in Hrun.
  destruct ((dumpyara_steps step_1 step_2 step_3 file path_ >>
             dumpyara_finalize get_recursive_files_list sorted_strcoll path_) w)
    as [r w4] eqn:Htry.
  destruct (dumpyara_cleanup_run path_ debug w4)
    as (w5 & Hclean & _ & _ & _ & Ht5).
  rewrite Hclean in Hrun. injection Hrun as -> ->.
  apply bind_ret_inv in Htry as ([] & w3 & Hsteps & Hfin).
  destruct (dumpyara_steps_ret _ _ _ _ K1 K2 K3 Hsteps) as (D1 & D2 & evs & Ht3 & Hno).
  unfold dumpyara_finalize in Hfin.
  apply bind_ret_inv in Hfin as ([] & wa & [Hfa Hta]%emit_ret_inv & Hfin).
  apply bind_ret_inv in Hfin as ([] & wb & [Hfb Htb]%emit_ret_inv & Hfin).
  apply bind_ret_inv in Hfin as (m & wc & Hget & Hfin).
  injection Hget as <- <-.
  apply bind_ret_inv in Hfin as ([] & wd & [Hfd Htd]%emit_ret_inv & Hfin).
  apply bind_ret_inv in Hfin as ([] & we & [Hfe Hte]%write_text_ret_inv & Hfin).
  injection Hfin as <- <-.
  split; [done|]. exists w3, evs. split_and!; [done..|].
  assert (files wb = files w3) as Hm by by rewrite Hfb, Hfa.
  rewrite Ht5, Hte, Htd, Htb, Hta, Hm, <- !app_assoc. cbn [app].
  do 5 f_equal. destruct debug; [done|].
  assert (∀ q, q ≠ path_ </> "all_files.txt" →
               FS.exists_ (files we) q = FS.exists_ (files w3) q) as Hex.
  { intros q Hq. unfold FS.exists_. rewrite Hfe, lookup_insert_ne by done.
    by rewrite Hfd, Hm. }
  rewrite !Hex by (by intros ?%child_inj).
  unfold FS.is_dir in D1, D2. unfold FS.exists_.
  destruct (files w3 !! (path_ </> "temp_extracted_archive")); [|done].
  by destruct (files w3 !! (path_ </> "temp_raw_images")).
Qed.




(** Without [debug], whatever the [try] block did, returning or
    raising, [dumpyara] leaves neither temporary directory behind. *)
Theorem temp_dirs_removed_without_debug (file output_path : path) (w : world) :
  files (run_dumpyara file output_path false w).2
    !! (output_dir file output_path </> "temp_extracted_archive") = None ∧
  files (run_dumpyara file output_path false w).2
    !! (output_dir file output_path </> "temp_raw_images") = None.
Proof.
  unfold dumpyara, try_finally.
  destruct ((dumpyara_steps step_1 step_2 step_3 file
               (output_dir file output_path) >>
             dumpyara_finalize get_recursive_files_list sorted_strcoll
               (output_dir file output_path)) w) as [r w4].
  destruct (dumpyara_cleanup_run (output_dir file output_path) false w4)
    as (w5 & Hclean & _ & _ & Hgone & _).
  rewrite Hclean. destruct r; by apply Hgone.
Qed.

End Orchestrator.

(** ** Closed runs *)

Lemma run_returned {A} (run : result A * world) (a : A) :
  run.1 = Ret a → run = (Ret a, run.2).
Proof. destruct run as [r w]. simpl. by intros ->. Qed.

Lemma run_raised {A} (run : result A * world) (e : exn) :
  run.1 = Raise e → run = (Raise e, run.2).
Proof. destruct run as [r w]. simpl. by intros ->. Qed.

Lemma is_file_listed (m : filesystem) p :
  FS.is_file m p = true → p ∈ regular_files m.
Proof.
  intros [c Hc]%is_file_lookup. apply list_elem_of_omap.
  exists (p, File c). split; [by apply elem_of_map_to_list|done].
Qed.


(** A directory with at most one regular file has no dual slot. *)
Lemma dual_slot_free_single (m : filesystem) (d : path) :
  (∀ x y, FS.is_file m (d </> x) = true → FS.is_file m (d </> y) = true → x = y) →
  dual_slot_free m d.
Proof.
  intros Hone token suffixes _ _ HA HB. specialize (Hone _ _ HA HB).
  apply (inj (String.app token)) in Hone. discriminate Hone.
Qed.

(** *** C1 *)

(** C1, on [boot-verified.img] next to [boot.img]: the alias is deleted,
    [boot.img] is kept, and [fix_aliases] raises. *)
Lemma fix_aliases_collision_run :
  (fix_aliases example_staging alias_collision).1
  = Raise (FS.oserror FileNotFoundError (example_staging </> "boot-verified.img"))
  ∧ files (fix_aliases example_staging alias_collision).2
      !! (example_staging </> "boot-verified.img") = None
  ∧ files (fix_aliases example_staging alias_collision).2
      !! (example_staging </> "boot.img") = Some (File "BOOT").
Proof.
  rewrite (fix_aliases_collision_raises example_staging alias_collision
             "VERIFIED" "BOOT"); [|by vm_compute..].
  split_and!; [done|by vm_compute..].
Defined.

(** *** C6 *)

(** C6, on a staging directory that holds [system.img] and
    [system_b.img], the slot file being listed first. *)
Lemma redundant_slot_run :
  files (correct_ab_filenames ["system_b.img"; "system.img"]
           example_staging redundant_b).2
    !! (example_staging </> "system_b.img") = None
  ∧ files (correct_ab_filenames ["system_b.img"; "system.img"]
             example_staging redundant_b).2
      !! (example_staging </> "system.img") = Some (File "SYSTEM")
  ∧ ∃ evs,
      trace (correct_ab_filenames ["system_b.img"; "system.img"]
               example_staging redundant_b).2
      = trace redundant_b ++ evs
      ∧ Unlink (example_staging </> "system_b.img") ∈ evs
      ∧ ∀ ev, ev ∈ evs → example_staging </> "system.img" ∉ event_paths ev.
Proof.
  apply (redundant_slot_deleted_unslotted_kept example_staging
           ["system_b.img"; "system.img"] redundant_b).
  - apply listing_check_sound. by vm_compute.
  - by vm_compute.
  - by vm_compute.
  - apply run_returned. by vm_compute.
Defined.

(** *** C3 *)

(** C3 as stated fails when the listing yields [boot_a.img] first: the
    run completes, [boot.img] holds the content of [boot_a.img], and
    [boot_b.img] is gone. *)
Lemma dual_slot_b_deleted_when_a_listed_first :
  "boot" ∈ get_partition_names_with_alias
  ∧ listing (files dual_slot) example_staging ["boot_a.img"; "boot_b.img"]
  ∧ files dual_slot !! (example_staging </> "boot_a.img") = Some (File "SLOT A")
  ∧ files dual_slot !! (example_staging </> "boot_b.img") = Some (File "SLOT B")
  ∧ files dual_slot !! (example_staging </> "boot.img") = None
  ∧ (correct_ab_filenames ["boot_a.img"; "boot_b.img"] example_staging dual_slot).1
    = Ret tt
  ∧ files (correct_ab_filenames ["boot_a.img"; "boot_b.img"]
             example_staging dual_slot).2
      !! (example_staging </> "boot.img") = Some (File "SLOT A")
  ∧ files (correct_ab_filenames ["boot_a.img"; "boot_b.img"]
             example_staging dual_slot).2
      !! (example_staging </> "boot_b.img") = None.
Proof.
  split_and!; try by vm_compute.
  - apply (bool_decide_unpack _). by vm_compute.
  - apply listing_check_sound. by vm_compute.
Qed.

(** C3 (amended), on [boot_a.img] and [boot_b.img] with [boot_b.img]
    listed first: [boot_a.img] is promoted and [boot_b.img] stays. *)
Lemma dual_slot_b_kept_when_b_listed_first :
  files (correct_ab_filenames ["boot_b.img"; "boot_a.img"]
           example_staging dual_slot).2
    !! (example_staging </> "boot.img") = Some (File "SLOT A")
  ∧ files (correct_ab_filenames ["boot_b.img"; "boot_a.img"]
             example_staging dual_slot).2
      !! (example_staging </> "boot_a.img") = None
  ∧ files (correct_ab_filenames ["boot_b.img"; "boot_a.img"]
             example_staging dual_slot).2
      !! (example_staging </> "boot_b.img") = Some (File "SLOT B").
Proof.
  apply (dual_slot_promotes_a example_staging "boot"
           ["boot_b.img"; "boot_a.img"] dual_slot _ "SLOT A" "SLOT B").
  - apply (bool_decide_unpack _). by vm_compute.
  - apply listing_check_sound. by vm_compute.
  - by vm_compute.
  - by vm_compute.
  - by vm_compute.
  - apply run_returned. by vm_compute.
Defined.

(** *** C7 *)

(** C7 as stated fails on the dual-slot directory when the first listing
    yields [boot_b.img] first: the first run leaves [boot_b.img] next to
    [boot.img], and the second run deletes it. *)
Lemma second_run_deletes_orphan :
  listing (files dual_slot) example_staging ["boot_b.img"; "boot_a.img"]
  ∧ (correct_ab_filenames ["boot_b.img"; "boot_a.img"] example_staging dual_slot).1
    = Ret tt
  ∧ listing
      (files (correct_ab_filenames ["boot_b.img"; "boot_a.img"]
                example_staging dual_slot).2)
      example_staging ["boot.img"; "boot_b.img"]
  ∧ files (correct_ab_filenames ["boot_b.img"; "boot_a.img"]
             example_staging dual_slot).2
      !! (example_staging </> "boot_b.img") = Some (File "SLOT B")
  ∧ (correct_ab_filenames ["boot.img"; "boot_b.img"] example_staging
       (correct_ab_filenames ["boot_b.img"; "boot_a.img"]
          example_staging dual_slot).2).1 = Ret tt
  ∧ files (correct_ab_filenames ["boot.img"; "boot_b.img"] example_staging
             (correct_ab_filenames ["boot_b.img"; "boot_a.img"]
                example_staging dual_slot).2).2
      !! (example_staging </> "boot_b.img") = None
  ∧ Unlink (example_staging </> "boot_b.img")
      ∈ trace (correct_ab_filenames ["boot.img"; "boot_b.img"] example_staging
                 (correct_ab_filenames ["boot_b.img"; "boot_a.img"]
                    example_staging dual_slot).2).2.
Proof.
  split_and!; try by vm_compute.
  - apply listing_check_sound. by vm_compute.
  - apply listing_check_sound. by vm_compute.
  - apply (bool_decide_unpack _). by vm_compute.
Qed.

(** C7 (amended), on a staging directory that holds [vendor_a.img]
    only: the second run, over [vendor.img], does nothing but log. *)
Lemma single_slot_second_run_idle :
  ∃ logs,
    correct_ab_filenames ["vendor.img"] example_staging
      (correct_ab_filenames ["vendor_a.img"] example_staging single_slot).2
    = (Ret tt,
       after (correct_ab_filenames ["vendor_a.img"] example_staging single_slot).2
         logs
         (files (correct_ab_filenames ["vendor_a.img"] example_staging
                   single_slot).2))
    ∧ forallb is_log logs = true.
Proof.
  apply (slot_resolver_idempotent_without_dual_slots example_staging
           ["vendor_a.img"] ["vendor.img"] single_slot).
  - apply listing_check_sound. by vm_compute.
  - apply dual_slot_free_single. intros x y Hx%is_file_listed Hy%is_file_listed.
    vm_compute in Hx, Hy.
    apply list_elem_of_singleton in Hx, Hy.
    injection Hx as ->. by injection Hy as ->.
  - apply run_returned. by vm_compute.
Defined.

(** *** Collaborators for closed runs *)

Lemma example_bootimg_below image : writes_below (example_bootimg image).
Proof.
  intros dest m q Hq. unfold example_bootimg. case_bool_decide; [done|].
  cbn [snd]. rewrite !lookup_insert_ne; [done|..]; intros <-; apply Hq;
    [reflexivity|by eexists].
Qed.

Lemma example_sevenz_below image :
  writes_below (λ dest, example_sevenz (SevenzX image dest)).
Proof.
  intros dest m q Hq. unfold example_sevenz. cbn [sz_out_dir].
  case_bool_decide; cbn [snd]; rewrite !lookup_insert_ne; try done;
    intros <-; apply Hq; try reflexivity; by eexists.
Qed.

Lemma example_sevenz_exit_only cmd m e :
  (example_sevenz cmd m).1 = Some e → exn_cls e = CalledProcessError.
Proof.
  unfold example_sevenz. case_bool_decide; cbn [fst]; [|done]. by intros [= <-].
Qed.

Lemma example_staging_apart p :
  p ∈ get_partition_names → ¬ (example_output </> p) `prefix_of` example_staging.
Proof.
  intros Hp Hpre. apply prefix_length_eq in Hpre; [|done].
  injection Hpre as ->. apply (bool_decide_pack _) in Hp. by vm_compute in Hp.
Qed.



(** *** C5 *)

(** C5, on [boot], [recovery] (whose unpacking raises), [dtbo],
    [product] (whose extraction fails) and [system]. *)
Lemma bootimage_copy_run :
  (∀ p c,
      dict_get PARTITIONS p = Some BOOTIMAGE →
      files extraction_input !! (example_staging </> (p +:+ ".img")) = Some (File c) →
      files (extract_partitions example_bootimg example_sevenz
               example_format_exception example_staging example_output
               extraction_input).2
        !! (example_output </> (p +:+ ".img")) = Some (File c) ∧
      ∃ before raised after_,
        trace (extract_partitions example_bootimg example_sevenz
                 example_format_exception example_staging example_output
                 extraction_input).2
        = trace extraction_input ++ before
          ++ [CallBootimg (example_staging </> (p +:+ ".img"))
                (example_output </> p) raised]
          ++ bootimg_failure_logs example_format_exception
               (example_staging </> (p +:+ ".img")) raised
          ++ [CopyFile (example_staging </> (p +:+ ".img"))
                (example_output </> (p +:+ ".img"))]
          ++ after_) ∧
  (∀ p, dict_get PARTITIONS p = Some FILESYSTEM →
        ∃ evs,
          trace (extract_partitions example_bootimg example_sevenz
                   example_format_exception example_staging example_output
                   extraction_input).2
          = trace extraction_input ++ evs ∧
          ∀ src, CopyFile src (example_output </> (p +:+ ".img")) ∉ evs).
Proof.
  apply (bootimage_raw_image_copied example_bootimg example_sevenz
           example_format_exception example_staging example_output).
  - apply example_bootimg_below.
  - apply example_sevenz_below.
  - done.
  - apply example_staging_apart.
  - apply run_returned. by vm_compute.
Defined.

(** *** C2 *)



(** *** C8 *)

(** C8, for [userdata_a.img]: [userdata] is not in the registry. *)
Lemma unknown_token_run :
  (∀ d entries w r w',
      correct_ab_filenames entries d w = (r, w') →
      untouched d "userdata_a.img" w w') ∧
  (∀ d w r w', fix_aliases d w = (r, w') → untouched d "userdata_a.img" w w') ∧
  (∀ extract_bootimg sevenz format_exception raw out w r w',
      extract_partitions extract_bootimg sevenz format_exception raw out w
      = (r, w') →
      (∃ evs, trace w' = trace w ++ evs ∧
              ∀ ev, ev ∈ evs → out </> "userdata_a.img" ∉ event_paths ev) ∧
      ((∀ image, writes_below (extract_bootimg image)) →
       (∀ image, writes_below (λ dest, sevenz (SevenzX image dest))) →
       ∀ q, (out </> "userdata_a.img") `prefix_of` q →
            files w' !! q = files w !! q)).
Proof.
  apply (unknown_token_untouched "userdata_a.img").
  intros H%(bool_decide_pack _). by vm_compute in H.
Defined.

(** *** Steps for closed runs *)

Lemma example_steps_keep (path_ : path) :
  keeps_temp_dirs path_
    (example_step_1 example_firmware (path_ </> "temp_extracted_archive")) ∧
  keeps_temp_dirs path_
    (example_step_2 (path_ </> "temp_extracted_archive") (path_ </> "temp_raw_images")) ∧
  keeps_temp_dirs path_ (example_step_3 (path_ </> "temp_raw_images") path_).
Proof.
  split_and!; intros m m' [= <-]; split; intros H;
    apply is_dir_insert_other; try done; intros E;
    first [ by apply app_inj_tail in E as [_ [=]]
          | apply (f_equal length) in E; rewrite !length_app in E;
            simpl in E; lia ].
Qed.

(** *** C9 *)

(** C9 as stated fails on the contents of an existing output directory:
    with [out/fw] holding [temp_raw_images/boot.img] and [debug] unset,
    [dumpyara] raises [FileExistsError] and the [finally] block removes
    that directory and the image in it. *)
Lemma existing_output_directory_loses_temp_dirs :
  files (staged [("boot.img", "BOOT")]) !! (example_staging </> "boot.img")
  = Some (File "BOOT")
  ∧ (dumpyara example_step_1 example_step_2 example_step_3 example_files_list
       example_sorted example_firmware example_root false
       (staged [("boot.img", "BOOT")])).1
    = Raise (FS.oserror FileExistsError example_output)
  ∧ files (dumpyara example_step_1 example_step_2 example_step_3
             example_files_list example_sorted example_firmware example_root
             false (staged [("boot.img", "BOOT")])).2
      !! (example_staging </> "boot.img") = None
  ∧ files (dumpyara example_step_1 example_step_2 example_step_3
             example_files_list example_sorted example_firmware example_root
             false (staged [("boot.img", "BOOT")])).2
      !! example_staging = None.
Proof. split_and!; by vm_compute. Qed.

(** C9 (amended), on the same output directory. *)
Lemma existing_output_directory_run :
  ∃ w' evs,
    dumpyara example_step_1 example_step_2 example_step_3 example_files_list
      example_sorted example_firmware example_root false
      (staged [("boot.img", "BOOT")])
    = (Raise (FS.oserror FileExistsError
                (output_dir example_firmware example_root)), w') ∧
    trace w' = trace (staged [("boot.img", "BOOT")])
               ++ Mkdir (output_dir example_firmware example_root) :: evs ∧
    Forall (λ ev, ∃ p, ev = Rmtree p) evs ∧
    (false = true → files w' = files (staged [("boot.img", "BOOT")])) ∧
    (∀ q, ¬ (output_dir example_firmware example_root </> "temp_extracted_archive")
              `prefix_of` q →
          ¬ (output_dir example_firmware example_root </> "temp_raw_images")
              `prefix_of` q →
          files w' !! q = files (staged [("boot.img", "BOOT")]) !! q) ∧
    (false = false →
       files w' !! (output_dir example_firmware example_root
                    </> "temp_extracted_archive") = None ∧
       files w' !! (output_dir example_firmware example_root
                    </> "temp_raw_images") = None).
Proof.
  apply (existing_output_directory_raises example_step_1 example_step_2
           example_step_3 example_files_list example_sorted example_firmware
           example_root false (staged [("boot.img", "BOOT")])).
  by vm_compute.
Defined.

(** *** C10 *)

(** C10, for [fw.zip] dumped into an empty [out]. *)
Lemma manifest_before_cleanup_run :
  example_output = output_dir example_firmware example_root ∧
  ∃ w3 evs,
    dumpyara_steps example_step_1 example_step_2 example_step_3
      example_firmware example_output empty_root = (Ret tt, w3) ∧
    trace w3 = trace empty_root ++ evs ∧ (∀ ev q, ev ∈ evs → ev ≠ Rmtree q) ∧
    FS.is_dir (files w3) (example_output </> "temp_extracted_archive") = true ∧
    FS.is_dir (files w3) (example_output </> "temp_raw_images") = true ∧
    trace (dumpyara example_step_1 example_step_2 example_step_3
             example_files_list example_sorted example_firmware example_root
             false empty_root).2
    = trace w3
      ++ [ LOGI "Step 4 - Finalizing";
           ListFiles example_output;
           LOGI "Creating all_files.txt";
           WriteText (example_output </> "all_files.txt")
             (manifest example_files_list example_sorted (files w3) example_output) ]
      ++ [ Rmtree (example_output </> "temp_extracted_archive");
           Rmtree (example_output </> "temp_raw_images") ].
Proof.
  apply (manifest_before_cleanup example_step_1 example_step_2 example_step_3
           example_files_list example_sorted example_firmware example_root
           false empty_root _ example_output).
  - apply example_steps_keep.
  - apply example_steps_keep.
  - apply example_steps_keep.
  - apply run_returned. by vm_compute.
Defined.

(** *** C4 *)



(** * Further properties of the code

    ** Names: partitions, aliases, slots and file names *)

Section FileNames.

Import Str StrFacts.





Lemma dict_get_Some_elem {V} (dict : list (string * V)) k v :
  dict_get dict k = Some v → (k, v) ∈ dict.
Proof.
  induction dict as [|[k' v'] dict IH]; [done|]. cbn [dict_get].
  destruct (String.eqb_spec k' k) as [->|_].
  - intros [= ->]. apply elem_of_cons. by left.
  - intros H. apply elem_of_cons. right. by apply IH.
Qed.

Lemma dict_get_None_notin {V} (dict : list (string * V)) k :
  dict_get dict k = None → k ∉ map fst dict.
Proof.
  induction dict as [|[k' v'] dict IH]; [intros _; apply not_elem_of_nil|].
  cbn [dict_get]. destruct (String.eqb_spec k' k) as [->|Hne]; [done|].
  intros H. apply not_elem_of_cons. split; [done|by apply IH].
Qed.

(** [get_partition_name] resolves once: its result is its own
    resolution, and a name is a partition or an alias exactly when it
    resolves to a partition of the registry. *)
Theorem get_partition_name_resolves (partition_name : string) :
  get_partition_name (get_partition_name partition_name)
  = get_partition_name partition_name ∧
  (partition_name ∈ get_partition_names_with_alias ↔
   get_partition_name partition_name ∈ get_partition_names).
Proof.
  unfold get_partition_name.
  destruct (dict_get ALTERNATIVE_PARTITION_NAMES partition_name) as [name|] eqn:E.
  - apply dict_get_Some_elem in E. unfold ALTERNATIVE_PARTITION_NAMES in E.
    repeat (apply elem_of_cons in E as [[= -> ->]|E];
            [split; [done|];
             split; intros _; apply (bool_decide_unpack _); by vm_compute|]).
    by apply not_elem_of_nil in E.
  - cbn [default]. rewrite E. split; [done|].
    apply dict_get_None_notin in E.
    unfold get_partition_names_with_alias. rewrite elem_of_app.
    split; [by intros [H|H]|by left].
Qed.

Lemma with_ab_cases n :
  n ∈ get_partition_names_with_ab →
  ∃ p s, p ∈ get_partition_names_with_alias ∧ n = p +:+ slot_suffix s.
Proof.
  unfold get_partition_names_with_ab.
  intros (p & Hp & Hn)%list_elem_of_In%in_flat_map.
  apply list_elem_of_In in Hp. exists p.
  destruct Hn as [<-|[<-|[<-|[]]]].
  - exists Unslotted. by rewrite append_nil_r.
  - by exists SlotA.
  - by exists SlotB.
Qed.

(** Every image name [prepare_raw_images] asks for is read back by
    [correct_ab_filenames] as the partition and the slot it was built
    from: its suffixes are [.img], its token is the partition or alias,
    and it is taken for a slot file exactly when it has a slot. *)
Theorem raw_image_names_parsed (n : string) :
  n ∈ get_partition_names_with_ab →
  ∃ p s,
    p ∈ get_partition_names_with_alias ∧
    n +:+ ".img" = slotted_name p s ".img" ∧
    get_filename_suffixes (n +:+ ".img") = ".img" ∧
    token_of (n +:+ ".img") = p ∧
    classify (n +:+ ".img")
    = if decide (s = Unslotted) then None else Some (p, ".img").
Proof.
  intros (p & s & Hp & ->)%with_ab_cases. exists p, s.
  destruct img_suffixes as [Himg _].
  assert ((p +:+ slot_suffix s) +:+ ".img" = slotted_name p s ".img") as ->
      by (unfold slotted_name; by rewrite append_assoc).
  split_and!; [done|done| | |].
  - by apply suffixes_slotted_name.
  - by apply token_of_slotted_name.
  - by apply classify_slotted_name.
Qed.

Lemma raw_image_names_parsed_system_b :
  ∃ p s,
    p ∈ get_partition_names_with_alias ∧
    "system_b" +:+ ".img" = slotted_name p s ".img" ∧
    get_filename_suffixes ("system_b" +:+ ".img") = ".img" ∧
    token_of ("system_b" +:+ ".img") = p ∧
    classify ("system_b" +:+ ".img")
    = if decide (s = Unslotted) then None else Some (p, ".img").
Proof.
  apply (raw_image_names_parsed "system_b").
  apply (bool_decide_unpack _). by vm_compute.
Defined.

End FileNames.

(** ** [prepare_raw_images] *)

Section RawImagesFacts.

Variable get_raw_image : string → path → path → collaborator.
Variables files_path raw : path.

Hypothesis output_only :
  ∀ partition_name, writes_below (get_raw_image partition_name files_path).

Lemma confined_run (may : path → Prop) (f : collaborator) :
  (∀ m q, ¬ may q → (f m).2 !! q = m !! q) →
  confined may (λ _, False) (run f).
Proof.
  intros Hf w r w'. unfold run.
  destruct (f (files w)) as [raised m'] eqn:E. intros [= _ <-]. split.
  - intros q Hq. cbn [files]. by rewrite <- (Hf (files w) q Hq), E.
  - exists []. cbn [trace]. by rewrite app_nil_r.
Qed.

Lemma prepare_raw_images_confined :
  confined
    (λ q, ∃ name, name ∈ get_partition_names_with_ab ∧
                  (raw </> (name +:+ ".img")) `prefix_of` q)
    (λ _, False)
    (prepare_raw_images get_raw_image files_path raw).
Proof.
  apply confined_for_each. intros name Hname. apply confined_run.
  intros m q Hq. apply output_only. intros Hpre. apply Hq. by exists name.
Qed.

(** With a [get_raw_image] that writes at or below its output path only,
    [prepare_raw_images], whether it returns or raises, logs nothing
    and leaves every path alone that is not at or below
    [<partition>.img], [<partition>_a.img] or [<partition>_b.img] of a
    partition or alias; in particular an entry of the staging directory
    whose token is not known is left as it is. *)
Theorem prepare_raw_images_writes_known_images_only (w : world) r w' :
  prepare_raw_images get_raw_image files_path raw w = (r, w') →
  trace w' = trace w ∧
  (∀ q, (∀ name, name ∈ get_partition_names_with_ab →
                 ¬ (raw </> (name +:+ ".img")) `prefix_of` q) →
        files w' !! q = files w !! q) ∧
  (∀ n q, token_of n ∉ get_partition_names_with_alias →
          (raw </> n) `prefix_of` q → files w' !! q = files w !! q).
Proof.
  intros Hrun.
  destruct (prepare_raw_images_confined w r w' Hrun) as [Hframe (evs & Ht & Hev)].
  assert (∀ q, (∀ name, name ∈ get_partition_names_with_ab →
                        ¬ (raw </> (name +:+ ".img")) `prefix_of` q) →
               files w' !! q = files w !! q) as Hout.
  { intros q Hq. apply Hframe. intros (name & Hname & Hpre). by apply (Hq name). }
  split_and!; [|done|].
  - destruct evs as [|ev evs]; [by rewrite app_nil_r in Ht|].
    by apply Forall_cons in Hev as [[] _].
  - intros n q Hn Hpre. apply Hout. intros name Hname Hpre'.
    pose proof (children_prefix_eq raw _ _ _ Hpre Hpre') as ->.
    apply Hn. destruct (with_ab_cases _ Hname) as (p & s & Hp & ->).
    destruct img_suffixes as [Himg _].
    assert ((p +:+ slot_suffix s) +:+ ".img" = slotted_name p s ".img") as ->
        by (unfold slotted_name; by rewrite StrFacts.append_assoc).
    by rewrite token_of_slotted_name.
Qed.

End RawImagesFacts.

Lemma prepare_raw_images_run :
  trace (prepare_raw_images example_get_raw_image ["fw"] example_staging
           (staged [("userdata.img", "USERDATA")])).2
  = trace (staged [("userdata.img", "USERDATA")]) ∧
  (∀ q, (∀ name, name ∈ get_partition_names_with_ab →
                 ¬ (example_staging </> (name +:+ ".img")) `prefix_of` q) →
        files (prepare_raw_images example_get_raw_image ["fw"] example_staging
                 (staged [("userdata.img", "USERDATA")])).2 !! q
        = files (staged [("userdata.img", "USERDATA")]) !! q) ∧
  (∀ n q, token_of n ∉ get_partition_names_with_alias →
          (example_staging </> n) `prefix_of` q →
          files (prepare_raw_images example_get_raw_image ["fw"] example_staging
                   (staged [("userdata.img", "USERDATA")])).2 !! q
          = files (staged [("userdata.img", "USERDATA")]) !! q).
Proof.
  apply (prepare_raw_images_writes_known_images_only example_get_raw_image
           ["fw"] example_staging) with (r := Ret tt).
  - intros partition_name dest m q Hq. unfold example_get_raw_image.
    destruct (String.eqb partition_name "system_a"); [|done].
    cbn [snd]. rewrite lookup_insert_ne; [done|]. by intros <-.
  - apply run_returned. by vm_compute.
Defined.

Section RawImagesFailure.

Variable get_raw_image : string → path → path → collaborator.
Variables files_path raw : path.

Lemma for_each_run_raises (names : list string) (n : string) (e : exn) w :
  n ∈ names →
  (∀ m, (get_raw_image n files_path (raw </> (n +:+ ".img")) m).1 = Some e) →
  ∃ e' w',
    for_each names (λ partition_name,
      run (get_raw_image partition_name files_path
             (raw </> (partition_name +:+ ".img")))) w = (Raise e', w') ∧
    ∃ n' m, n' ∈ names ∧
      (get_raw_image n' files_path (raw </> (n' +:+ ".img")) m).1 = Some e'.
Proof.
  intros Hn Hraise. revert w.
  induction names as [|x names IH]; [by apply not_elem_of_nil in Hn|].
  intros w. cbn [for_each]. unfold bind at 1. unfold run at 1.
  destruct (get_raw_image x files_path (raw </> (x +:+ ".img")) (files w))
    as [[e0|] m0] eqn:E.
  - exists e0. eexists. split; [reflexivity|]. exists x, (files w).
    split; [apply elem_of_cons; by left|by rewrite E].
  - apply elem_of_cons in Hn as [->|Hn].
    + specialize (Hraise (files w)). by rewrite E in Hraise.
    + destruct (IH Hn (World m0 (trace w))) as (e' & w' & Hrun & n' & m & Hn' & He').
      exists e', w'. split; [done|]. exists n', m.
      split; [apply elem_of_cons; by right|done].
Qed.

(** [prepare_raw_images] handles no exception: when [get_raw_image]
    always raises for one of the names, [prepare_raw_images] raises,
    and what it raises was raised by a call of [get_raw_image]. *)
Theorem prepare_raw_images_raises (n : string) (e : exn) (w : world) :
  n ∈ get_partition_names_with_ab →
  (∀ m, (get_raw_image n files_path (raw </> (n +:+ ".img")) m).1 = Some e) →
  ∃ e' w',
    prepare_raw_images get_raw_image files_path raw w = (Raise e', w') ∧
    ∃ n' m, n' ∈ get_partition_names_with_ab ∧
      (get_raw_image n' files_path (raw </> (n' +:+ ".img")) m).1 = Some e'.
Proof. intros Hn Hraise. by apply (for_each_run_raises _ n e). Qed.

End RawImagesFailure.

Lemma prepare_raw_images_raises_run :
  ∃ e' w',
    prepare_raw_images failing_get_raw_image ["fw"] example_staging
      (staged [("userdata.img", "USERDATA")])
    = (Raise e', w') ∧
    ∃ n' m, n' ∈ get_partition_names_with_ab ∧
      (failing_get_raw_image n' ["fw"] (example_staging </> (n' +:+ ".img")) m).1
      = Some e'.
Proof.
  apply (prepare_raw_images_raises failing_get_raw_image ["fw"] example_staging
           "vendor" (Exn OtherError "vendor: unsupported image")
           (staged [("userdata.img", "USERDATA")])).
  - apply (bool_decide_unpack _). by vm_compute.
  - done.
Defined.

(** ** [fix_aliases] without collision *)

Ltac listed := unfold ALTERNATIVE_PARTITION_NAMES;
  repeat first [apply list_elem_of_here | apply list_elem_of_further].

Section Aliases.

Variable d : path.

Abbreviation alias_turn :=
  (λ '(alt_name, name),
    let alt_path := d </> (alt_name +:+ ".img") in
    let partition_path := d </> (name +:+ ".img") in
    do alt_exists <- FS.path_exists alt_path;
    if negb alt_exists then ret tt
    else
      do partition_exists <- FS.path_exists partition_path;
      (if partition_exists then
         emit (LOGI ("Ignoring " +:+ alt_name +:+ " (" +:+ name
                       +:+ " already extracted)")) >>
         FS.unlink alt_path
       else ret tt) >>
      emit (LOGI ("Fixing alias " +:+ alt_name +:+ " -> " +:+ name)) >>
      FS.move alt_path partition_path).

Lemma for_each_cons_ret {X} (x : X) xs (body : X → M unit) w w1 :
  body x w = (Ret tt, w1) → for_each (x :: xs) body w = for_each xs body w1.
Proof. intros H. cbn [for_each]. unfold bind. by rewrite H. Qed.

Lemma fix_aliases_loop : fix_aliases d = for_each ALTERNATIVE_PARTITION_NAMES alias_turn.
Proof. reflexivity. Qed.

Lemma alias_turn_absent alt_name name w :
  files w !! (d </> (alt_name +:+ ".img")) = None →
  alias_turn (alt_name, name) w = (Ret tt, w).
Proof.
  intros H. cbv beta iota zeta.
  unfold FS.path_exists, bind, get_files, ret, FS.exists_. by rewrite H.
Qed.

Lemma alias_turn_moves alt_name name c w :
  FS.is_dir (files w) d = true →
  files w !! (d </> (alt_name +:+ ".img")) = Some (File c) →
  files w !! (d </> (name +:+ ".img")) = None →
  alias_turn (alt_name, name) w =
  (Ret tt,
   after w [ LOGI ("Fixing alias " +:+ alt_name +:+ " -> " +:+ name);
             Move (d </> (alt_name +:+ ".img")) (d </> (name +:+ ".img")) ]
     (<[d </> (name +:+ ".img") := File c]>
        (delete (d </> (alt_name +:+ ".img")) (files w)))).
Proof.
  intros Hd Ha Hn. cbv beta iota zeta.
  unfold bind at 1. unfold FS.path_exists at 1, bind at 1, get_files at 1, ret at 1.
  unfold FS.exists_ at 1. rewrite Ha. cbn [negb].
  unfold bind at 1. unfold FS.path_exists at 1, bind at 1, get_files at 1, ret at 1.
  unfold FS.exists_ at 1. rewrite Hn.
  unfold bind at 1. unfold bind at 1. unfold ret at 1.
  unfold emit at 1.
  unfold FS.move, bind, emit, get_files. cbn [files trace].
  unfold FS.is_dir at 1. rewrite Hn.
  unfold FS.rename, bind, get_files. cbn [files trace]. rewrite Ha.
  unfold FS.parent_ok. rewrite parent_child, Hd.
  unfold update, after. cbn [files trace]. by rewrite <- !app_assoc.
Qed.

(** Without any alias image in the directory, [fix_aliases] returns and
    leaves the file system and the log as they are. *)
Theorem fix_aliases_without_aliases (w : world) :
  (∀ alt_name name, (alt_name, name) ∈ ALTERNATIVE_PARTITION_NAMES →
                    files w !! (d </> (alt_name +:+ ".img")) = None) →
  fix_aliases d w = (Ret tt, w).
Proof.
  intros H. rewrite fix_aliases_loop. unfold ALTERNATIVE_PARTITION_NAMES.
  rewrite (for_each_cons_ret _ _ alias_turn w w)
    by (apply alias_turn_absent, (H _ "boot"); listed).
  rewrite (for_each_cons_ret _ _ alias_turn w w)
    by (apply alias_turn_absent, (H _ "dtbo"); listed).
  rewrite (for_each_cons_ret _ _ alias_turn w w)
    by (apply alias_turn_absent, (H _ "modem"); listed).
  done.
Qed.

(** One turn of the loop, for an alias image that is a regular file or
    missing, and whose generic name is free when it is there. *)
Lemma alias_turn_resolves alt_name name w :
  alt_name ≠ name →
  FS.is_dir (files w) d = true →
  files w !! (d </> (alt_name +:+ ".img")) ≠ Some Dir →
  (is_Some (files w !! (d </> (alt_name +:+ ".img"))) →
   files w !! (d </> (name +:+ ".img")) = None) →
  ∃ w1,
    alias_turn (alt_name, name) w = (Ret tt, w1) ∧
    files w1 !! (d </> (alt_name +:+ ".img")) = None ∧
    files w1 !! (d </> (name +:+ ".img"))
    = (if FS.exists_ (files w) (d </> (alt_name +:+ ".img"))
       then files w !! (d </> (alt_name +:+ ".img"))
       else files w !! (d </> (name +:+ ".img"))) ∧
    (∀ q, q ≠ d </> (alt_name +:+ ".img") → q ≠ d </> (name +:+ ".img") →
          files w1 !! q = files w !! q) ∧
    trace w1 = trace w ++
      (if FS.exists_ (files w) (d </> (alt_name +:+ ".img"))
       then [ LOGI ("Fixing alias " +:+ alt_name +:+ " -> " +:+ name);
              Move (d </> (alt_name +:+ ".img")) (d </> (name +:+ ".img")) ]
       else []).
Proof.
  intros Hne Hd Hnd Hfree.
  assert (d </> (name +:+ ".img") ≠ d </> (alt_name +:+ ".img")) as Hpne
      by (by intros E%child_inj%StrFacts.append_inv_r).
  unfold FS.exists_.
  destruct (files w !! (d </> (alt_name +:+ ".img"))) as [[c|]|] eqn:Ha; [|done|].
  - rewrite (alias_turn_moves alt_name name c) by auto.
    eexists. split; [reflexivity|]. cbn [files trace after].
    split_and!; [| | |done].
    + by rewrite lookup_insert_ne, lookup_delete_eq.
    + by rewrite lookup_insert_eq.
    + intros q H1 H2. by rewrite lookup_insert_ne, lookup_delete_ne.
  - rewrite (alias_turn_absent alt_name name) by done.
    exists w. rewrite app_nil_r. by split_and!.
Qed.

(** When every alias image is a regular file or missing, and the
    generic name of every alias image that is there is free,
    [fix_aliases] returns; every alias image has then moved to its
    generic name, content unchanged, no alias image is left, nothing
    else has changed, and the trace has gained the announcement and the
    move of every alias image that was there, and nothing else: nothing
    is deleted. *)
Theorem fix_aliases_moves_aliases (w : world) :
  FS.is_dir (files w) d = true →
  (∀ alt_name name, (alt_name, name) ∈ ALTERNATIVE_PARTITION_NAMES →
     files w !! (d </> (alt_name +:+ ".img")) ≠ Some Dir ∧
     (is_Some (files w !! (d </> (alt_name +:+ ".img"))) →
      files w !! (d </> (name +:+ ".img")) = None)) →
  ∃ w',
    fix_aliases d w = (Ret tt, w') ∧
    (∀ alt_name name, (alt_name, name) ∈ ALTERNATIVE_PARTITION_NAMES →
       files w' !! (d </> (alt_name +:+ ".img")) = None ∧
       files w' !! (d </> (name +:+ ".img"))
       = (if FS.exists_ (files w) (d </> (alt_name +:+ ".img"))
          then files w !! (d </> (alt_name +:+ ".img"))
          else files w !! (d </> (name +:+ ".img")))) ∧
    (∀ q, (∀ alt_name name, (alt_name, name) ∈ ALTERNATIVE_PARTITION_NAMES →
             q ≠ d </> (alt_name +:+ ".img") ∧ q ≠ d </> (name +:+ ".img")) →
          files w' !! q = files w !! q) ∧
    trace w' = trace w ++ alias_moves d (files w).
Proof.
  intros Hd H.
  assert (∀ n1 n2 : string, n1 ≠ n2 →
            d </> (n1 +:+ ".img") ≠ d </> (n2 +:+ ".img")) as Hpne
      by (intros n1 n2 Hn E%child_inj%StrFacts.append_inv_r; done).
  destruct (H "boot-verified" "boot") as [Hb1 Hb2]; [listed|].
  destruct (H "dtbo-verified" "dtbo") as [Hd1 Hd2]; [listed|].
  destruct (H "NON-HLOS" "modem") as [Hm1 Hm2]; [listed|].
  destruct (alias_turn_resolves "boot-verified" "boot" w)
    as (w1 & E1 & A1 & N1 & F1 & T1); [done..|].
  assert (FS.is_dir (files w1) d = true) as Hdir1.
  { unfold FS.is_dir in *. rewrite F1; [done|apply not_eq_sym, child_ne_self..]. }
  destruct (alias_turn_resolves "dtbo-verified" "dtbo" w1)
    as (w2 & E2 & A2 & N2 & F2 & T2); [done|done|..].
  { rewrite F1 by (by apply Hpne). done. }
  { rewrite !F1 by (by apply Hpne). done. }
  assert (FS.is_dir (files w2) d = true) as Hdir2.
  { unfold FS.is_dir in *. rewrite F2; [done|apply not_eq_sym, child_ne_self..]. }
  destruct (alias_turn_resolves "NON-HLOS" "modem" w2)
    as (w3 & E3 & A3 & N3 & F3 & T3); [done|done|..].
  { rewrite F2, F1 by (by apply Hpne). done. }
  { rewrite !F2, !F1 by (by apply Hpne). done. }
  exists w3. split_and!.
  - rewrite fix_aliases_loop. unfold ALTERNATIVE_PARTITION_NAMES.
    rewrite (for_each_cons_ret _ _ alias_turn w w1) by exact E1.
    rewrite (for_each_cons_ret _ _ alias_turn w1 w2) by exact E2.
    by rewrite (for_each_cons_ret _ _ alias_turn w2 w3) by exact E3.
  - intros alt_name name Hin. unfold ALTERNATIVE_PARTITION_NAMES in Hin.
    unfold FS.exists_ in *.
    repeat (apply elem_of_cons in Hin as [[= -> ->]|Hin]);
      [ | | |by apply not_elem_of_nil in Hin].
    + rewrite !F3, !F2 by (by apply Hpne). done.
    + rewrite !F3 by (by apply Hpne). rewrite A2, N2.
      rewrite !F1 by (by apply Hpne). done.
    + rewrite A3, N3. rewrite !F2, !F1 by (by apply Hpne). done.
  - intros q Hq.
    destruct (Hq "boot-verified" "boot") as [? ?]; [listed|].
    destruct (Hq "dtbo-verified" "dtbo") as [? ?]; [listed|].
    destruct (Hq "NON-HLOS" "modem") as [? ?]; [listed|].
    by rewrite F3, F2, F1.
  - rewrite T3, T2, T1, <- !app_assoc. f_equal.
    unfold alias_moves, ALTERNATIVE_PARTITION_NAMES. cbn [flat_map].
    rewrite app_nil_r. unfold FS.exists_.
    rewrite !F2, !F1 by (by apply Hpne). done.
Qed.

End Aliases.

Lemma fix_aliases_moves_run :
  ∃ w',
    fix_aliases example_staging aliased_images = (Ret tt, w') ∧
    (∀ alt_name name, (alt_name, name) ∈ ALTERNATIVE_PARTITION_NAMES →
       files w' !! (example_staging </> (alt_name +:+ ".img")) = None ∧
       files w' !! (example_staging </> (name +:+ ".img"))
       = (if FS.exists_ (files aliased_images)
               (example_staging </> (alt_name +:+ ".img"))
          then files aliased_images !! (example_staging </> (alt_name +:+ ".img"))
          else files aliased_images !! (example_staging </> (name +:+ ".img")))) ∧
    (∀ q, (∀ alt_name name, (alt_name, name) ∈ ALTERNATIVE_PARTITION_NAMES →
             q ≠ example_staging </> (alt_name +:+ ".img") ∧
             q ≠ example_staging </> (name +:+ ".img")) →
          files w' !! q = files aliased_images !! q) ∧
    trace w' = trace aliased_images ++ alias_moves example_staging (files aliased_images).
Proof.
  apply (fix_aliases_moves_aliases example_staging aliased_images).
  - by vm_compute.
  - intros alt_name name Hin. unfold ALTERNATIVE_PARTITION_NAMES in Hin.
    repeat (apply elem_of_cons in Hin as [[= -> ->]|Hin]);
      [ | | |by apply not_elem_of_nil in Hin];
      (split; [by vm_compute|]; intros Hs; vm_compute in Hs |- *;
       first [done | by destruct Hs]).
Defined.

Lemma fix_aliases_without_aliases_run :
  fix_aliases example_staging (staged [("system.img", "SYSTEM")])
  = (Ret tt, staged [("system.img", "SYSTEM")]).
Proof.
  apply (fix_aliases_without_aliases example_staging
           (staged [("system.img", "SYSTEM")])).
  intros alt_name name Hin. unfold ALTERNATIVE_PARTITION_NAMES in Hin.
  repeat (apply elem_of_cons in Hin as [[= -> ->]|Hin]);
    [ | | |by apply not_elem_of_nil in Hin]; by vm_compute.
Defined.

(** ** More on [extract_partitions] *)

Lemma partition_type_known p :
  p ∈ get_partition_names → ∃ ty, dict_get PARTITIONS p = Some ty.
Proof.
  unfold get_partition_names. generalize PARTITIONS as dict.
  induction dict as [|[k v] dict IH]; [by intros ?%not_elem_of_nil|].
  cbn [map fst dict_get]. intros [->|H]%elem_of_cons.
  - rewrite String.eqb_refl. by eexists.
  - destruct (String.eqb k p); [by eexists|by apply IH].
Qed.

Section ExtractionIdle.

Variable extract_bootimg : path → path → collaborator.
Variable sevenz : sevenz_command → collaborator.
Variable format_exception : exn → string.

Variables raw out : path.

Abbreviation turn_of :=
  (extract_partition extract_bootimg sevenz format_exception raw out).

Lemma turns_absent partitions w :
  (∀ p, p ∈ partitions →
        p ∈ get_partition_names ∧
        files w !! (raw </> (p +:+ ".img")) = None) →
  for_each partitions turn_of w = (Ret tt, w).
Proof.
  induction partitions as [|p partitions IH]; [done|]. intros H.
  destruct (H p) as [Hp Himg]; [by left|].
  destruct (partition_type_known p Hp) as [ty Hty].
  cbn [for_each]. unfold bind.
  rewrite (turn_absent _ _ _ _ _ _ ty) by (done || (unfold FS.exists_; by rewrite Himg)).
  apply IH. intros p' Hp'. apply H. by right.
Qed.

(** When the staging directory holds the raw image of no partition of
    the registry, [extract_partitions] returns at once: no collaborator
    is called, nothing is logged, nothing is written, whatever else the
    staging directory holds. *)
Theorem extract_partitions_without_images (w : world) :
  (∀ p, p ∈ get_partition_names → files w !! (raw </> (p +:+ ".img")) = None) →
  extract_partitions extract_bootimg sevenz format_exception raw out w
  = (Ret tt, w).
Proof. intros H. apply turns_absent. intros p Hp. split; [done|by apply H]. Qed.

Lemma alias_not_partition alt_name name p :
  (alt_name, name) ∈ ALTERNATIVE_PARTITION_NAMES →
  p ∈ get_partition_names →
  alt_name ≠ p ∧ alt_name +:+ ".img" ≠ p ∧ alt_name ≠ p +:+ ".img"
  ∧ alt_name +:+ ".img" ≠ p +:+ ".img".
Proof.
  intros Halt Hp.
  assert (alt_name ≠ p) as Hne.
  { intros ->. unfold ALTERNATIVE_PARTITION_NAMES in Halt.
    apply (bool_decide_pack _) in Hp.
    repeat (apply elem_of_cons in Halt as [[= -> ->]|Halt];
            [by vm_compute in Hp|]).
    by apply not_elem_of_nil in Halt. }
  assert (Str.nodot alt_name = true) as Hna.
  { apply partition_names_nodot, elem_of_app. right.
    apply list_elem_of_fmap. by exists (alt_name, name). }
  assert (Str.nodot p = true) as Hnp
      by (apply partition_names_nodot, elem_of_app; by left).
  split_and!; [done| | |by intros ?%StrFacts.append_inv_r].
  - intros E. rewrite <- E, StrFacts.nodot_app, Hna in Hnp. done.
  - intros E. rewrite E, StrFacts.nodot_app, Hnp in Hna. done.
Qed.

(** The events of [extract_partitions] name images and outputs of
    partitions of the registry only: the image of an alias is handed to
    no collaborator and is copied nowhere, whether it is there or not,
    and no event names an output of that alias. *)
Theorem extract_partitions_ignores_aliases (w : world) r w' alt_name name :
  (alt_name, name) ∈ ALTERNATIVE_PARTITION_NAMES →
  extract_partitions extract_bootimg sevenz format_exception raw out w = (r, w') →
  ∃ evs, trace w' = trace w ++ evs ∧
    ((raw </> (alt_name +:+ ".img")) ∉ attempted evs) ∧
    ∀ ev, ev ∈ evs →
      ((raw </> (alt_name +:+ ".img")) ∉ event_paths ev) ∧
      ((out </> (alt_name +:+ ".img")) ∉ event_paths ev) ∧
      (out </> alt_name) ∉ event_paths ev.
Proof.
  intros Halt Hrun.
  destruct (extract_partitions_events _ _ _ _ _ _ _ _ Hrun) as [_ (evs & Ht & Hev)].
  exists evs. split; [done|].
  assert (∀ ev, ev ∈ evs →
            ((raw </> (alt_name +:+ ".img")) ∉ event_paths ev) ∧
            ((out </> (alt_name +:+ ".img")) ∉ event_paths ev) ∧
            (out </> alt_name) ∉ event_paths ev) as Hnames.
  { intros ev Hin. eapply Forall_forall in Hev; [|done].
    destruct Hev as [Hlog|(p & ty & Hty & Hcase)].
    { destruct ev; try done; cbn [event_paths]; split_and!; apply not_elem_of_nil. }
    pose proof (dict_get_Some_in _ _ _ Hty) as Hp. fold get_partition_names in Hp.
    destruct (alias_not_partition _ _ _ Halt Hp) as (N1 & N2 & N3 & N4).
    destruct Hcase as [(r0 & -> & _)|[(r0 & -> & _)|[-> _]]];
      cbn [event_paths sz_archive sz_out_dir];
      split_and!; intros Hin'; repeat (apply elem_of_cons in Hin' as [E|Hin']);
      try (by apply not_elem_of_nil in Hin');
      apply app_inj_tail in E as [_ E]; done. }
  split; [|done].
  intros (ev & Hin & Hatt)%list_elem_of_omap.
  destruct (Hnames ev Hin) as [Hraw _]. apply Hraw.
  destruct ev; try done; injection Hatt as <-; cbn [event_paths];
    apply elem_of_cons; by left.
Qed.

End ExtractionIdle.

Section ExtractionFrame.

Variable extract_bootimg : path → path → collaborator.
Variable sevenz : sevenz_command → collaborator.
Variable format_exception : exn → string.

Variables raw out : path.

Hypothesis bootimg_below : ∀ image, writes_below (extract_bootimg image).
Hypothesis sevenz_below :
  ∀ image, writes_below (λ dest, sevenz (SevenzX image dest)).
Hypothesis raw_not_out : raw ≠ out.
Hypothesis raw_apart :
  ∀ p, p ∈ get_partition_names → ¬ (out </> p) `prefix_of` raw.

Abbreviation turn_of' :=
  (extract_partition extract_bootimg sevenz format_exception raw out).

(** With collaborators that write below their destination only and a
    staging directory apart from the output, [extract_partitions],
    whether it returns or raises, creates, removes and changes no entry
    of the staging directory: the raw images are only read. *)
Theorem extract_partitions_keeps_staging (w : world) r w' (x : string) :
  extract_partitions extract_bootimg sevenz format_exception raw out w = (r, w') →
  files w' !! (raw </> x) = files w !! (raw </> x).
Proof.
  intros Hrun.
  destruct (extract_turns_confined _ _ _ raw out get_partition_names
              bootimg_below sevenz_below _ _ _ Hrun) as [Hf _].
  apply Hf. by apply image_not_written.
Qed.

(** A [RAW] partition whose image is a regular file of the staging
    directory is copied to [<partition>.img] in the output root,
    content unchanged, by a completed run, and its image is handed to
    no collaborator. *)
Theorem raw_partition_copied_without_call (w w' : world) (p c : string) :
  dict_get PARTITIONS p = Some RAW →
  files w !! (raw </> (p +:+ ".img")) = Some (File c) →
  extract_partitions extract_bootimg sevenz format_exception raw out w
  = (Ret tt, w') →
  files w' !! (out </> (p +:+ ".img")) = Some (File c) ∧
  ∃ evs, trace w' = trace w ++ evs ∧
    CopyFile (raw </> (p +:+ ".img")) (out </> (p +:+ ".img")) ∈ evs ∧
    (raw </> (p +:+ ".img")) ∉ attempted evs.
Proof.
  intros Hty Himg Hrun.
  pose proof (dict_get_Some_in _ _ _ Hty) as Hp. fold get_partition_names in Hp.
  destruct (extract_partitions_events _ _ _ _ _ _ _ _ Hrun)
    as [_ (evs & Ht & Hev)].
  destruct (list_elem_of_split _ _ Hp) as (l1 & l2 & Hsplit).
  pose proof partition_names_NoDup as Hnd. rewrite Hsplit in Hnd.
  apply NoDup_app in Hnd as (_ & Hl1 & [Hl2 _]%NoDup_cons).
  assert (∀ p', p' ∈ l1 → p' ∈ get_partition_names) as Hsub1
      by (intros p' Hp'; rewrite Hsplit; apply elem_of_app; by left).
  assert (∀ p', p' ∈ l2 → p' ∈ get_partition_names ∧ p' ≠ p) as Hsub2.
  { intros p' Hp'. split; [|by intros ->].
    rewrite Hsplit. apply elem_of_app. right. by right. }
  unfold extract_partitions in Hrun. rewrite Hsplit, for_each_app in Hrun.
  destruct (for_each l1 turn_of' w) as [[[]|e] w1] eqn:Hrun1; [|done].
  cbn [for_each] in Hrun. unfold bind in Hrun.
  destruct (turn_of' p w1) as [[[]|e] w2] eqn:Hturn; [|done].
  destruct (extract_turns_confined _ _ _ raw out l1 bootimg_below sevenz_below
              _ _ _ Hrun1) as [Hf1 (e1 & Ht1 & _)].
  destruct (extract_turns_confined _ _ _ raw out l2 bootimg_below sevenz_below
              _ _ _ Hrun) as [Hf2 (e2 & Ht2 & _)].
  assert (files w1 !! (raw </> (p +:+ ".img")) = Some (File c)) as Himg1
      by (rewrite Hf1; [done|by apply image_not_written]).
  rewrite turn_raw in Hturn; [|done|unfold FS.exists_; by rewrite Himg1].
  apply copyfile_ret in Hturn as (c' & Hsrc & Hf & Ht'). cbn in Hsrc, Hf, Ht'.
  rewrite Himg1 in Hsrc. injection Hsrc as <-. split.
  - rewrite Hf2; [|by apply copy_not_written].
    rewrite Hf. apply lookup_insert_eq.
  - exists evs. split; [done|]. split.
    + assert (evs = e1 ++ [LOGI ("Extracting " +:+ p);
                           CopyFile (raw </> (p +:+ ".img")) (out </> (p +:+ ".img"))]
                     ++ e2) as ->.
      { apply (app_inv_head (trace w)). rewrite <- Ht, Ht2, Ht', Ht1.
        by rewrite <- !app_assoc. }
      apply elem_of_app. right. apply elem_of_app. left.
      apply elem_of_cons. right. apply elem_of_cons. by left.
    + intros (ev & Hin & Hatt)%list_elem_of_omap.
      eapply Forall_forall in Hev; [|done].
      destruct Hev as [Hlog|(p' & ty & Hty' & Hcase)]; [by destruct ev|].
      destruct Hcase as [(r0 & -> & ->)|[(r0 & -> & ->)|[-> _]]]; [| |done];
        injection Hatt as E; apply child_inj, StrFacts.append_inv_r in E;
        subst p'; congruence.
Qed.

End ExtractionFrame.

Lemma extract_partitions_without_images_run :
  extract_partitions example_bootimg example_sevenz example_format_exception
    example_staging example_output (staged [("userdata.img", "USERDATA")])
  = (Ret tt, staged [("userdata.img", "USERDATA")]).
Proof.
  apply (extract_partitions_without_images example_bootimg example_sevenz
           example_format_exception example_staging example_output).
  intros p Hp. unfold get_partition_names, PARTITIONS in Hp. cbn [map fst] in Hp.
  repeat (apply elem_of_cons in Hp as [->|Hp]; [by vm_compute|]).
  by apply not_elem_of_nil in Hp.
Defined.

Lemma extract_partitions_ignores_aliases_run :
  ∃ evs,
    trace (extract_partitions example_bootimg example_sevenz
             example_format_exception example_staging example_output
             aliased_images).2
    = trace aliased_images ++ evs ∧
    ((example_staging </> ("boot-verified" +:+ ".img")) ∉ attempted evs) ∧
    ∀ ev, ev ∈ evs →
      ((example_staging </> ("boot-verified" +:+ ".img")) ∉ event_paths ev) ∧
      ((example_output </> ("boot-verified" +:+ ".img")) ∉ event_paths ev) ∧
      (example_output </> "boot-verified") ∉ event_paths ev.
Proof.
  apply (extract_partitions_ignores_aliases example_bootimg example_sevenz
           example_format_exception example_staging example_output
           aliased_images
           (extract_partitions example_bootimg example_sevenz
              example_format_exception example_staging example_output
              aliased_images).1 _ "boot-verified" "boot").
  - apply list_elem_of_here.
  - apply surjective_pairing.
Defined.

Lemma extract_partitions_keeps_staging_run :
  files (extract_partitions example_bootimg example_sevenz
           example_format_exception example_staging example_output
           extraction_input).2 !! (example_staging </> "boot.img")
  = files extraction_input !! (example_staging </> "boot.img").
Proof.
  apply (extract_partitions_keeps_staging example_bootimg example_sevenz
           example_format_exception example_staging example_output
           example_bootimg_below example_sevenz_below)
    with (r := (extract_partitions example_bootimg example_sevenz
                  example_format_exception example_staging example_output
                  extraction_input).1).
  - done.
  - apply example_staging_apart.
  - apply surjective_pairing.
Defined.

Lemma raw_partition_copied_run :
  files (extract_partitions example_bootimg example_sevenz
           example_format_exception example_staging example_output
           extraction_input).2 !! (example_output </> ("dtbo" +:+ ".img"))
  = Some (File "DTBO") ∧
  ∃ evs,
    trace (extract_partitions example_bootimg example_sevenz
             example_format_exception example_staging example_output
             extraction_input).2
    = trace extraction_input ++ evs ∧
    CopyFile (example_staging </> ("dtbo" +:+ ".img"))
      (example_output </> ("dtbo" +:+ ".img")) ∈ evs ∧
    (example_staging </> ("dtbo" +:+ ".img")) ∉ attempted evs.
Proof.
  apply (raw_partition_copied_without_call example_bootimg example_sevenz
           example_format_exception example_staging example_output
           example_bootimg_below example_sevenz_below).
  - done.
  - apply example_staging_apart.
  - by vm_compute.
  - by vm_compute.
  - apply run_returned. by vm_compute.
Defined.

(** ** More on [correct_ab_filenames] *)

Lemma contents_kept_refl m : contents_kept m m.
Proof. split; [by eauto|done]. Qed.

Lemma contents_kept_trans m1 m2 m3 :
  contents_kept m1 m2 → contents_kept m2 m3 → contents_kept m1 m3.
Proof.
  intros [F1 D1] [F2 D2]. split.
  - intros q c H. destruct (F2 q c H) as [q1 H1]. by apply (F1 q1).
  - intros q. by rewrite D2, D1.
Qed.

Lemma contents_kept_delete (m : filesystem) p c :
  m !! p = Some (File c) → contents_kept m (delete p m).
Proof.
  intros Hp. split.
  - intros q c' H. exists q. destruct (decide (q = p)) as [->|Hne].
    + by rewrite lookup_delete_eq in H.
    + by rewrite lookup_delete_ne in H.
  - intros q. destruct (decide (q = p)) as [->|Hne].
    + rewrite lookup_delete_eq, Hp. split; done.
    + by rewrite lookup_delete_ne.
Qed.

Lemma contents_kept_move (m : filesystem) src dst c :
  m !! src = Some (File c) → m !! dst = None →
  contents_kept m (<[dst := File c]> (delete src m)).
Proof.
  intros Hs Hd. split.
  - intros q c' H. destruct (decide (q = dst)) as [->|Hne].
    + rewrite lookup_insert_eq in H. injection H as <-. by exists src.
    + rewrite lookup_insert_ne in H by done. exists q.
      destruct (decide (q = src)) as [->|Hne'].
      * by rewrite lookup_delete_eq in H.
      * by rewrite lookup_delete_ne in H.
  - intros q. destruct (decide (q = dst)) as [->|Hne].
    + rewrite lookup_insert_eq, Hd. split; done.
    + rewrite lookup_insert_ne by done.
      destruct (decide (q = src)) as [->|Hne'].
      * rewrite lookup_delete_eq, Hs. split; done.
      * by rewrite lookup_delete_ne.
Qed.

Lemma entry_outcome_contents d x w r w' :
  entry_outcome d x w r w' → contents_kept (files w) (files w').
Proof.
  intros [w2 logs _ Hf _ _|w2 token suffixes logs Hx _ _ Hf _ _
         |w2 token suffixes s c logs r2 _ _ _ _ Hsrc _ Hmv _ _].
  - rewrite Hf. apply contents_kept_refl.
  - rewrite Hf. apply is_file_lookup in Hx as [c Hx].
    by apply (contents_kept_delete _ _ c).
  - inversion Hmv as [Hn Hr Hm|Hn Hn' Hr Hm|Hn Hn' Hr Hm].
    + by apply contents_kept_move.
    + by apply contents_kept_move.
    + apply contents_kept_refl.
Qed.

(** [correct_ab_filenames], whether it returns or raises, alters and
    invents no content and makes and removes no directory: every
    regular file it leaves has the content of a regular file that was
    there before, and the directories are those that were there
    before. *)
Theorem correct_ab_filenames_keeps_contents
    (d : path) (entries : list string) (w : world) r w' :
  correct_ab_filenames entries d w = (r, w') →
  contents_kept (files w) (files w').
Proof.
  intros Hrun. destruct (FS.is_dir (files w) d) eqn:Hd.
  - rewrite correct_ab_filenames_loop in Hrun by done.
    pose proof (slot_loop_invariant d
                  (λ _ w1, contents_kept (files w) (files w1))
                  (λ w1, contents_kept (files w) (files w1))
                  entries w r w') as Hinv.
    cbv beta in Hinv.
    enough (match r with
            | Ret _ => contents_kept (files w) (files w')
            | Raise _ => contents_kept (files w) (files w')
            end) as H by (by destruct r).
    apply Hinv; [|done|apply contents_kept_refl|done].
    intros x todo w1 r1 w2 _ Hk Hout.
    apply entry_outcome_contents in Hout.
    destruct r1; by eapply contents_kept_trans.
  - unfold correct_ab_filenames, bind, get_files in Hrun. rewrite Hd in Hrun.
    cbn [negb] in Hrun. injection Hrun as _ <-. apply contents_kept_refl.
Qed.

Section TokenSlots.

Variable d : path.
Variables t sfx : string.

Hypothesis t_known : t ∈ get_partition_names_with_alias.
Hypothesis sfx_suffixes : get_filename_suffixes (t +:+ sfx) = sfx.

Abbreviation slot_path s := (d </> slotted_name t s sfx).












End TokenSlots.

Section SlotLeftovers.

Variable d : path.

Abbreviation at_ token s suffixes := (d </> slotted_name token s suffixes).





End SlotLeftovers.

Lemma correct_ab_filenames_keeps_contents_run :
  contents_kept (files dual_slot)
    (files (correct_ab_filenames ["boot_a.img"; "boot_b.img"]
              example_staging dual_slot).2).
Proof.
  apply (correct_ab_filenames_keeps_contents example_staging
           ["boot_a.img"; "boot_b.img"] dual_slot
           (correct_ab_filenames ["boot_a.img"; "boot_b.img"]
              example_staging dual_slot).1).
  apply surjective_pairing.
Defined.




(** ** The order of the pipeline *)

Lemma bind_inv {A B} (m : M A) (k : A → M B) w r w' :
  bind m k w = (r, w') →
  (∃ a w1, m w = (Ret a, w1) ∧ k a w1 = (r, w')) ∨
  (∃ e, m w = (Raise e, w') ∧ r = Raise e).
Proof.
  unfold bind. destruct (m w) as [[a|e] w1].
  - intros H. left. by exists a, w1.
  - intros [= <- <-]. right. by exists e.
Qed.

Lemma os_mkdir_trace p w r w' : Files.os_mkdir p w = (r, w') → trace w' = trace w.
Proof.
  unfold Files.os_mkdir, bind, get_files.
  destruct (FS.exists_ _ _); [by intros [= _ <-]|].
  destruct (FS.is_dir _ _); [by intros [= _ <-]|].
  destruct (FS.exists_ _ _); by intros [= _ <-].
Qed.

Lemma mkdir_trace p w r w' :
  Files.mkdir p w = (r, w') → trace w' = trace w ++ [Mkdir p].
Proof.
  unfold Files.mkdir. unfold bind at 1. unfold emit at 1.
  intros H%os_mkdir_trace. by rewrite H.
Qed.

Lemma mkdir_parents_trace p w r w' :
  Files.mkdir_parents p w = (r, w') → trace w' = trace w ++ [Mkdir p].
Proof.
  unfold Files.mkdir_parents. unfold bind at 1. unfold emit at 1.
  intros H%mkdir_parents_from_trace. by rewrite H.
Qed.

Lemma write_text_trace p text w r w' :
  Files.write_text p text w = (r, w') → trace w' = trace w ++ [WriteText p text].
Proof.
  unfold Files.write_text, bind, emit, get_files. cbn [files trace].
  destruct (files w !! p) as [[c|]|];
    try (destruct (FS.parent_ok _ _)); by intros [= _ <-].
Qed.

Lemma call_inv (f : collaborator) ev w r w' :
  call f ev w = (r, w') →
  (r = Ret tt ∧ trace w' = trace w ++ [ev None]) ∨
  (∃ e, r = Raise e ∧ trace w' = trace w ++ [ev (Some e)]).
Proof.
  unfold call. destruct (f (files w)) as [[e|] m']; intros [= <- <-].
  - right. by exists e.
  - by left.
Qed.

Lemma emit_inv ev w r w' :
  emit ev w = (r, w') → r = Ret tt ∧ trace w' = trace w ++ [ev].
Proof. by intros [= <- <-]. Qed.

Ltac in_events := repeat first [apply list_elem_of_here | apply list_elem_of_further].

Ltac not_in_events H :=
  repeat (apply elem_of_cons in H as [H|H];
          [try discriminate H; try (injection H as ?; subst)|]);
  try (by apply not_elem_of_nil in H).

Ltac settle_order :=
  unfold steps_in_order; split_and!;
  [ intros ? H; first [by (split_and!; in_events) | by not_in_events H]
  | intros ? H; first [by in_events | by not_in_events H]
  | intros ? H; first [by in_events | by not_in_events H]
  | intros ? ? H; first [by (not_in_events H; split; [in_events|done]) | by not_in_events H]
  | intros ? ? H; by not_in_events H
  | intros ? H; first [discriminate H
                      | injection H as <-; split; [done|eexists; in_events] ] ].

Section PipelineOrder.

Variable step_1 : path → path → collaborator.
Variable step_2 : path → path → collaborator.
Variable step_3 : path → path → collaborator.
Variable get_recursive_files_list : filesystem → path → list path.
Variable sorted_strcoll : list path → list path.

Lemma try_block_in_order file path_ w r w' :
  (dumpyara_steps step_1 step_2 step_3 file path_ >>
   dumpyara_finalize get_recursive_files_list sorted_strcoll path_) w = (r, w') →
  ∃ evs, trace w' = trace w ++ evs ∧ steps_in_order path_ evs r ∧
         ∀ p, Rmtree p ∉ evs.
Proof.
  intros H.
  apply bind_inv in H as [([] & ws & Hsteps & Hfin)|(e & Hsteps & ->)].
  - (* the steps returned *)
    unfold dumpyara_steps in Hsteps.
    apply bind_ret_inv in Hsteps as ([] & wa & Ha%mkdir_parents_trace & Hsteps).
    apply bind_ret_inv in Hsteps as ([] & wb & Hb%mkdir_trace & Hsteps).
    apply bind_ret_inv in Hsteps as ([] & wc & Hc%mkdir_trace & Hsteps).
    apply bind_ret_inv in Hsteps as ([] & wd & [_ Hd]%emit_ret_inv & Hsteps).
    apply bind_ret_inv in Hsteps as ([] & we & He & Hsteps).
    apply call_inv in He as [[_ He]|(e1 & ? & _)]; [|done].
    apply bind_ret_inv in Hsteps as ([] & wf & [_ Hf]%emit_ret_inv & Hsteps).
    apply bind_ret_inv in Hsteps as ([] & wg & Hg & Hsteps).
    apply call_inv in Hg as [[_ Hg]|(e1 & ? & _)]; [|done].
    apply bind_ret_inv in Hsteps as ([] & wh & [_ Hh]%emit_ret_inv & Hsteps).
    apply call_inv in Hsteps as [[_ Hi]|(e1 & ? & _)]; [|done].
    unfold dumpyara_finalize in Hfin.
    apply bind_inv in Hfin as [([] & w1 & [_ H1]%emit_inv & Hfin)|(e & [? _]%emit_inv & _)];
      [|done].
    apply bind_inv in Hfin as [([] & w2 & [_ H2]%emit_inv & Hfin)|(e & [? _]%emit_inv & _)];
      [|done].
    apply bind_inv in Hfin as [(m & w3 & Hget & Hfin)|(e & Hget & _)]; [|done].
    injection Hget as <- <-.
    apply bind_inv in Hfin as [([] & w4 & [_ H4]%emit_inv & Hfin)|(e & [? _]%emit_inv & _)];
      [|done].
    apply bind_inv in Hfin as [([] & w5 & H5%write_text_trace & Hfin)
                              |(e & H5%write_text_trace & ->)].
    + injection Hfin as <- <-. eexists. split.
      { rewrite H5, H4, H2, H1, Hi, Hh, Hg, Hf, He, Hd, Hc, Hb, Ha.
        rewrite <- !app_assoc. reflexivity. }
      cbn [app]. split; [settle_order|]. intros p H. by not_in_events H.
    + eexists. split.
      { rewrite H5, H4, H2, H1, Hi, Hh, Hg, Hf, He, Hd, Hc, Hb, Ha.
        rewrite <- !app_assoc. reflexivity. }
      cbn [app]. split; [settle_order|]. intros p H. by not_in_events H.
  - (* a step, or the making of a directory, raised *)
    unfold dumpyara_steps in Hsteps.
    apply bind_inv in Hsteps as [([] & wa & Ha%mkdir_parents_trace & Hsteps)
                                |(e0 & Ha%mkdir_parents_trace & [= ->])].
    2:{ eexists. split; [exact Ha|]. split; [settle_order|].
        intros p H. by not_in_events H. }
    apply bind_inv in Hsteps as [([] & wb & Hb%mkdir_trace & Hsteps)
                                |(e0 & Hb%mkdir_trace & [= ->])].
    2:{ eexists. split; [rewrite Hb, Ha, <- !app_assoc; reflexivity|].
        cbn [app]. split; [settle_order|]. intros p H. by not_in_events H. }
    apply bind_inv in Hsteps as [([] & wc & Hc%mkdir_trace & Hsteps)
                                |(e0 & Hc%mkdir_trace & [= ->])].
    2:{ eexists. split; [rewrite Hc, Hb, Ha, <- !app_assoc; reflexivity|].
        cbn [app]. split; [settle_order|]. intros p H. by not_in_events H. }
    apply bind_inv in Hsteps as [([] & wd & [_ Hd]%emit_inv & Hsteps)
                                |(e0 & [? _]%emit_inv & _)]; [|done].
    apply bind_inv in Hsteps as [([] & we & He & Hsteps)|(e0 & He & [= ->])].
    2:{ apply call_inv in He as [[? _]|(e1 & [= ->] & He)]; [done|].
        eexists. split; [rewrite He, Hd, Hc, Hb, Ha, <- !app_assoc; reflexivity|].
        cbn [app]. split; [settle_order|]. intros p H. by not_in_events H. }
    apply call_inv in He as [[_ He]|(e1 & ? & _)]; [|done].
    apply bind_inv in Hsteps as [([] & wf & [_ Hf]%emit_inv & Hsteps)
                                |(e0 & [? _]%emit_inv & _)]; [|done].
    apply bind_inv in Hsteps as [([] & wg & Hg & Hsteps)|(e0 & Hg & [= ->])].
    2:{ apply call_inv in Hg as [[? _]|(e1 & [= ->] & Hg)]; [done|].
        eexists. split;
          [rewrite Hg, Hf, He, Hd, Hc, Hb, Ha, <- !app_assoc; reflexivity|].
        cbn [app]. split; [settle_order|]. intros p H. by not_in_events H. }
    apply call_inv in Hg as [[_ Hg]|(e1 & ? & _)]; [|done].
    apply bind_inv in Hsteps as [([] & wh & [_ Hh]%emit_inv & Hsteps)
                                |(e0 & [? _]%emit_inv & _)]; [|done].
    apply call_inv in Hsteps as [[? _]|(e1 & [= ->] & Hi)]; [done|].
    eexists. split;
      [rewrite Hi, Hh, Hg, Hf, He, Hd, Hc, Hb, Ha, <- !app_assoc; reflexivity|].
    cbn [app]. split; [settle_order|]. intros p H. by not_in_events H.
Qed.

Lemma steps_in_order_cleanup path_ evs cl (r : result path) :
  steps_in_order path_ evs r →
  Forall (λ ev, ∃ p, ev = Rmtree p) cl →
  steps_in_order path_ (evs ++ cl) r.
Proof.
  intros (O1 & O2 & O3 & O4 & O5 & O6) Hcl.
  assert (∀ ev, (∀ p, ev ≠ Rmtree p) → ev ∈ evs ++ cl → ev ∈ evs) as Hin.
  { intros ev Hev [H|H]%elem_of_app; [done|].
    rewrite Forall_forall in Hcl. destruct (Hcl ev H) as [p ->].
    by destruct (Hev p). }
  assert (∀ ev, ev ∈ evs → ev ∈ evs ++ cl) as Hout
      by (intros ev H; apply elem_of_app; by left).
  unfold steps_in_order. split_and!.
  - intros raised H%Hin; [|done]. destruct (O1 raised H) as (? & ? & ?). auto.
  - intros raised H%Hin; [|done]. eauto.
  - intros raised H%Hin; [|done]. eauto.
  - intros p text H%Hin; [|done]. destruct (O4 p text H). auto.
  - intros n e H%Hin; [|done]. eauto.
  - intros p H. destruct (O6 p H) as [? [text ?]]. eauto.
Qed.

(** Whatever the steps do, a run of [dumpyara] goes through the
    pipeline in order: the three directories are made before step 1 is
    called, each step is called only after the step before it returned,
    the manifest [all_files.txt] is written only after step 3 returned;
    an exception of a step is the outcome of the run, and a run that
    returns returns the output directory after writing the manifest.
    Only with [debug] unset is anything removed, and then only the two
    temporary directories. *)
Theorem dumpyara_steps_in_order
    (file output_path : path) (debug : bool) (w : world) r w' :
  dumpyara step_1 step_2 step_3 get_recursive_files_list sorted_strcoll
    file output_path debug w = (r, w') →
  ∃ evs,
    trace w' = trace w ++ evs ∧
    steps_in_order (output_dir file output_path) evs r ∧
    ∀ p, Rmtree p ∈ evs →
         debug = false ∧
         (p = output_dir file output_path </> "temp_extracted_archive" ∨
          p = output_dir file output_path </> "temp_raw_images").
Proof.
  intros Hrun. set (path_ := output_dir file output_path) in *.
  unfold dumpyara, try_finally in Hrun. fold path_ in Hrun.
  destruct ((dumpyara_steps step_1 step_2 step_3 file path_ >>
             dumpyara_finalize get_recursive_files_list sorted_strcoll path_) w)
    as [rb wb] eqn:Htry.
  destruct (try_block_in_order _ _ _ _ _ Htry) as (evs & Ht & Hord & Hno).
  destruct (dumpyara_cleanup_run path_ debug wb) as (w5 & Hclean & _ & _ & _ & Ht5).
  rewrite Hclean in Hrun. injection Hrun as <- <-.
  set (cl := if debug then []
             else (if FS.exists_ (files wb) (path_ </> "temp_extracted_archive")
                   then [Rmtree (path_ </> "temp_extracted_archive")] else [])
                  ++ (if FS.exists_ (files wb) (path_ </> "temp_raw_images")
                      then [Rmtree (path_ </> "temp_raw_images")] else []))
    in Ht5.
  assert (∀ ev, ev ∈ cl →
            debug = false ∧
            (ev = Rmtree (path_ </> "temp_extracted_archive") ∨
             ev = Rmtree (path_ </> "temp_raw_images"))) as Hcl.
  { intros ev H. unfold cl in H. destruct debug; [by apply not_elem_of_nil in H|].
    split; [done|].
    apply elem_of_app in H as [H|H];
      [destruct (FS.exists_ (files wb) (path_ </> "temp_extracted_archive"))
      |destruct (FS.exists_ (files wb) (path_ </> "temp_raw_images"))];
      try (by apply not_elem_of_nil in H);
      apply list_elem_of_singleton in H; auto. }
  exists (evs ++ cl). split_and!.
  - by rewrite Ht5, Ht, <- app_assoc.
  - apply steps_in_order_cleanup; [done|]. apply Forall_forall.
    intros ev H. destruct (Hcl ev H) as [_ [->| ->]]; by eexists.
  - intros p [H|H]%elem_of_app; [by apply Hno in H|].
    destruct (Hcl _ H) as [? [[= ->]|[= ->]]]; auto.
Qed.

End PipelineOrder.

Lemma dumpyara_steps_in_order_run :
  ∃ evs,
    trace (dumpyara example_step_1 failing_step_2 example_step_3
             example_files_list example_sorted example_firmware example_root
             false empty_root).2
    = trace empty_root ++ evs ∧
    steps_in_order (output_dir example_firmware example_root) evs
      (dumpyara example_step_1 failing_step_2 example_step_3
         example_files_list example_sorted example_firmware example_root
         false empty_root).1 ∧
    ∀ p, Rmtree p ∈ evs →
         false = false ∧
         (p = output_dir example_firmware example_root </> "temp_extracted_archive" ∨
          p = output_dir example_firmware example_root </> "temp_raw_images").
Proof.
  apply (dumpyara_steps_in_order example_step_1 failing_step_2 example_step_3
           example_files_list example_sorted example_firmware example_root
           false empty_root).
  apply surjective_pairing.
Defined.

(** ** The copy of the raw image, outside the [try] blocks *)

Section CopyFailure.

Variable extract_bootimg : path → path → collaborator.
Variable sevenz : sevenz_command → collaborator.
Variable format_exception : exn → string.

Variables raw out : path.

Hypothesis bootimg_below : ∀ image, writes_below (extract_bootimg image).
Hypothesis sevenz_below :
  ∀ image, writes_below (λ dest, sevenz (SevenzX image dest)).
Hypothesis raw_not_out : raw ≠ out.
Hypothesis raw_apart :
  ∀ p, p ∈ get_partition_names → ¬ (out </> p) `prefix_of` raw.
Hypothesis sevenz_exit_only :
  ∀ cmd m e, (sevenz cmd m).1 = Some e → exn_cls e = CalledProcessError.

Abbreviation turns :=
  (extract_partition extract_bootimg sevenz format_exception raw out).

Lemma copyfile_onto_directory (src dst : path) c w :
  files w !! src = Some (File c) → src ≠ dst → files w !! dst = Some Dir →
  FS.copyfile src dst w =
  (Raise (FS.oserror IsADirectoryError dst), after w [CopyFile src dst] (files w)).
Proof.
  intros Hs Hne Hd. unfold FS.copyfile, bind, emit, get_files. cbn [files trace].
  rewrite bool_decide_eq_false_2 by done. cbn [andb]. by rewrite Hs, Hd.
Qed.

(** The copy of a raw image is outside the [try] blocks: when the place
    of the copy of a [RAW] or [BOOTIMAGE] partition is taken by a
    directory, [extract_partitions] raises [IsADirectoryError] at that
    copy, which is its last event: the partitions after it are not
    attempted. *)
Theorem copy_failure_propagates (w : world) (p c : string) ty :
  dict_get PARTITIONS p = Some ty → ty ≠ FILESYSTEM →
  files w !! (raw </> (p +:+ ".img")) = Some (File c) →
  files w !! (out </> (p +:+ ".img")) = Some Dir →
  FS.is_dir (files w) out = true →
  (∀ p', p' ∈ get_partition_names → p' ≠ p →
         files w !! (raw </> (p' +:+ ".img")) ≠ Some Dir ∧
         files w !! (out </> (p' +:+ ".img")) ≠ Some Dir) →
  ∃ w' evs,
    extract_partitions extract_bootimg sevenz format_exception raw out w
    = (Raise (FS.oserror IsADirectoryError (out </> (p +:+ ".img"))), w') ∧
    trace w' = trace w ++ evs
               ++ [CopyFile (raw </> (p +:+ ".img")) (out </> (p +:+ ".img"))].
Proof.
  intros Hty Hfs Himg Hcopy Hout Hothers.
  pose proof (dict_get_Some_in _ _ _ Hty) as Hp. fold get_partition_names in Hp.
  destruct (list_elem_of_split _ _ Hp) as (l1 & l2 & Hsplit).
  pose proof partition_names_NoDup as Hnd. rewrite Hsplit in Hnd.
  apply NoDup_app in Hnd as (Hnd1 & Hl1 & _).
  assert (∀ p', p' ∈ l1 → p' ∈ get_partition_names ∧ p' ≠ p) as Hsub1.
  { intros p' Hp'. split.
    - rewrite Hsplit. apply elem_of_app. by left.
    - intros ->. apply (Hl1 p Hp'). by left. }
  destruct (turns_return extract_bootimg sevenz format_exception raw out
              bootimg_below sevenz_below raw_not_out raw_apart sevenz_exit_only
              l1 w Hnd1) as (w1 & e1 & Hrun1 & Ht1 & _).
  { intros p' Hp'. by apply Hsub1. }
  { split; [done|]. intros p' Hp'. destruct (Hsub1 p' Hp'). by apply Hothers. }
  destruct (extract_turns_confined _ _ _ raw out l1 bootimg_below sevenz_below
              _ _ _ Hrun1) as [Hf1 _].
  assert (files w1 !! (raw </> (p +:+ ".img")) = Some (File c)) as Himg1.
  { rewrite Hf1; [done|]. apply image_not_written; [done..|].
    intros p' Hp'. by apply Hsub1. }
  assert (files w1 !! (out </> (p +:+ ".img")) = Some Dir) as Hcopy1
      by (rewrite Hf1; [done|by apply copy_not_written]).
  assert (raw </> (p +:+ ".img") ≠ out </> (p +:+ ".img")) as Hne
      by (by intros [? _]%app_inj_tail).
  unfold extract_partitions. rewrite Hsplit, for_each_app, Hrun1.
  cbn [for_each]. unfold bind at 1.
  destruct ty; [done| |].
  - (* a boot image: the unpacker runs first *)
    rewrite turn_bootimage; [|done|unfold FS.exists_; by rewrite Himg1].
    destruct (extract_bootimg (raw </> (p +:+ ".img")) (out </> p) (files w1))
      as [raised m1] eqn:Hcall.
    assert (∀ q, ¬ (out </> p) `prefix_of` q → m1 !! q = files w1 !! q) as Hb.
    { intros q Hq.
      pose proof (bootimg_below (raw </> (p +:+ ".img")) (out </> p) (files w1) q Hq)
        as Hb. by rewrite Hcall in Hb. }
    rewrite (copyfile_onto_directory _ _ c); cbn [files after]; [|..|done|].
    + eexists _, (e1 ++ [LOGI ("Extracting " +:+ p);
                          CallBootimg (raw </> (p +:+ ".img")) (out </> p) raised]
                       ++ bootimg_failure_logs format_exception
                            (raw </> (p +:+ ".img")) raised).
      split; [reflexivity|]. cbn [trace after].
      rewrite Ht1, <- !app_assoc. reflexivity.
    + rewrite Hb; [done|]. intros Hpre.
      apply (image_not_written raw out raw_not_out raw_apart [p] (p +:+ ".img")).
      * by intros ? ->%list_elem_of_singleton.
      * exists p. split; [by left|by left].
    + rewrite Hb; [done|]. intros Hpre.
      apply prefix_length_eq in Hpre; [|by rewrite !length_app].
      apply app_inj_tail in Hpre as [_ Hpre].
      apply (f_equal String.length) in Hpre.
      rewrite StrFacts.length_append in Hpre. simpl in Hpre. lia.
  - (* a raw partition *)
    rewrite turn_raw; [|done|unfold FS.exists_; by rewrite Himg1].
    rewrite (copyfile_onto_directory _ _ c) by done.
    eexists _, (e1 ++ [LOGI ("Extracting " +:+ p)]).
    split; [reflexivity|]. cbn [trace after].
    rewrite Ht1, <- !app_assoc. reflexivity.
Qed.

End CopyFailure.

Lemma copy_failure_propagates_run :
  ∃ w' evs,
    extract_partitions example_bootimg example_sevenz example_format_exception
      example_staging example_output blocked_copy
    = (Raise (FS.oserror IsADirectoryError (example_output </> ("dtbo" +:+ ".img"))),
       w') ∧
    trace w' = trace blocked_copy ++ evs
               ++ [CopyFile (example_staging </> ("dtbo" +:+ ".img"))
                     (example_output </> ("dtbo" +:+ ".img"))].
Proof.
  apply (copy_failure_propagates example_bootimg example_sevenz
           example_format_exception example_staging example_output
           example_bootimg_below example_sevenz_below)
    with (c := "DTBO") (ty := RAW).
  - done.
  - apply example_staging_apart.
  - apply example_sevenz_exit_only.
  - done.
  - done.
  - by vm_compute.
  - by vm_compute.
  - by vm_compute.
  - intros p' Hp' Hne. unfold get_partition_names, PARTITIONS in Hp'.
    cbn [map fst] in Hp'.
    repeat (apply elem_of_cons in Hp' as [->|Hp'];
            [first [done | split; by vm_compute]|]).
    by apply not_elem_of_nil in Hp'.
Defined.

(** ** A run on a fresh output directory *)

Lemma bind_ret_run {A B} (m : M A) (k : A → M B) w a w1 :
  m w = (Ret a, w1) → bind m k w = k a w1.
Proof. intros H. unfold bind. by rewrite H. Qed.

Lemma os_mkdir_fresh p w :
  FS.exists_ (files w) p = false →
  FS.is_dir (files w) (Pathlib.parent p) = true →
  Files.os_mkdir p w = (Ret tt, World (<[p := Dir]> (files w)) (trace w)).
Proof.
  intros He Hp. unfold Files.os_mkdir, bind, get_files. by rewrite He, Hp.
Qed.

Lemma mkdir_fresh p w :
  FS.exists_ (files w) p = false →
  FS.is_dir (files w) (Pathlib.parent p) = true →
  Files.mkdir p w = (Ret tt, after w [Mkdir p] (<[p := Dir]> (files w))).
Proof.
  intros He Hp. unfold Files.mkdir. unfold bind at 1. unfold emit at 1.
  by rewrite os_mkdir_fresh.
Qed.

Lemma mkdir_parents_fresh p w :
  FS.exists_ (files w) p = false →
  FS.is_dir (files w) (Pathlib.parent p) = true →
  Files.mkdir_parents p w = (Ret tt, after w [Mkdir p] (<[p := Dir]> (files w))).
Proof.
  intros He Hp. unfold Files.mkdir_parents. unfold bind at 1. unfold emit at 1.
  destruct (length p); cbn [Files.mkdir_parents_from];
    unfold bind, get_files; cbn [files trace]; by rewrite He, Hp.
Qed.

Lemma call_returns (f : collaborator) ev w :
  (f (files w)).1 = None →
  call f ev w = (Ret tt, after w [ev None] (f (files w)).2).
Proof. unfold call. destruct (f (files w)) as [raised m']. by intros [= ->]. Qed.

Lemma write_text_file p text w :
  files w !! p ≠ Some Dir → FS.parent_ok (files w) p = true →
  Files.write_text p text w =
  (Ret tt, after w [WriteText p text] (<[p := File text]> (files w))).
Proof.
  intros Hp Hd. unfold Files.write_text, bind, emit, get_files.
  cbn [files trace]. rewrite Hd. by destruct (files w !! p) as [[c|]|].
Qed.

Section FreshOutput.

Variable step_1 : path → path → collaborator.
Variable step_2 : path → path → collaborator.
Variable step_3 : path → path → collaborator.
Variable get_recursive_files_list : filesystem → path → list path.
Variable sorted_strcoll : list path → list path.

(** On an output root that is a directory and with nothing at or below
    the output directory yet, a run of [dumpyara] whose steps return
    (and leave the output directory in place) returns the output
    directory, which then holds the manifest [all_files.txt]. *)
Theorem dumpyara_returns_on_fresh_output
    (file output_path : path) (debug : bool) (w : world) :
  FS.is_dir (files w) output_path = true →
  (∀ q, output_dir file output_path `prefix_of` q → files w !! q = None) →
  step_returns (output_dir file output_path)
    (step_1 file (output_dir file output_path </> "temp_extracted_archive")) →
  step_returns (output_dir file output_path)
    (step_2 (output_dir file output_path </> "temp_extracted_archive")
            (output_dir file output_path </> "temp_raw_images")) →
  step_returns (output_dir file output_path)
    (step_3 (output_dir file output_path </> "temp_raw_images")
            (output_dir file output_path)) →
  ∃ w' text,
    dumpyara step_1 step_2 step_3 get_recursive_files_list sorted_strcoll
      file output_path debug w = (Ret (output_dir file output_path), w') ∧
    files w' !! (output_dir file output_path </> "all_files.txt")
    = Some (File text).
Proof.
  intros Hroot Hfresh S1 S2 S3.
  set (path_ := output_dir file output_path) in *.
  assert (Pathlib.parent path_ = output_path) as Hparent
      by (unfold path_, output_dir; apply parent_child).
  assert (∀ n, path_ </> n ≠ path_) as Hchild by (intros n; apply child_ne_self).
  set (m1 := <[path_ := Dir]> (files w)).
  set (m2 := <[path_ </> "temp_extracted_archive" := Dir]> m1).
  set (m3 := <[path_ </> "temp_raw_images" := Dir]> m2).
  set (m4 := (step_1 file (path_ </> "temp_extracted_archive") m3).2).
  set (m5 := (step_2 (path_ </> "temp_extracted_archive")
                (path_ </> "temp_raw_images") m4).2).
  set (m6 := (step_3 (path_ </> "temp_raw_images") path_ m5).2).
  assert (FS.is_dir m3 path_ = true) as Hd3.
  { unfold FS.is_dir, m3, m2, m1.
    rewrite !lookup_insert_ne by done. by rewrite lookup_insert_eq. }
  assert (m3 !! (path_ </> "all_files.txt") ≠ Some Dir) as Hm3.
  { unfold m3, m2, m1.
    rewrite !lookup_insert_ne by (done || by intros ?%child_inj).
    rewrite Hfresh; [done|]. by exists ["all_files.txt"]. }
  destruct (S1 m3) as (R1 & D1 & A1). fold m4 in R1, D1, A1.
  destruct (S2 m4) as (R2 & D2 & A2). fold m5 in R2, D2, A2.
  destruct (S3 m5) as (R3 & D3 & A3). fold m6 in R3, D3, A3.
  specialize (D1 Hd3). specialize (D2 D1). specialize (D3 D2).
  specialize (A1 Hm3). specialize (A2 A1). specialize (A3 A2).
  assert (∃ tr, dumpyara_steps step_1 step_2 step_3 file path_ w
                = (Ret tt, World m6 tr)) as [tr Hsteps].
  { unfold dumpyara_steps.
    erewrite bind_ret_run;
      [|apply mkdir_parents_fresh;
        [unfold FS.exists_; by rewrite Hfresh|by rewrite Hparent]].
    fold m1.
    erewrite bind_ret_run;
      [|apply mkdir_fresh; cbn [files after];
        [unfold FS.exists_, m1; rewrite lookup_insert_ne by done;
         rewrite Hfresh; [done|by exists ["temp_extracted_archive"]]
        |rewrite parent_child; unfold FS.is_dir, m1; by rewrite lookup_insert_eq]].
    cbn [files after]. fold m2.
    erewrite bind_ret_run;
      [|apply mkdir_fresh; cbn [files after];
        [unfold FS.exists_, m2, m1;
         rewrite !lookup_insert_ne by (done || by intros ?%child_inj);
         rewrite Hfresh; [done|by exists ["temp_raw_images"]]
        |rewrite parent_child; unfold FS.is_dir, m2, m1;
         rewrite lookup_insert_ne by done; by rewrite lookup_insert_eq]].
    cbn [files after]. fold m3.
    erewrite bind_ret_run; [|reflexivity]. cbn [files].
    erewrite bind_ret_run; [|by apply call_returns]. cbn [files after]. fold m4.
    erewrite bind_ret_run; [|reflexivity]. cbn [files].
    erewrite bind_ret_run; [|by apply call_returns]. cbn [files after]. fold m5.
    erewrite bind_ret_run; [|reflexivity]. cbn [files].
    rewrite call_returns by done. cbn [files after]. fold m6.
    eexists. reflexivity. }
  set (text := manifest get_recursive_files_list sorted_strcoll m6 path_).
  assert (∃ tr', (dumpyara_steps step_1 step_2 step_3 file path_ >>
                  dumpyara_finalize get_recursive_files_list sorted_strcoll path_) w
                 = (Ret path_,
                    World (<[path_ </> "all_files.txt" := File text]> m6) tr'))
    as [tr' Htry].
  { erewrite bind_ret_run; [|exact Hsteps]. unfold dumpyara_finalize.
    erewrite bind_ret_run; [|reflexivity]. cbn [files].
    erewrite bind_ret_run; [|reflexivity]. cbn [files].
    erewrite bind_ret_run; [|reflexivity]. cbn [files].
    erewrite bind_ret_run; [|reflexivity]. cbn [files].
    erewrite bind_ret_run;
      [|apply write_text_file; cbn [files];
        [done|unfold FS.parent_ok; by rewrite parent_child]].
    cbn [files after]. eexists. reflexivity. }
  destruct (dumpyara_cleanup_run path_ debug
              (World (<[path_ </> "all_files.txt" := File text]> m6) tr'))
    as (w' & Hclean & _ & Hframe & _).
  exists w', text. split.
  - unfold dumpyara, try_finally. fold path_. by rewrite Htry, Hclean.
  - rewrite Hframe; cbn [files].
    + by rewrite lookup_insert_eq.
    + intros Hpre. apply prefix_length_eq in Hpre; [|by rewrite !length_app].
      by apply child_inj in Hpre.
    + intros Hpre. apply prefix_length_eq in Hpre; [|by rewrite !length_app].
      by apply child_inj in Hpre.
Qed.

End FreshOutput.

Lemma example_steps_return (path_ : path) :
  step_returns path_
    (example_step_1 example_firmware (path_ </> "temp_extracted_archive")) ∧
  step_returns path_
    (example_step_2 (path_ </> "temp_extracted_archive") (path_ </> "temp_raw_images")) ∧
  step_returns path_ (example_step_3 (path_ </> "temp_raw_images") path_).
Proof.
  split_and!; intros m; (split_and!; [done| |]); cbn [snd];
    unfold example_step_1, example_step_2, example_step_3; cbn [snd].
  - intros H. apply is_dir_insert_other; [done|]. apply grandchild_ne_self.
  - rewrite lookup_insert_ne; [done|]. apply grandchild_ne_child.
  - intros H. apply is_dir_insert_other; [done|]. apply grandchild_ne_self.
  - rewrite lookup_insert_ne; [done|]. apply grandchild_ne_child.
  - intros H. apply is_dir_insert_other; [done|]. apply child_ne_self.
  - rewrite lookup_insert_ne; [done|]. by intros ?%child_inj.
Qed.

Lemma dumpyara_returns_run :
  ∃ w' text,
    dumpyara example_step_1 example_step_2 example_step_3 example_files_list
      example_sorted example_firmware example_root false empty_root
    = (Ret (output_dir example_firmware example_root), w') ∧
    files w' !! (output_dir example_firmware example_root </> "all_files.txt")
    = Some (File text).
Proof.
  apply (dumpyara_returns_on_fresh_output example_step_1 example_step_2
           example_step_3 example_files_list example_sorted example_firmware
           example_root false empty_root).
  - by vm_compute.
  - intros q [k ->]. unfold empty_root. cbn [files].
    rewrite lookup_insert_ne by done. by rewrite lookup_singleton_ne.
  - apply example_steps_return.
  - apply example_steps_return.
  - apply example_steps_return.
Defined.
